(** * nixops libvirtd backend: a shallow embedding of
      [nixops/backends/libvirtd.py] and the properties of its lifecycle.

    Python strings are [string]; [None]-able values are [option];
    attributes kept in the state file are fields of a record; every call
    that leaves the process (a command, a file operation, a random draw)
    is answered by an environment and recorded in a trace. *)

From Stdlib Require Import String Ascii List ZArith Bool Lia.
Import ListNotations.
Open Scope string_scope.

(** ** Python builtins used by the backend *)

Module Py.

(** Exceptions the modelled code can raise. *)
Inductive exn : Type :=
| AssertionError
| AttributeError
| TypeError
| IndexError
| ValueError
| CalledProcessError            (* subprocess.check_output, nonzero status *)
| CommandFailed                 (* self._logged_exec, nonzero status *)
| IOError                       (* shutil.copyfile, write_file *)
| OSError                       (* os.chmod, os.unlink *)
| Exception_ (msg : string)     (* raise Exception(msg) *)
| KeyError                      (* a named field of [format] *)
| UnsupportedFormatField.       (* see [format] *)

(** Outcome of running a piece of code: a value, an exception, or the
    loop budget of the model ran out ([while True] never left). *)
Inductive Res (A : Type) : Type :=
| Ok (a : A)
| Raise (e : exn)
| Timeout.
Arguments Ok {A} a.
Arguments Raise {A} e.
Arguments Timeout {A}.

Definition res_map {A B} (f : A -> B) (r : Res A) : Res B :=
  match r with
  | Ok a => Ok (f a)
  | Raise e => Raise e
  | Timeout => Timeout
  end.

Definition res_bind {A B} (r : Res A) (f : A -> Res B) : Res B :=
  match r with
  | Ok a => f a
  | Raise e => Raise e
  | Timeout => Timeout
  end.

Definition nl : string := String "010"%char "".

(** The XML templates of the source are Python literals between
    apostrophes that hold quotation marks. Here a template is written
    with an apostrophe wherever the source has a quotation mark, and
    [lit] puts the quotation marks back (character 34). *)
Fixpoint lit (s : string) : string :=
  match s with
  | "" => ""
  | String c r =>
      String (if Ascii.eqb c "'"%char then "034"%char else c) (lit r)
  end.

(** Truth value of a string-or-None: [None] and the empty string
    are false. *)
Definition truthy (o : option string) : bool :=
  match o with
  | Some s => negb (s =? "")
  | None => false
  end.

(** [str(x)] for a string-or-None. *)
Definition str (o : option string) : string :=
  match o with
  | Some s => s
  | None => "None"
  end.

Definition opt_eqb (a b : option string) : bool :=
  match a, b with
  | Some x, Some y => x =? y
  | None, None => true
  | _, _ => false
  end.

(** [sep.join(l)] *)
Fixpoint join (sep : string) (l : list string) : string :=
  match l with
  | [] => ""
  | [x] => x
  | x :: r => x ++ sep ++ join sep r
  end.

(** Whitespace of [str.split()] on byte strings. *)
Definition is_space (c : ascii) : bool :=
  let n := nat_of_ascii c in
  (n =? 32)%nat || ((9 <=? n)%nat && (n <=? 13)%nat).

(** [s.split()]: the maximal runs of non-whitespace, in order. *)
Fixpoint split (s : string) : list string :=
  match s with
  | "" => []
  | String c r =>
      if is_space c then split r
      else match r with
           | "" => [String c ""]
           | String c' _ =>
               if is_space c' then String c "" :: split r
               else match split r with
                    | t :: ts => String c t :: ts
                    | [] => [String c ""]
                    end
           end
  end.

(** [s.split(sep)] for a one-character separator: never empty. *)
Fixpoint split_on (sep : ascii) (s : string) : list string :=
  match s with
  | "" => [""]
  | String c r =>
      if Ascii.eqb c sep then "" :: split_on sep r
      else match split_on sep r with
           | t :: ts => String c t :: ts
           | [] => [String c ""]
           end
  end.

(** [l.index(x)]: position of the first element equal to [x];
    [None] stands for the ValueError. *)
Fixpoint index (x : option string) (l : list string) : option nat :=
  match l with
  | [] => None
  | y :: r =>
      if opt_eqb x (Some y) then Some 0%nat
      else option_map S (index x r)
  end.

(** [l[i]] for [i >= 0]. *)
Definition getitem {A} (l : list A) (i : nat) : Res A :=
  match nth_error l i with
  | Some a => Ok a
  | None => Raise IndexError
  end.

(** [string.find(s, sub) != -1] *)
Fixpoint prefix_of (p s : string) : bool :=
  match p, s with
  | "", _ => true
  | String a p', String b s' => Ascii.eqb a b && prefix_of p' s'
  | String _ _, "" => false
  end.

Fixpoint contains (s sub : string) : bool :=
  prefix_of sub s ||
  match s with
  | "" => false
  | String _ r => contains r sub
  end.

(** ["%02x" % n] *)
Definition hex_digit (d : Z) : ascii :=
  match get (Z.to_nat d) "0123456789abcdef" with
  | Some c => c
  | None => "?"%char
  end.

Fixpoint hex_go (fuel : nat) (n : Z) (acc : string) : string :=
  match fuel with
  | O => acc
  | S k =>
      let acc' := String (hex_digit (n mod 16)) acc in
      if n / 16 =? 0 then acc' else hex_go k (n / 16) acc'
  end%Z.

Definition hex (n : Z) : string :=
  hex_go (S (Z.to_nat (Z.log2 n))) n "".

Definition percent_02x (n : Z) : string :=
  if (n <? 0)%Z then "-" ++ hex (- n)
  else let h := hex n in
       if (String.length h <? 2)%nat then "0" ++ h else h.

(** [s.rstrip()] *)
Fixpoint rstrip (s : string) : string :=
  match s with
  | "" => ""
  | String c r =>
      match rstrip r with
      | "" => if is_space c then "" else String c ""
      | r' => String c r'
      end
  end.

(** [[f(x) for x in l]] where [f] may raise. *)
Fixpoint res_mapM {A B} (f : A -> Res B) (l : list A) : Res (list B) :=
  match l with
  | [] => Ok []
  | x :: r =>
      res_bind (f x) (fun y =>
      res_bind (res_mapM f r) (fun ys => Ok (y :: ys)))
  end.

(** *** [template.format(args)]

    The fragment of [str.format] the backend needs: literal text, the
    escapes of the two braces, fields that are a decimal index, and
    empty fields numbered automatically (mixing both numberings is a
    ValueError, as is a brace left alone). A field that is never
    closed is a ValueError; a closed field that is a name and no
    number is a KeyError, the backend passing positional arguments
    only. What is left (a field with an attribute, an index, a
    conversion or a format spec, or with a brace inside) is outside
    the fragment and answered with [UnsupportedFormatField]; no
    template of the backend has one, and the statements below keep
    such text out of the values that are formatted. Arguments are
    inserted as they are, never scanned again. *)
Inductive numbering : Type :=
| NumUnset
| NumManual
| NumAuto (next : nat).

Inductive fmode : Type :=
| InText
| InField (idx : option nat).

Definition digit_val (c : ascii) : option nat :=
  let n := nat_of_ascii c in
  if (48 <=? n)%nat && (n <=? 57)%nat then Some (n - 48)%nat else None.

Definition arg_at (args : list string) (i : nat) : Res string :=
  getitem args i.

(** The characters after which a field holds more than the name of
    an argument. *)
Definition ends_arg_name (c : ascii) : bool :=
  Ascii.eqb c "."%char || Ascii.eqb c "["%char || Ascii.eqb c "!"%char
  || Ascii.eqb c ":"%char.

(** What is raised by a field in which a character that is no digit
    and no closing brace was met. [rest] is what follows, [depth] the
    number of braces opened inside the field and not closed yet, and
    [plain] tells whether only characters of a name were met so far.
    A field that is not closed when the template ends is a
    ValueError. *)
Fixpoint field_outcome (depth : nat) (plain : bool) (rest : string) : exn :=
  match rest with
  | "" => ValueError
  | String c r =>
      if Ascii.eqb c "}"%char then
        match depth with
        | O => if plain then KeyError else UnsupportedFormatField
        | S d => field_outcome d plain r
        end
      else if Ascii.eqb c "{"%char then field_outcome (S depth) false r
      else field_outcome depth (plain && negb (ends_arg_name c)) r
  end.

Fixpoint format_go (args : list string) (num : numbering) (m : fmode)
         (s : string) : Res string :=
  match s with
  | "" =>
      match m with
      | InText => Ok ""
      | InField _ => Raise ValueError
      end
  | String c r =>
      match m with
      | InText =>
          if Ascii.eqb c "{"%char then
            match r with
            | String c2 r' =>
                if Ascii.eqb c2 "{"%char
                then res_map (String "{"%char) (format_go args num InText r')
                else format_go args num (InField None) r
            | "" => format_go args num (InField None) r
            end
          else if Ascii.eqb c "}"%char then
            match r with
            | String c2 r' =>
                if Ascii.eqb c2 "}"%char
                then res_map (String "}"%char) (format_go args num InText r')
                else Raise ValueError
            | "" => Raise ValueError
            end
          else res_map (String c) (format_go args num InText r)
      | InField idx =>
          if Ascii.eqb c "}"%char then
            match idx, num with
            | Some _, NumAuto _ => Raise ValueError
            | Some i, _ =>
                res_bind (arg_at args i) (fun a =>
                res_map (append a) (format_go args NumManual InText r))
            | None, NumManual => Raise ValueError
            | None, NumUnset =>
                res_bind (arg_at args 0) (fun a =>
                res_map (append a) (format_go args (NumAuto 1) InText r))
            | None, NumAuto n =>
                res_bind (arg_at args n) (fun a =>
                res_map (append a) (format_go args (NumAuto (S n)) InText r))
            end
          else
            match digit_val c with
            | Some d =>
                let i := match idx with Some i => i | None => O end in
                format_go args num (InField (Some (10 * i + d)%nat)) r
            | None =>
                if Ascii.eqb c "{"%char
                then Raise (field_outcome 1 false r)
                else Raise (field_outcome 0 (negb (ends_arg_name c)) r)
            end
      end
  end.

Definition format (template : string) (args : list string) : Res string :=
  format_go args NumUnset InText template.

(** No brace at all: such text goes through [format] unchanged. *)
Fixpoint brace_free (s : string) : bool :=
  match s with
  | "" => true
  | String c r =>
      negb (Ascii.eqb c "{"%char) && negb (Ascii.eqb c "}"%char)
      && brace_free r
  end.

(** *** Dictionaries, kept as association lists in insertion order *)
Fixpoint dict_set {V} (k : option string) (v : V)
         (d : list (option string * V)) : list (option string * V) :=
  match d with
  | [] => [(k, v)]
  | (k', v') :: r =>
      if opt_eqb k k' then (k, v) :: r else (k', v') :: dict_set k v r
  end.

End Py.
Import Py.

(** ** Lease lookup: the pure part of [LibvirtdState._parse_ip] *)

(** Lines 247-253, applied to the output [lines] of the lease command.
    [None] is what the function returns when it falls off its end. *)
Definition parse_leases (primary_mac : option string) (lines : string)
  : Res (option string) :=
  match index primary_mac (split lines) with
  | None => Ok None
  | Some i =>
      res_bind (getitem (split lines) (i + 2)) (fun ip_with_subnet =>
      res_bind (getitem (split_on "/" ip_with_subnet) 0) (fun ip =>
      Ok (Some ip)))
  end.

(** ** The configuration tree ([xml.etree]) *)

Module ET.

Local Unset Elimination Schemes.
Inductive Element : Type :=
| Elem (tag : string) (attrib : list (string * string))
       (children : list Element).
Local Set Elimination Schemes.

Definition tag_of (e : Element) : string :=
  match e with Elem t _ _ => t end.
Definition children_of (e : Element) : list Element :=
  match e with Elem _ _ c => c end.

(** [e.get(key)] *)
Definition get (e : Element) (key : string) : option string :=
  match e with
  | Elem _ a _ =>
      option_map snd (List.find (fun kv => fst kv =? key) a)
  end.

(** One step of a path: a child tag, with or without a
    [[@key='value']] predicate. A path is the list of its steps, so
    [attrs/attr[@name='device']/string] is
    [[child "attrs"; named "attr" "device"; child "string"]]. *)
Record step : Type :=
  { step_tag : string; step_pred : option (string * string) }.

Definition child (t : string) : step :=
  {| step_tag := t; step_pred := None |}.
Definition named (t n : string) : step :=
  {| step_tag := t; step_pred := Some ("name", n) |}.

Definition selects (s : step) (e : Element) : bool :=
  (tag_of e =? step_tag s) &&
  match step_pred s with
  | None => true
  | Some (k, v) => opt_eqb (get e k) (Some v)
  end.

Definition select (s : step) (es : list Element) : list Element :=
  flat_map (fun e => filter (selects s) (children_of e)) es.

(** [e.findall(path)], in document order, and [e.find(path)]. *)
Definition findall (p : list step) (e : Element) : list Element :=
  fold_left (fun es s => select s es) p [e].

Definition find (p : list step) (e : Element) : option Element :=
  hd_error (findall p e).

End ET.

(** ** [LibvirtdDefinition] *)

Record DiskDefn : Type :=
  { device : option string; size : option string }.

Record LibvirtdDefinition : Type :=
  { vcpu : option string;
    memory_size : option string;
    extra_devices : option string;
    extra_domain : option string;
    headless : bool;
    image_dir : string;
    networks : list (option string);
    disks : list (option string * DiskDefn) }.

(** [e.find(path).get("value")]: calling [get] on the [None] that a
    failed [find] returns is an AttributeError. *)
Definition find_value (p : list ET.step) (e : ET.Element)
  : Res (option string) :=
  match ET.find p e with
  | Some x => Ok (ET.get x "value")
  | None => Raise AttributeError
  end.

(** Lines 43-51. [result] is a dict, and line 50 assigns to an
    attribute of it, which a dict does not have. *)
Definition parse_disk (xml : ET.Element) : Res DiskDefn :=
  res_bind (find_value [ET.child "attrs"; ET.named "attr" "device";
                        ET.child "string"] xml) (fun d =>
  res_bind (find_value [ET.child "attrs"; ET.named "attr" "size";
                        ET.child "int"] xml) (fun s =>
  let result := {| device := d; size := s |} in
  let baseImageDefn :=
    ET.find [ET.child "attrs"; ET.named "attr" "baseImage";
             ET.child "string"] xml in
  match baseImageDefn with
  | Some _ => Raise AttributeError
  | None => Ok result
  end)).

(** The dict comprehension of lines 53-54. *)
Fixpoint parse_disks (ks : list ET.Element)
         (acc : list (option string * DiskDefn))
  : Res (list (option string * DiskDefn)) :=
  match ks with
  | [] => Ok acc
  | k :: r =>
      res_bind (parse_disk k) (fun d =>
      parse_disks r (dict_set (ET.get k "name") d acc))
  end.

Definition assert (b : bool) : Res unit :=
  if b then Ok tt else Raise AssertionError.

(** [LibvirtdDefinition.__init__], lines 28-54. The initialiser of the
    base class (line 26) is not part of this module. *)
Definition LibvirtdDefinition_init (xml : ET.Element)
  : Res LibvirtdDefinition :=
  match ET.find [ET.child "attrs"; ET.named "attr" "libvirtd";
                 ET.child "attrs"] xml with
  | None => Raise AssertionError
  | Some x =>
      res_bind (find_value [ET.named "attr" "vcpu"; ET.child "int"] x)
        (fun vcpu_ =>
      res_bind (find_value [ET.named "attr" "memorySize"; ET.child "int"] x)
        (fun memory_size_ =>
      res_bind (find_value [ET.named "attr" "extraDevicesXML";
                            ET.child "string"] x)
        (fun extra_devices_ =>
      res_bind (find_value [ET.named "attr" "extraDomainXML";
                            ET.child "string"] x)
        (fun extra_domain_ =>
      res_bind (find_value [ET.named "attr" "headless"; ET.child "bool"] x)
        (fun headless_ =>
      res_bind (find_value [ET.named "attr" "imageDir"; ET.child "string"] x)
        (fun image_dir_ =>
      match image_dir_ with
      | None => Raise AssertionError
      | Some dir =>
          let nets :=
            map (fun k => ET.get k "value")
                (ET.findall [ET.named "attr" "networks"; ET.child "list";
                             ET.child "string"] x) in
          res_bind (assert (0 <? List.length nets)%nat) (fun _ =>
          res_bind (parse_disks
                      (ET.findall [ET.named "attr" "disks";
                                   ET.child "attrs"; ET.child "attr"] x) [])
            (fun disks_ =>
          Ok {| vcpu := vcpu_;
                memory_size := memory_size_;
                extra_devices := extra_devices_;
                extra_domain := extra_domain_;
                headless := opt_eqb headless_ (Some "true");
                image_dir := dir;
                networks := nets;
                disks := disks_ |}))
      end))))))
  end.

(** ** The world outside the process *)

(** Everything the backend asks of or does to its surroundings. *)
Inductive Event : Type :=
| ELoggedExec (cmd : list string)          (* self._logged_exec(cmd) *)
| ECheckOutput (cmd : list string)         (* subprocess.check_output(cmd) *)
| EAccessW (path : string)                 (* os.access(path, os.W_OK) *)
| EPathExists (path : string)              (* os.path.exists(path) *)
| ECopyFile (src dst : string)             (* shutil.copyfile(src, dst) *)
| EChmod (path : string) (mode : Z)        (* os.chmod(path, mode) *)
| EWriteFile (path contents : string)      (* nixops.util.write_file *)
| EUnlink (path : string)                  (* os.unlink(path) *)
| EFindExecutable (exe : string)           (* spawn.find_executable(exe) *)
| ERandInt (lo hi : Z)                     (* random.randint(lo, hi) *)
| ECreateKeyPair                           (* nixops.util.create_key_pair() *)
| ESleep (secs : Z).                       (* time.sleep(secs) *)

(** The surroundings: each answer may depend on everything that happened
    before (the trace, most recent event first). A command answers its
    standard output, or [None] for a nonzero exit status. *)
Record Env : Type :=
  { depl_uuid : string;                    (* self.depl.uuid *)
    depl_tempdir : string;                 (* self.depl.tempdir *)
    depl_eval_flags : list string;         (* self.depl._eval_flags(...) *)
    depl_nix_path_flags : list string;     (* self.depl._nix_path_flags() *)
    self_name : string;                    (* self.name *)
    logged_exec_out : list Event -> list string -> option string;
    check_output_out : list Event -> list string -> option string;
    access_w : list Event -> string -> bool;
    path_exists : list Event -> string -> bool;
    file_op_ok : list Event -> Event -> bool;
    find_executable : list Event -> string -> option string;
    random_draw : list Event -> Z;
    key_pair : list Event -> string * string }.

(** ** [LibvirtdState] *)

Record DiskState : Type :=
  { disk_device : option string; imagePath : option string }.

Inductive MachineStatus : Type :=
| UNKNOWN
| STOPPED.

(** The persisted attributes of the machine (lines 58-66, and [vm_id] and
    [state] of the base class), with the trace of the world. *)
Record LibvirtdState : Type :=
  { private_ipv4 : option string;
    client_public_key : option string;
    client_private_key : option string;
    primary_net : option string;
    primary_mac : option string;
    domain_xml : option string;
    disk_path : option string;
    extra_disks : list (option string * DiskState);
    vm_id : option string;
    state : MachineStatus;
    trace : list Event }.

Definition set_private_ipv4 (v : option string) (s : LibvirtdState) :=
  {| private_ipv4 := v; client_public_key := client_public_key s;
     client_private_key := client_private_key s;
     primary_net := primary_net s; primary_mac := primary_mac s;
     domain_xml := domain_xml s; disk_path := disk_path s;
     extra_disks := extra_disks s; vm_id := vm_id s; state := state s;
     trace := trace s |}.

Definition set_client_keys (priv pub : string) (s : LibvirtdState) :=
  {| private_ipv4 := private_ipv4 s; client_public_key := Some pub;
     client_private_key := Some priv;
     primary_net := primary_net s; primary_mac := primary_mac s;
     domain_xml := domain_xml s; disk_path := disk_path s;
     extra_disks := extra_disks s; vm_id := vm_id s; state := state s;
     trace := trace s |}.

Definition set_primary_net (v : option string) (s : LibvirtdState) :=
  {| private_ipv4 := private_ipv4 s;
     client_public_key := client_public_key s;
     client_private_key := client_private_key s;
     primary_net := v; primary_mac := primary_mac s;
     domain_xml := domain_xml s; disk_path := disk_path s;
     extra_disks := extra_disks s; vm_id := vm_id s; state := state s;
     trace := trace s |}.

Definition set_primary_mac (v : option string) (s : LibvirtdState) :=
  {| private_ipv4 := private_ipv4 s;
     client_public_key := client_public_key s;
     client_private_key := client_private_key s;
     primary_net := primary_net s; primary_mac := v;
     domain_xml := domain_xml s; disk_path := disk_path s;
     extra_disks := extra_disks s; vm_id := vm_id s; state := state s;
     trace := trace s |}.

Definition set_domain_xml (v : option string) (s : LibvirtdState) :=
  {| private_ipv4 := private_ipv4 s;
     client_public_key := client_public_key s;
     client_private_key := client_private_key s;
     primary_net := primary_net s; primary_mac := primary_mac s;
     domain_xml := v; disk_path := disk_path s;
     extra_disks := extra_disks s; vm_id := vm_id s; state := state s;
     trace := trace s |}.

Definition set_disk_path (v : option string) (s : LibvirtdState) :=
  {| private_ipv4 := private_ipv4 s;
     client_public_key := client_public_key s;
     client_private_key := client_private_key s;
     primary_net := primary_net s; primary_mac := primary_mac s;
     domain_xml := domain_xml s; disk_path := v;
     extra_disks := extra_disks s; vm_id := vm_id s; state := state s;
     trace := trace s |}.

Definition set_extra_disks (v : list (option string * DiskState))
           (s : LibvirtdState) :=
  {| private_ipv4 := private_ipv4 s;
     client_public_key := client_public_key s;
     client_private_key := client_private_key s;
     primary_net := primary_net s; primary_mac := primary_mac s;
     domain_xml := domain_xml s; disk_path := disk_path s;
     extra_disks := v; vm_id := vm_id s; state := state s;
     trace := trace s |}.

Definition set_vm_id (v : option string) (s : LibvirtdState) :=
  {| private_ipv4 := private_ipv4 s;
     client_public_key := client_public_key s;
     client_private_key := client_private_key s;
     primary_net := primary_net s; primary_mac := primary_mac s;
     domain_xml := domain_xml s; disk_path := disk_path s;
     extra_disks := extra_disks s; vm_id := v; state := state s;
     trace := trace s |}.

Definition set_state (v : MachineStatus) (s : LibvirtdState) :=
  {| private_ipv4 := private_ipv4 s;
     client_public_key := client_public_key s;
     client_private_key := client_private_key s;
     primary_net := primary_net s; primary_mac := primary_mac s;
     domain_xml := domain_xml s; disk_path := disk_path s;
     extra_disks := extra_disks s; vm_id := vm_id s; state := v;
     trace := trace s |}.

Definition record (e : Event) (s : LibvirtdState) :=
  {| private_ipv4 := private_ipv4 s;
     client_public_key := client_public_key s;
     client_private_key := client_private_key s;
     primary_net := primary_net s; primary_mac := primary_mac s;
     domain_xml := domain_xml s; disk_path := disk_path s;
     extra_disks := extra_disks s; vm_id := vm_id s; state := state s;
     trace := e :: trace s |}.

(** ** Methods as state transformers

    A method takes the machine to an outcome and a machine: attributes
    written before an exception stay written. *)
Definition M (A : Type) : Type := LibvirtdState -> Res A * LibvirtdState.

Definition ret {A} (a : A) : M A := fun s => (Ok a, s).
Definition raise {A} (e : exn) : M A := fun s => (Raise e, s).
Definition timeout {A} : M A := fun s => (Timeout, s).
Definition bind {A B} (m : M A) (k : A -> M B) : M B :=
  fun s =>
    match m s with
    | (Ok a, s') => k a s'
    | (Raise e, s') => (Raise e, s')
    | (Timeout, s') => (Timeout, s')
    end.
Definition lift {A} (r : Res A) : M A := fun s => (r, s).
Definition gets {A} (f : LibvirtdState -> A) : M A := fun s => (Ok (f s), s).
Definition modify (f : LibvirtdState -> LibvirtdState) : M unit :=
  fun s => (Ok tt, f s).

Declare Scope py_scope.
Delimit Scope py_scope with py.
Notation "x <- m ;; k" := (bind m (fun x => k))
  (at level 61, m at next level, right associativity) : py_scope.
Notation "m ;; k" := (bind m (fun _ => k))
  (at level 61, right associativity) : py_scope.
Open Scope py_scope.

(** A list of arguments handed to a process: a [None] among them is a
    TypeError before anything is run. *)
Fixpoint argv (l : list (option string)) : Res (list string) :=
  match l with
  | [] => Ok []
  | Some a :: r => res_map (cons a) (argv r)
  | None :: _ => Raise TypeError
  end.

Section Backend.

Variable env : Env.

(** *** Calls that leave the process

    Log lines are left out. The variables handed to the image build
    (lines 114-115) are not part of its event: the environment answers
    for them as for everything else. *)

Definition _logged_exec (cmd : list string) : M string :=
  fun s =>
    match logged_exec_out env (trace s) cmd with
    | Some out => (Ok out, record (ELoggedExec cmd) s)
    | None => (Raise CommandFailed, record (ELoggedExec cmd) s)
    end.

Definition check_output (cmd : list string) : M string :=
  fun s =>
    match check_output_out env (trace s) cmd with
    | Some out => (Ok out, record (ECheckOutput cmd) s)
    | None => (Raise CalledProcessError, record (ECheckOutput cmd) s)
    end.

Definition os_access_w (path : string) : M bool :=
  fun s => (Ok (access_w env (trace s) path), record (EAccessW path) s).

Definition os_path_exists (path : string) : M bool :=
  fun s => (Ok (path_exists env (trace s) path), record (EPathExists path) s).

Definition file_op (e : Event) (err : exn) : M unit :=
  fun s =>
    if file_op_ok env (trace s) e then (Ok tt, record e s)
    else (Raise err, record e s).

Definition copyfile (src dst : string) : M unit :=
  file_op (ECopyFile src dst) IOError.
Definition chmod (path : string) (mode : Z) : M unit :=
  file_op (EChmod path mode) OSError.
Definition write_file (path contents : string) : M unit :=
  file_op (EWriteFile path contents) IOError.
Definition unlink (path : string) : M unit :=
  file_op (EUnlink path) OSError.

Definition spawn_find_executable (exe : string) : M (option string) :=
  fun s => (Ok (find_executable env (trace s) exe),
            record (EFindExecutable exe) s).

(** [random.randint(lo, hi)]: some integer of [lo..hi], both ends
    included; which one is the environment's choice. *)
Definition randint (lo hi : Z) : M Z :=
  fun s => (Ok (lo + random_draw env (trace s) mod (hi - lo + 1))%Z,
            record (ERandInt lo hi) s).

Definition create_key_pair : M (string * string) :=
  fun s => (Ok (key_pair env (trace s)), record ECreateKeyPair s).

Definition sleep (secs : Z) : M unit :=
  fun s => (Ok tt, record (ESleep secs) s).

(** [MachineState.set_common_state] belongs to the base class; it
    writes attributes of the base class only, none of which this
    module reads. *)
Definition set_common_state (defn : LibvirtdDefinition) : M unit :=
  ret tt.

(** *** Names and paths *)

(** Line 94. *)
Definition _vm_id : Res string :=
  format "nixops-{0}-{1}" [depl_uuid env; self_name env].

(** Line 147. *)
Definition _disk_path (defn : LibvirtdDefinition) : Res string :=
  res_bind _vm_id (fun v => format "{0}/{1}.img" [image_dir defn; v]).

(** *** The primary MAC address, lines 96-101 *)

Definition mac_string (mac : list Z) : string :=
  join ":" (map percent_02x mac).

Definition _generate_primary_mac : M unit :=
  o4 <- randint 0x00 0x7f ;;
  o5 <- randint 0x00 0xff ;;
  o6 <- randint 0x00 0xff ;;
  let mac := [0x52; 0x54; 0x00; o4; o5; o6]%Z in
  modify (set_primary_mac (Some (mac_string mac))).

(** *** Extra disks, lines 149-169 *)

Definition _extra_disk_base_image_path (defn : LibvirtdDefinition)
           (disk_name : option string) (disk_defn : DiskDefn) : M string :=
  out <- lift (format "{0}/libvirtd-image-{1}-{2}"
                 [depl_tempdir env; self_name env; str disk_name]) ;;
  cmd <- lift (argv (map Some (["nix-build"] ++ depl_nix_path_flags env)
                     ++ [Some "<nixops/generate-ext4-image.nix>";
                         Some "--arg"; Some "size"; size disk_defn;
                         Some "--argstr"; Some "name"; disk_name;
                         Some "-o"; Some out])) ;;
  image_build <- _logged_exec cmd ;;
  ret (rstrip image_build ++ "/disk.qcow2").

Fixpoint _copy_extra_disks_loop (defn : LibvirtdDefinition)
         (items : list (option string * DiskDefn))
         (out : list (option string * DiskState))
  : M (list (option string * DiskState)) :=
  match items with
  | [] => ret out
  | (disk_name, disk_defn) :: rest =>
      base_image_path <-
        _extra_disk_base_image_path defn disk_name disk_defn ;;
      v <- lift _vm_id ;;
      disk_path <- lift (format "{0}/{1}-{2}.img"
                           [image_dir defn; v; str disk_name]) ;;
      _logged_exec ["qemu-img"; "create"; "-f"; "qcow2"; "-b";
                    base_image_path; disk_path] ;;
      _copy_extra_disks_loop defn rest
        (dict_set disk_name
           {| disk_device := device disk_defn;
              imagePath := Some disk_path |} out)
  end.

Definition _copy_extra_disks (defn : LibvirtdDefinition)
  : M (list (option string * DiskState)) :=
  _copy_extra_disks_loop defn (disks defn) [].

(** *** The domain descriptor, lines 171-235 *)

Definition maybe_mac (s : LibvirtdState) (n : option string) : Res string :=
  if opt_eqb n (primary_net s) then
    match primary_mac s with
    | Some m => Ok (lit "<mac address='" ++ m ++ lit "' />")
    | None => Raise TypeError
    end
  else Ok "".

Definition iface (s : LibvirtdState) (n : option string) : Res string :=
  res_bind (maybe_mac s n) (fun mm =>
  format (join nl [
      lit "    <interface type='network'>";
      mm;
      lit "      <source network='{0}'/>";
      lit "      <model type='virtio'/>";
      lit "    </interface>"
    ]) [str n]).

Definition disk_xml (item : option string * DiskState) : Res string :=
  let (disk_name, disk_state) := item in
  format (join nl [
      lit "    <disk type='file' device='disk'>";
      lit "      <driver name='qemu' type='qcow2'/>";
      lit "      <source file='{0}'/>";
      lit "      <target dev='{1}'/>";
      lit "    </disk>"
    ]) [str (imagePath disk_state); str (disk_device disk_state)].

(** An item of the list handed to [join]: [None] is a TypeError. *)
Definition join_item (o : option string) : Res string :=
  match o with
  | Some x => Ok x
  | None => Raise TypeError
  end.

Definition domain_fmt (disks_xml ifaces : list string)
           (headless_ : bool) (extra_devices_ extra_domain_ : string)
  : string :=
  join nl [
    lit "<domain type='kvm'>";
    lit "  <name>{0}</name>";
    lit "  <memory unit='MiB'>{1}</memory>";
    lit "  <vcpu>{4}</vcpu>";
    lit "  <cpu>";
    lit "    <topology sockets='1' cores='{4}' threads='1'/>";
    lit "  </cpu>";
    lit "  <os>";
    lit "    <type arch='x86_64'>hvm</type>";
    lit "  </os>";
    lit "  <devices>";
    lit "    <emulator>{2}</emulator>";
    lit "    <disk type='file' device='disk'>";
    lit "      <driver name='qemu' type='qcow2'/>";
    lit "      <source file='{3}'/>";
    lit "      <target dev='hda'/>";
    lit "    </disk>";
    join nl disks_xml;
    join nl ifaces;
    if negb headless_ then lit "    <graphics type='sdl' display=':0.0'/>"
    else "";
    lit "    <input type='keyboard' bus='usb'/>";
    lit "    <input type='mouse' bus='usb'/>";
    extra_devices_;
    lit "  </devices>";
    extra_domain_;
    lit "</domain>"
  ].

Definition _make_domain_xml (defn : LibvirtdDefinition) : M string :=
  let qemu_executable := "qemu-system-x86_64" in
  qemu <- spawn_find_executable qemu_executable ;;
  match qemu with
  | None => raise AssertionError
  | Some qemu =>
      s <- gets (fun s => s) ;;
      disks_xml <- lift (res_mapM disk_xml (extra_disks s)) ;;
      ifaces <- lift (res_mapM (iface s) (networks defn)) ;;
      extra_devices_ <- lift (join_item (extra_devices defn)) ;;
      extra_domain_ <- lift (join_item (extra_domain defn)) ;;
      v <- lift _vm_id ;;
      dp <- lift (_disk_path defn) ;;
      lift (format (domain_fmt disks_xml ifaces (headless defn)
                      extra_devices_ extra_domain_)
              [v; str (memory_size defn); qemu; dp; str (vcpu defn)])
  end.

(** *** Address discovery, lines 237-264 *)

Definition _parse_ip : M (option string) :=
  net <- gets primary_net ;;
  cmd <- lift (argv [Some "virsh"; Some "-c"; Some "qemu:///system";
                     Some "net-dhcp-leases"; Some "--network"; net]) ;;
  lines <- check_output cmd ;;
  mac <- gets primary_mac ;;
  lift (parse_leases mac lines).

(** [while True] is run at most [fuel] times; a loop that is not left
    by then is a [Timeout]. *)
Fixpoint _wait_for_ip (fuel : nat) : M unit :=
  match fuel with
  | O => timeout
  | S k =>
      ip <- _parse_ip ;;
      if truthy ip then modify (set_private_ipv4 ip)
      else (sleep 1 ;; _wait_for_ip k)
  end.

(** *** Running state, lines 266-293 *)

Definition _is_running : M bool :=
  ls <- check_output ["virsh"; "-c"; "qemu:///system"; "list"] ;;
  v <- gets vm_id ;;
  match v with
  | Some v => ret (contains ls v)
  | None => raise TypeError
  end.

Definition assert_truthy (o : option string) : M string :=
  match o with
  | Some x => if truthy o then ret x else raise AssertionError
  | None => raise AssertionError
  end.

Definition start (fuel : nat) : M unit :=
  v <- (o <- gets vm_id ;; assert_truthy o) ;;
  (o <- gets domain_xml ;; assert_truthy o) ;;
  (o <- gets primary_net ;; assert_truthy o) ;;
  running <- _is_running ;;
  if running then
    ip <- _parse_ip ;;
    modify (set_private_ipv4 ip)
  else
    _logged_exec ["virsh"; "-c"; "qemu:///system"; "start"; v] ;;
    _wait_for_ip fuel.

Definition stop : M unit :=
  v <- (o <- gets vm_id ;; assert_truthy o) ;;
  running <- _is_running ;;
  (if running then
     _logged_exec ["virsh"; "-c"; "qemu:///system"; "destroy"; v] ;; ret tt
   else ret tt) ;;
  modify (set_state STOPPED).

(** *** [create], lines 103-144 *)

(** Lines 105-111: attributes written on every call. *)
Definition create_identity (defn : LibvirtdDefinition) : M unit :=
  set_common_state defn ;;
  n0 <- lift (getitem (networks defn) 0) ;;
  modify (set_primary_net n0) ;;
  mac <- gets primary_mac ;;
  (if negb (truthy mac) then _generate_primary_mac else ret tt) ;;
  pub <- gets client_public_key ;;
  (if negb (truthy pub) then
     kp <- create_key_pair ;;
     modify (set_client_keys (fst kp) (snd kp))
   else ret tt).

(** Lines 114-142: the body of [if self.vm_id is None]. *)
Definition create_provision (defn : LibvirtdDefinition) : M unit :=
  a <- lift (format "nodes.{0}.config.deployment.libvirtd.baseImage"
               [self_name env]) ;;
  o <- lift (format "{0}/libvirtd-image-{1}"
               [depl_tempdir env; self_name env]) ;;
  out <- _logged_exec
           (["nix-build"] ++ depl_eval_flags env ++
            ["--arg"; "checkConfigurationOptions"; "false";
             "-A"; a; "-o"; o]) ;;
  let base_image := rstrip out in
  writable <- os_access_w (image_dir defn) ;;
  (if negb writable then
     msg <- lift (format
              "{} is not writable by this user or it does not exist"
              [image_dir defn]) ;;
     raise (Exception_ msg)
   else ret tt) ;;
  dp <- lift (_disk_path defn) ;;
  modify (set_disk_path (Some dp)) ;;
  copyfile (base_image ++ "/disk.qcow2") dp ;;
  _logged_exec ["qemu-img"; "rebase"; "-f"; "qcow2"; "-b"; ""; dp] ;;
  chmod dp 432 ;;
  ed <- _copy_extra_disks defn ;;
  modify (set_extra_disks ed) ;;
  v <- lift _vm_id ;;
  modify (set_vm_id (Some v)) ;;
  d <- lift (format "/{0}-domain.xml" [self_name env]) ;;
  let dom_file := depl_tempdir env ++ d in
  x <- _make_domain_xml defn ;;
  modify (set_domain_xml (Some x)) ;;
  write_file dom_file x ;;
  _logged_exec ["virsh"; "-c"; "qemu:///system"; "define"; dom_file] ;;
  ret tt.

Definition create (fuel : nat) (defn : LibvirtdDefinition)
           (check allow_reboot allow_recreate : bool) : M bool :=
  create_identity defn ;;
  v <- gets vm_id ;;
  (match v with
   | None => create_provision defn
   | Some _ => ret tt
   end) ;;
  start fuel ;;
  ret true.

(** *** [destroy], lines 295-307 *)

Definition unlink_if_exists (path : option string) : M unit :=
  match path with
  | Some p =>
      if truthy path then
        e <- os_path_exists p ;;
        if e then unlink p else ret tt
      else ret tt
  | None => ret tt
  end.

Fixpoint destroy_extra_disks (items : list (option string * DiskState))
  : M unit :=
  match items with
  | [] => ret tt
  | (disk_name, disk_state) :: rest =>
      let image_path := imagePath disk_state in
      unlink_if_exists image_path ;;
      destroy_extra_disks rest
  end.

Definition destroy (wipe : bool) : M bool :=
  v <- gets vm_id ;;
  if negb (truthy v) then ret true
  else
    stop ;;
    _logged_exec ["virsh"; "-c"; "qemu:///system"; "undefine"; str v] ;;
    dp <- gets disk_path ;;
    unlink_if_exists dp ;;
    ed <- gets extra_disks ;;
    destroy_extra_disks ed ;;
    ret true.

End Backend.

(** ** Reading traces *)

(** The events that happened between [s] and a later [s'], most recent
    first. *)
Definition events_since (s s' : LibvirtdState) : list Event :=
  firstn (List.length (trace s') - List.length (trace s)) (trace s').

Definition arg (cmd : list string) (i : nat) : string := nth i cmd "".

Definition is_virsh (sub : string) (e : Event) : bool :=
  match e with
  | ELoggedExec cmd => (arg cmd 0 =? "virsh") && (arg cmd 3 =? sub)
  | _ => false
  end.

(** Registration of the domain: [virsh ... define]. *)
Definition is_define (e : Event) : bool := is_virsh "define" e.

(** The image-build collaborator: [nix-build]. *)
Definition is_image_build (e : Event) : bool :=
  match e with
  | ELoggedExec cmd => arg cmd 0 =? "nix-build"
  | _ => false
  end.

(** The disk-image utility: [qemu-img]. *)
Definition is_disk_tool (e : Event) : bool :=
  match e with
  | ELoggedExec cmd => arg cmd 0 =? "qemu-img"
  | _ => false
  end.

Definition is_copyfile (e : Event) : bool :=
  match e with
  | ECopyFile _ _ => true
  | _ => false
  end.

(** Everything the body of [if self.vm_id is None] does to the world:
    building and copying images, the writability check, rendering
    (which looks the emulator up), writing and registering the
    descriptor. *)
Definition is_provisioning (e : Event) : bool :=
  match e with
  | ELoggedExec _ => is_image_build e || is_disk_tool e || is_define e
  | ECopyFile _ _ | EChmod _ _ | EWriteFile _ _ | EAccessW _
  | EFindExecutable _ => true
  | _ => false
  end.

(** A draw of the fourth octet: one per generated address. *)
Definition is_mac_generation (e : Event) : bool :=
  match e with
  | ERandInt lo hi => (lo =? 0)%Z && (hi =? 0x7f)%Z
  | _ => false
  end.

Definition count (f : Event -> bool) (l : list Event) : nat :=
  List.length (filter f l).

(** A sequence of [create] calls on one machine, each with its own
    definition and loop budget; a failed call leaves the machine as it
    got it and the next call goes on from there. *)
Fixpoint create_seq (env : Env) (calls : list (nat * LibvirtdDefinition))
         (s : LibvirtdState) : LibvirtdState :=
  match calls with
  | [] => s
  | (fuel, defn) :: rest =>
      create_seq env rest (snd (create env fuel defn false false false s))
  end.

(** ** What a method leaves alone

    [Frame proj P s s']: from [s] to [s'] the attributes seen through
    [proj] are unchanged and every new event satisfies [P]. A method
    [Keeps] a frame when that holds from every machine, whatever the
    outcome. *)
Definition Frame {T} (proj : LibvirtdState -> T) (P : Event -> Prop)
           (s s' : LibvirtdState) : Prop :=
  proj s' = proj s /\
  exists evs, trace s' = (evs ++ trace s)%list /\ Forall P evs.

Definition Keeps {T} (proj : LibvirtdState -> T) (P : Event -> Prop)
           {A} (m : M A) : Prop :=
  forall s, Frame proj P s (snd (m s)).

(** Every attribute but the address. *)
Definition but_address (s : LibvirtdState) :=
  (client_public_key s, client_private_key s, primary_net s, primary_mac s,
   domain_xml s, disk_path s, extra_disks s, vm_id s, state s).

(** Every attribute but the run state. *)
Definition but_state (s : LibvirtdState) :=
  (private_ipv4 s, client_public_key s, client_private_key s, primary_net s,
   primary_mac s, domain_xml s, disk_path s, extra_disks s, vm_id s).

(** The attributes that provisioning leaves alone. *)
Definition identity_part (s : LibvirtdState) :=
  (private_ipv4 s, client_public_key s, client_private_key s, primary_net s,
   primary_mac s, state s).

(** The attributes that provisioning writes. *)
Definition provisioned_part (s : LibvirtdState) :=
  (private_ipv4 s, domain_xml s, disk_path s, extra_disks s, vm_id s,
   state s).

Definition quiet (e : Event) : Prop :=
  is_provisioning e = false /\ is_mac_generation e = false.

(** Neither a draw of an address, nor a registration, nor a copy of
    the primary disk. *)
Definition auxiliary (e : Event) : Prop :=
  is_mac_generation e = false /\ is_define e = false /\
  is_copyfile e = false.

Definition not_provisioning (e : Event) : Prop := is_provisioning e = false.

Definition not_generation (e : Event) : Prop := is_mac_generation e = false.

Definition net_and_mac (s : LibvirtdState) :=
  (primary_net s, primary_mac s).

(** From [s] to [s'] an address was generated at most once, and not at
    all when [s] had one; once generated it is there. *)
Definition MacOnce (s s' : LibvirtdState) : Prop :=
  exists evs,
    trace s' = (evs ++ trace s)%list /\
    (truthy (primary_mac s) = true ->
     primary_mac s' = primary_mac s /\ count is_mac_generation evs = 0) /\
    (count is_mac_generation evs = 0 \/
     (count is_mac_generation evs = 1 /\ truthy (primary_mac s') = true)).

(** From [s] to [s'] exactly [n] events satisfying [f] happened; a
    method [OkAdds] them when that holds of each of its runs that
    returns. *)
Definition Adds (f : Event -> bool) (n : nat) (s s' : LibvirtdState) : Prop :=
  exists evs, trace s' = (evs ++ trace s)%list /\ count f evs = n.

Definition OkAdds (f : Event -> bool) (n : nat) {A} (m : M A) : Prop :=
  forall s a s', m s = (Ok a, s') -> Adds f n s s'.

(** Every attribute. *)
Definition attributes (s : LibvirtdState) :=
  (private_ipv4 s, but_address s).

(** What provisioning and registration write. *)
Definition provisioned_attrs (s : LibvirtdState) :=
  (domain_xml s, disk_path s, extra_disks s, vm_id s).

(** The files [destroy] looks at: the primary disk and the image of
    each extra disk, where the attribute is set and not empty. *)
Definition files_of (l : list (option string)) : list string :=
  flat_map (fun o => if truthy o then [str o] else []) l.

Definition disk_files (s : LibvirtdState) : list string :=
  files_of (disk_path s :: map (fun kv => imagePath (snd kv)) (extra_disks s)).

Definition undefine_cmd (v : string) : list string :=
  ["virsh"; "-c"; "qemu:///system"; "undefine"; v].

Definition force_stop_cmd (v : string) : list string :=
  ["virsh"; "-c"; "qemu:///system"; "destroy"; v].

Definition list_cmd : list string :=
  ["virsh"; "-c"; "qemu:///system"; "list"].

(** What [stop] does to the world: it lists the domains and may force
    the domain [v] to stop. *)
Definition stop_event (v : string) (e : Event) : Prop :=
  e = ECheckOutput list_cmd \/ e = ELoggedExec (force_stop_cmd v).

(** Looking for, or deleting, one of the files [paths]. *)
Definition file_event (paths : list string) (e : Event) : Prop :=
  exists p, In p paths /\ (e = EPathExists p \/ e = EUnlink p).

Definition is_unlink (p : string) (e : Event) : bool :=
  match e with
  | EUnlink q => q =? p
  | _ => false
  end.

Definition occurrences (p : string) (l : list string) : nat :=
  List.length (filter (fun q => q =? p) l).

(** ** Descriptions used in the statements *)

(** The part of a token before its first slash. *)
Fixpoint no_slash (s : string) : bool :=
  match s with
  | "" => true
  | String c r => negb (Ascii.eqb c "/"%char) && no_slash r
  end.

Definition stripped (token ip : string) : Prop :=
  no_slash ip = true /\
  (token = ip \/ exists rest, token = ip ++ "/" ++ rest).

(** The command line of the image build of line 116. *)
Definition base_image_cmd (env : Env) : list string :=
  let target :=
    "nodes." ++ self_name env ++ ".config.deployment.libvirtd.baseImage" in
  let link := depl_tempdir env ++ "/libvirtd-image-" ++ self_name env in
  (["nix-build"] ++ depl_eval_flags env ++
   ["--arg"; "checkConfigurationOptions"; "false";
    "-A"; target; "-o"; link])%list.

(** An octet as two hexadecimal digits. *)
Definition two_digits (n : Z) : string :=
  String (hex_digit (n / 16)) (String (hex_digit (n mod 16)) "").

(** An interface element as text, with [mm] on its second line. *)
Definition iface_text (mm n : string) : string :=
  lit "    <interface type='network'>" ++ nl ++
  mm ++ nl ++
  lit "      <source network='" ++ n ++ lit "'/>" ++ nl ++
  lit "      <model type='virtio'/>" ++ nl ++
  lit "    </interface>".

Definition mac_element (m : string) : string :=
  lit "<mac address='" ++ m ++ lit "' />".

(** An extra disk element as text. *)
Definition disk_text (path dev : string) : string :=
  lit "    <disk type='file' device='disk'>" ++ nl ++
  lit "      <driver name='qemu' type='qcow2'/>" ++ nl ++
  lit "      <source file='" ++ path ++ lit "'/>" ++ nl ++
  lit "      <target dev='" ++ dev ++ lit "'/>" ++ nl ++
  lit "    </disk>".

(** The interface elements of a descriptor for the networks [names],
    on a machine whose primary network is [pn] and whose address is
    [m]: the address goes with every network named as the primary
    network is. *)
Definition iface_texts (pn : option string) (m : string)
           (names : list string) : list string :=
  map (fun n => iface_text
                  (if opt_eqb (Some n) pn then mac_element m else "") n)
      names.

(** Occurrences of [sub] in [s]. *)
Fixpoint count_sub (s sub : string) : nat :=
  (if prefix_of sub s then 1 else 0) +
  match s with
  | "" => 0
  | String _ r => count_sub r sub
  end.

(** ** A concrete deployment, used to run the model *)

Module Sample.

Definition mac0 : string := "52:54:00:00:00:00".
Definition vm0 : string := "nixops-d1-m1".

Definition leases : string :=
  " Expiry Time          MAC address        Protocol  IP address" ++ nl ++
  "-------------------------------------------------------------" ++ nl ++
  " 2016-01-01 12:00:00  52:54:00:00:00:00  ipv4" ++
  "      192.168.122.10/24   nixos   -" ++ nl.

Definition domains (running : bool) : string :=
  " Id    Name                           State" ++ nl ++
  "----------------------------------------------------" ++ nl ++
  (if running then " 1     nixops-d1-m1                   running" ++ nl
   else "").

(** The domain runs from its [start] command to its [destroy]
    command. *)
Fixpoint running (tr : list Event) : bool :=
  match tr with
  | [] => false
  | e :: r =>
      if is_virsh "start" e then true
      else if is_virsh "destroy" e then false
      else running r
  end.

Definition env_with (writable : bool) (lease_table : string) : Env :=
  {| depl_uuid := "d1";
     depl_tempdir := "/tmp/nixops";
     depl_eval_flags := [];
     depl_nix_path_flags := [];
     self_name := "m1";
     logged_exec_out := fun _ _ => Some ("/nix/store/img" ++ nl);
     check_output_out := fun tr cmd =>
       if arg cmd 3 =? "list" then Some (domains (running tr))
       else Some lease_table;
     access_w := fun _ _ => writable;
     path_exists := fun _ _ => true;
     file_op_ok := fun _ _ => true;
     find_executable := fun _ _ => Some "/usr/bin/qemu-system-x86_64";
     random_draw := fun _ => 0%Z;
     key_pair := fun _ => ("PRIVATE", "PUBLIC") |}.

Definition env (writable : bool) : Env := env_with writable leases.

(** An environment whose [k]-th event from now on draws [draws k]. *)
Definition env_drawing (base : nat) (draws : nat -> Z) : Env :=
  {| depl_uuid := "d1";
     depl_tempdir := "/tmp/nixops";
     depl_eval_flags := [];
     depl_nix_path_flags := [];
     self_name := "m1";
     logged_exec_out := fun _ _ => None;
     check_output_out := fun _ _ => None;
     access_w := fun _ _ => false;
     path_exists := fun _ _ => false;
     file_op_ok := fun _ _ => false;
     find_executable := fun _ _ => None;
     random_draw := fun tr => draws (List.length tr - base)%nat;
     key_pair := fun _ => ("", "") |}.

Definition empty : LibvirtdState :=
  {| private_ipv4 := None; client_public_key := None;
     client_private_key := None; primary_net := None;
     primary_mac := None; domain_xml := None; disk_path := None;
     extra_disks := []; vm_id := None; state := UNKNOWN; trace := [] |}.

Definition defn (nets : list string) : LibvirtdDefinition :=
  {| vcpu := Some "2"; memory_size := Some "1024";
     extra_devices := Some ""; extra_domain := Some "";
     headless := true; image_dir := "/var/lib/libvirt/images";
     networks := map Some nets;
     disks := [(Some "data",
                {| device := Some "vdb"; size := Some "10" |})] |}.

(** The machine after a first [create]. *)
Definition created : LibvirtdState :=
  Eval vm_compute in
    snd (create (env true) 3 (defn ["default"]) false false false empty).

Definition attr (n : string) (c : list ET.Element) : ET.Element :=
  ET.Elem "attr" [("name", n)] c.
Definition value (t v : string) : ET.Element :=
  ET.Elem t [("value", v)] [].

Definition disk_entry (base : list ET.Element) : ET.Element :=
  attr "data"
    [ET.Elem "attrs" []
       ([attr "device" [value "string" "vdb"];
         attr "size" [value "int" "10"]] ++ base)].

Definition config (dsk : list ET.Element) : ET.Element :=
  ET.Elem "expr" []
    [ET.Elem "attrs" []
       [attr "libvirtd"
          [ET.Elem "attrs" []
             [attr "vcpu" [value "int" "2"];
              attr "memorySize" [value "int" "1024"];
              attr "extraDevicesXML" [value "string" ""];
              attr "extraDomainXML" [value "string" ""];
              attr "headless" [value "bool" "true"];
              attr "imageDir" [value "string" "/var/lib/libvirt/images"];
              attr "networks"
                [ET.Elem "list" [] [value "string" "default"]];
              attr "disks" [ET.Elem "attrs" [] dsk]]]]].

End Sample.

(** ** Further methods of [LibvirtdState] *)

(** Lines 282-284. *)
Definition get_ssh_name : M string :=
  o <- gets private_ipv4 ;;
  assert_truthy o.

(** Lines 83-86. The answer is a dict with one key, the path of the
    option, and the list of authorized keys as its value. *)
Definition get_physical_spec (env : Env)
  : M (list (list string * list (option string))) :=
  pub <- gets client_public_key ;;
  (if negb (truthy pub) then
     kp <- create_key_pair env ;;
     modify (set_client_keys (fst kp) (snd kp))
   else ret tt) ;;
  pub' <- gets client_public_key ;;
  ret [(["users"; "extraUsers"; "root"; "openssh"; "authorizedKeys"; "keys"],
        [pub'])].

(** ** More readings of traces and states *)

Definition lease_cmd (net : string) : list string :=
  ["virsh"; "-c"; "qemu:///system"; "net-dhcp-leases"; "--network"; net].

Definition start_cmd (v : string) : list string :=
  ["virsh"; "-c"; "qemu:///system"; "start"; v].

Definition define_cmd (file : string) : list string :=
  ["virsh"; "-c"; "qemu:///system"; "define"; file].

Definition rebase_cmd (disk : string) : list string :=
  ["qemu-img"; "rebase"; "-f"; "qcow2"; "-b"; ""; disk].

Definition disk_create_cmd (base disk : string) : list string :=
  ["qemu-img"; "create"; "-f"; "qcow2"; "-b"; base; disk].

Definition is_sleep (e : Event) : bool :=
  match e with
  | ESleep _ => true
  | _ => false
  end.

Definition is_command (e : Event) : bool :=
  match e with
  | ELoggedExec _ => true
  | _ => false
  end.

Definition is_key_generation (e : Event) : bool :=
  match e with
  | ECreateKeyPair => true
  | _ => false
  end.

(** The name of the domain, and the files of its disks and of its
    descriptor. *)
Definition domain_name (env : Env) : string :=
  "nixops-" ++ depl_uuid env ++ "-" ++ self_name env.

Definition primary_disk_file (env : Env) (defn : LibvirtdDefinition)
  : string :=
  image_dir defn ++ "/" ++ domain_name env ++ ".img".

Definition extra_disk_file (env : Env) (defn : LibvirtdDefinition)
           (disk_name : option string) : string :=
  image_dir defn ++ "/" ++ domain_name env ++ "-" ++ str disk_name ++ ".img".

Definition domain_file (env : Env) : string :=
  depl_tempdir env ++ "/" ++ self_name env ++ "-domain.xml".

(** The extra disks a definition asks for, as [_copy_extra_disks]
    records them. *)
Definition extra_disk_state (env : Env) (defn : LibvirtdDefinition)
           (item : option string * DiskDefn) : DiskState :=
  {| disk_device := device (snd item);
     imagePath := Some (extra_disk_file env defn (fst item)) |}.

Definition recorded_disks (env : Env) (defn : LibvirtdDefinition)
           (items : list (option string * DiskDefn))
           (out : list (option string * DiskState))
  : list (option string * DiskState) :=
  fold_left (fun acc item =>
               dict_set (fst item) (extra_disk_state env defn item) acc)
            items out.

(** ** Sequences of calls, and the key pair *)

(** A sequence of calls on one machine; a failed call leaves the
    machine as it got it and the next call goes on from there. *)
Inductive Call : Type :=
| CallCreate (fuel : nat) (defn : LibvirtdDefinition)
| CallPhysicalSpec.

Definition run_call (env : Env) (c : Call) (s : LibvirtdState)
  : LibvirtdState :=
  match c with
  | CallCreate fuel defn => snd (create env fuel defn false false false s)
  | CallPhysicalSpec => snd (get_physical_spec env s)
  end.

Definition run_calls (env : Env) (cs : list Call) (s : LibvirtdState)
  : LibvirtdState :=
  fold_left (fun st c => run_call env c st) cs s.

Definition no_key_generation (e : Event) : Prop :=
  is_key_generation e = false.

Definition client_keys (s : LibvirtdState) :=
  (client_public_key s, client_private_key s).

(** From [s] to [s'] a key pair was generated at most once, and not at
    all when [s] had a public key; once generated it is there. *)
Definition KeyOnce (s s' : LibvirtdState) : Prop :=
  exists evs,
    trace s' = (evs ++ trace s)%list /\
    (truthy (client_public_key s) = true ->
     client_keys s' = client_keys s /\ count is_key_generation evs = 0) /\
    (count is_key_generation evs = 0 \/
     (count is_key_generation evs = 1 /\
      truthy (client_public_key s') = true)).

Definition authorized_keys_option : list string :=
  ["users"; "extraUsers"; "root"; "openssh"; "authorizedKeys"; "keys"].

(** ** Provisioning, step by step

    What the body of [if self.vm_id is None] does to the world when it
    runs to its end, most recent event first. [base_built] is what the
    build of the base image printed, [builts] what the builds of the
    extra disk images printed, [x] the descriptor. *)
Definition extra_image_cmd (env : Env) (item : option string * DiskDefn)
  : list string :=
  let link :=
    depl_tempdir env ++ "/libvirtd-image-" ++ self_name env ++ "-"
    ++ str (fst item) in
  (["nix-build"] ++ depl_nix_path_flags env ++
   ["<nixops/generate-ext4-image.nix>";
    "--arg"; "size"; str (size (snd item));
    "--argstr"; "name"; str (fst item);
    "-o"; link])%list.

Definition extra_disk_events (env : Env) (defn : LibvirtdDefinition)
           (item_built : (option string * DiskDefn) * string) : list Event :=
  let (item, built) := item_built in
  [ELoggedExec (disk_create_cmd (rstrip built ++ "/disk.qcow2")
                  (extra_disk_file env defn (fst item)));
   ELoggedExec (extra_image_cmd env item)].

Definition extra_disks_events (env : Env) (defn : LibvirtdDefinition)
           (items : list (option string * DiskDefn)) (builts : list string)
  : list Event :=
  flat_map (extra_disk_events env defn) (rev (combine items builts)).

Definition provisioning_events (env : Env) (defn : LibvirtdDefinition)
           (base_built : string) (builts : list string) (x : string)
  : list Event :=
  ([ELoggedExec (define_cmd (domain_file env));
    EWriteFile (domain_file env) x;
    EFindExecutable "qemu-system-x86_64"]
   ++ extra_disks_events env defn (disks defn) builts
   ++ [EChmod (primary_disk_file env defn) 432;
       ELoggedExec (rebase_cmd (primary_disk_file env defn));
       ECopyFile (rstrip base_built ++ "/disk.qcow2")
                 (primary_disk_file env defn);
       EAccessW (image_dir defn);
       ELoggedExec (base_image_cmd env)])%list.

(** ** Deleting the files that are present

    The trace after each of [paths], in order, was looked for from the
    trace [tr] and unlinked when, and only when, the look found it. *)
Fixpoint delete_present (env : Env) (paths : list string)
         (tr : list Event) : list Event :=
  match paths with
  | [] => tr
  | p :: rest =>
      delete_present env rest
        (if path_exists env tr p
         then EUnlink p :: EPathExists p :: tr
         else EPathExists p :: tr)
  end.

(** ** The answers of the random source

    [random.randint(lo, hi)] answers each integer of [lo..hi] with the
    same probability, and its calls are independent: the answers that
    are equally likely for one call, and for the three calls of lines
    98-100 together. *)
Definition randint_answers (lo hi : Z) : list Z :=
  map (fun k => (lo + Z.of_nat k)%Z) (seq 0 (Z.to_nat (hi - lo + 1))).

Definition mac_draws : list (Z * Z * Z) :=
  list_prod (list_prod (randint_answers 0x00 0x7f)
                       (randint_answers 0x00 0xff))
            (randint_answers 0x00 0xff).

(** The address as text, from its last three octets. *)
Definition mac_text (d : Z * Z * Z) : string :=
  let '(o4, o5, o6) := d in
  "52:54:00:" ++ two_digits o4 ++ ":" ++ two_digits o5 ++ ":"
  ++ two_digits o6.

(** ** The descriptor as text

    Everything up to the extra text of the domain, followed by
    [tail]. *)
Definition domain_head (v mem qemu dp vc : string) (dl il : list string)
           (h : bool) (ed : string) (tail : string) : string :=
  lit "<domain type='kvm'>" ++ nl ++
  lit "  <name>" ++ v ++ lit "</name>" ++ nl ++
  lit "  <memory unit='MiB'>" ++ mem ++ lit "</memory>" ++ nl ++
  lit "  <vcpu>" ++ vc ++ lit "</vcpu>" ++ nl ++
  lit "  <cpu>" ++ nl ++
  lit "    <topology sockets='1' cores='" ++ vc ++ lit "' threads='1'/>"
  ++ nl ++
  lit "  </cpu>" ++ nl ++
  lit "  <os>" ++ nl ++
  lit "    <type arch='x86_64'>hvm</type>" ++ nl ++
  lit "  </os>" ++ nl ++
  lit "  <devices>" ++ nl ++
  lit "    <emulator>" ++ qemu ++ lit "</emulator>" ++ nl ++
  lit "    <disk type='file' device='disk'>" ++ nl ++
  lit "      <driver name='qemu' type='qcow2'/>" ++ nl ++
  lit "      <source file='" ++ dp ++ lit "'/>" ++ nl ++
  lit "      <target dev='hda'/>" ++ nl ++
  lit "    </disk>" ++ nl ++
  join nl dl ++ nl ++
  join nl il ++ nl ++
  (if h then "" else lit "    <graphics type='sdl' display=':0.0'/>") ++ nl ++
  lit "    <input type='keyboard' bus='usb'/>" ++ nl ++
  lit "    <input type='mouse' bus='usb'/>" ++ nl ++
  ed ++ nl ++
  lit "  </devices>" ++ nl ++
  tail.

Definition domain_text (v mem qemu dp vc : string) (dl il : list string)
           (h : bool) (ed xd : string) : string :=
  domain_head v mem qemu dp vc dl il h ed (xd ++ nl ++ lit "</domain>").

(** The extra disk elements of a machine, as text. *)
Definition disk_texts (l : list (option string * DiskState)) : list string :=
  map (fun kv => disk_text (str (imagePath (snd kv)))
                           (str (disk_device (snd kv)))) l.

(** ** Further deployments, used to run the model *)

Module Scenario.

(** The random source that answers [d] to the next three draws of a
    machine whose trace has [base] events. *)
Definition answering (base : nat) (d : Z * Z * Z) : Env :=
  let '(o4, o5, o6) := d in
  Sample.env_drawing base (fun k => match k with
                                    | 0 => o4
                                    | 1 => o5
                                    | _ => o6
                                    end).

(** The deployment of the sample on a host without the emulator. *)
Definition env_without_emulator : Env :=
  {| depl_uuid := "d1";
     depl_tempdir := "/tmp/nixops";
     depl_eval_flags := [];
     depl_nix_path_flags := [];
     self_name := "m1";
     logged_exec_out := fun _ _ => Some ("/nix/store/img" ++ nl);
     check_output_out := fun tr cmd =>
       if arg cmd 3 =? "list" then Some (Sample.domains (Sample.running tr))
       else Some Sample.leases;
     access_w := fun _ _ => true;
     path_exists := fun _ _ => true;
     file_op_ok := fun _ _ => true;
     find_executable := fun _ _ => None;
     random_draw := fun _ => 0%Z;
     key_pair := fun _ => ("PRIVATE", "PUBLIC") |}.

(** The machine after a first [create] on that host. *)
Definition half_created : LibvirtdState :=
  Eval vm_compute in
    snd (create env_without_emulator 3 (Sample.defn ["default"])
           false false false Sample.empty).

(** A host on which the domain of another machine runs, [m10], whose
    name starts as the name of the machine of the sample does; no
    lease is ever given. *)
Definition env_other_domain : Env :=
  {| depl_uuid := "d1";
     depl_tempdir := "/tmp/nixops";
     depl_eval_flags := [];
     depl_nix_path_flags := [];
     self_name := "m1";
     logged_exec_out := fun _ _ => Some "";
     check_output_out := fun tr cmd =>
       if arg cmd 3 =? "list"
       then Some (" 7     nixops-d1-m10                  running" ++ nl)
       else Some "";
     access_w := fun _ _ => true;
     path_exists := fun _ _ => false;
     file_op_ok := fun _ _ => true;
     find_executable := fun _ _ => None;
     random_draw := fun _ => 0%Z;
     key_pair := fun _ => ("PRIVATE", "PUBLIC") |}.

(** The deployment of the sample on a host with a file system: a disk
    file is there from the call that made it (the copy of the primary
    disk, the [qemu-img create] of an extra disk) until it is
    unlinked. *)
Fixpoint file_there (tr : list Event) (p : string) : bool :=
  match tr with
  | [] => false
  | EUnlink q :: r => if q =? p then false else file_there r p
  | ECopyFile _ q :: r => if q =? p then true else file_there r p
  | ELoggedExec cmd :: r =>
      if (arg cmd 0 =? "qemu-img") && (arg cmd 1 =? "create")
         && (arg cmd 6 =? p)
      then true else file_there r p
  | _ :: r => file_there r p
  end.

Definition env_files : Env :=
  {| depl_uuid := "d1";
     depl_tempdir := "/tmp/nixops";
     depl_eval_flags := [];
     depl_nix_path_flags := [];
     self_name := "m1";
     logged_exec_out := fun _ _ => Some ("/nix/store/img" ++ nl);
     check_output_out := fun tr cmd =>
       if arg cmd 3 =? "list" then Some (Sample.domains (Sample.running tr))
       else Some Sample.leases;
     access_w := fun _ _ => true;
     path_exists := file_there;
     file_op_ok := fun _ _ => true;
     find_executable := fun _ _ => Some "/usr/bin/qemu-system-x86_64";
     random_draw := fun _ => 0%Z;
     key_pair := fun _ => ("PRIVATE", "PUBLIC") |}.

(** The empty machine after lines 105-111 of [create]. *)
Definition identified : LibvirtdState :=
  Eval vm_compute in
    snd (create_identity (Sample.env true) (Sample.defn ["default"])
           Sample.empty).

(** The created machine of the sample after [stop]. *)
Definition stopped : LibvirtdState :=
  Eval vm_compute in snd (stop (Sample.env true) Sample.created).

(** The created machine of the sample after [destroy] on the host with
    a file system. *)
Definition destroyed : LibvirtdState :=
  Eval vm_compute in snd (destroy env_files false Sample.created).

End Scenario.

(** * Properties *)

(** ** Lists, strings and outcomes *)

Lemma opt_eqb_spec (a b : option string) : opt_eqb a b = true <-> a = b.
Proof.
  destruct a as [x|], b as [y|]; simpl; split; intro H;
    try discriminate; try reflexivity.
  - apply String.eqb_eq in H. now subst.
  - injection H as ->. apply String.eqb_refl.
Qed.

Lemma index_sound (x : option string) (l : list string) (i : nat) :
  index x l = Some i ->
  exists y, x = Some y /\ nth_error l i = Some y /\
            forall j, j < i -> nth_error l j <> Some y.
Proof.
  revert i. induction l as [|a l IH]; simpl; intros i H; [discriminate|].
  destruct (opt_eqb x (Some a)) eqn:E.
  - injection H as <-. apply opt_eqb_spec in E. exists a.
    repeat split; auto. intros j Hj. lia.
  - destruct (index x l) as [k|] eqn:K; simpl in H; [|discriminate].
    injection H as <-. destruct (IH k eq_refl) as (y & -> & Hn & Hlt).
    exists y. repeat split; auto.
    intros [|j] Hj; simpl.
    + intros [= ->]. simpl in E. now rewrite String.eqb_refl in E.
    + apply Hlt. lia.
Qed.

Lemma index_first (y : string) (l : list string) (i : nat) :
  nth_error l i = Some y ->
  (forall j, j < i -> nth_error l j <> Some y) ->
  index (Some y) l = Some i.
Proof.
  revert i. induction l as [|a l IH]; intros [|i] Hn Hlt; simpl in *;
    try discriminate.
  - injection Hn as ->. now rewrite String.eqb_refl.
  - destruct (String.eqb_spec y a) as [->|_].
    + exfalso. apply (Hlt 0); [lia|reflexivity].
    + rewrite (IH i Hn); [reflexivity|].
      intros j Hj. apply (Hlt (S j)). lia.
Qed.

Lemma index_absent (x : option string) (l : list string) :
  index x l = None <-> forall y, x = Some y -> ~ In y l.
Proof.
  induction l as [|a l IH]; simpl.
  - split; auto.
  - destruct (opt_eqb x (Some a)) eqn:E.
    + apply opt_eqb_spec in E. split; [discriminate|].
      intros H. exfalso. apply (H a E). now left.
    + destruct (index x l) as [k|]; simpl.
      * split; [discriminate|]. intros H.
        destruct IH as [_ IH]. discriminate IH.
        intros y Hy Hin. apply (H y Hy). now right.
      * split; [|reflexivity]. intros _ y Hy [->|Hin].
        -- subst x. simpl in E. now rewrite String.eqb_refl in E.
        -- destruct IH as [IH _]. now apply (IH eq_refl y Hy).
Qed.

Lemma split_on_slash (s : string) :
  exists ip rest, split_on "/" s = ip :: rest /\ stripped s ip.
Proof.
  induction s as [|c s (ip & rest & E & Hn & Hs)]; simpl.
  - exists "", []. repeat split. now left.
  - destruct (Ascii.eqb_spec c "/"%char) as [->|Hc].
    + exists "", (split_on "/" s). repeat split. right. now exists s.
    + rewrite E. exists (String c ip), rest. repeat split.
      * simpl. rewrite Hn.
        destruct (Ascii.eqb_spec c "/"%char); [contradiction|reflexivity].
      * destruct Hs as [->|(r & ->)]; [now left|right; now exists r].
Qed.

Lemma nth_error_past {A} (l : list A) (i : nat) :
  nth_error l i = None <-> List.length l <= i.
Proof. apply nth_error_None. Qed.

(** What [parse_leases] answers, by what [index] found. *)
Lemma parse_leases_found (mac : option string) (lines token : string)
      (i : nat) :
  index mac (split lines) = Some i ->
  nth_error (split lines) (i + 2) = Some token ->
  exists ip, parse_leases mac lines = Ok (Some ip) /\ stripped token ip.
Proof.
  intros Hi Ht. unfold parse_leases, getitem. rewrite Hi, Ht. simpl.
  destruct (split_on_slash token) as (ip & rest & E & Hs).
  rewrite E. simpl. now exists ip.
Qed.

Lemma parse_leases_index_error (mac : option string) (lines : string) :
  parse_leases mac lines = Raise IndexError <->
  exists i, index mac (split lines) = Some i /\
            List.length (split lines) <= i + 2.
Proof.
  unfold parse_leases, getitem.
  destruct (index mac (split lines)) as [i|] eqn:Hi.
  - destruct (nth_error (split lines) (i + 2)) as [token|] eqn:Ht; simpl.
    + destruct (split_on_slash token) as (ip & rest & E & _).
      rewrite E. simpl. split; [discriminate|].
      intros (k & [= <-] & Hk). apply nth_error_past in Hk. congruence.
    + split; [|reflexivity]. intros _. exists i. split; [reflexivity|].
      now apply nth_error_past.
  - split; [discriminate|]. intros (k & Hk & _). discriminate.
Qed.

(** [_parse_ip] once the lease command has answered. *)
Lemma parse_ip_run (env : Env) (s : LibvirtdState) (net lines : string) :
  primary_net s = Some net ->
  check_output_out env (trace s)
    ["virsh"; "-c"; "qemu:///system"; "net-dhcp-leases"; "--network"; net]
    = Some lines ->
  fst (_parse_ip env s) = parse_leases (primary_mac s) lines.
Proof.
  intros Hn Hc. unfold _parse_ip, bind, gets, lift, check_output.
  rewrite Hn. simpl. rewrite Hc. reflexivity.
Qed.

(** C9. Given the output of the lease command, [_parse_ip] answers the
    token two places after the first token equal to the MAC address,
    cut at its first slash; when no token equals the MAC address it
    answers [None] and raises nothing. *)
Theorem parse_ip_finds_address (env : Env) (s : LibvirtdState)
        (net mac lines : string) :
  primary_net s = Some net ->
  primary_mac s = Some mac ->
  check_output_out env (trace s)
    ["virsh"; "-c"; "qemu:///system"; "net-dhcp-leases"; "--network"; net]
    = Some lines ->
  (forall i token,
      nth_error (split lines) i = Some mac ->
      (forall j, j < i -> nth_error (split lines) j <> Some mac) ->
      nth_error (split lines) (i + 2) = Some token ->
      exists ip, fst (_parse_ip env s) = Ok (Some ip) /\ stripped token ip)
  /\ (~ In mac (split lines) -> fst (_parse_ip env s) = Ok None).
Proof.
  intros Hn Hm Hc. rewrite (parse_ip_run env s net lines Hn Hc), Hm.
  split.
  - intros i token Hi Hfirst Ht.
    apply (parse_leases_found (Some mac) lines token i); auto.
    now apply index_first.
  - intros Hnot. unfold parse_leases.
    destruct (index_absent (Some mac) (split lines)) as [_ H].
    rewrite H; [reflexivity|]. now intros y [= <-].
Qed.

(** The lease table of the sample holds the address of the machine; a
    table without its MAC address gives [None]. *)
Lemma parse_ip_finds_address_witness :
  (exists ip, fst (_parse_ip (Sample.env true) Sample.created)
                = Ok (Some ip)
              /\ stripped "192.168.122.10/24" ip)
  /\ fst (_parse_ip (Sample.env_with true "no leases") Sample.created)
    = Ok None.
Proof.
  split.
  - destruct (parse_ip_finds_address (Sample.env true) Sample.created
                "default" Sample.mac0 Sample.leases
                eq_refl eq_refl eq_refl) as [H _].
    apply (H 10); [reflexivity| |reflexivity].
    intros j Hj.
    do 10 (destruct j as [|j]; [vm_compute; discriminate|]). lia.
  - destruct (parse_ip_finds_address (Sample.env_with true "no leases")
                Sample.created "default" Sample.mac0 "no leases"
                eq_refl eq_refl eq_refl) as [_ H].
    apply H. vm_compute. intuition discriminate.
Defined.

(** C10, as amended. Given the output of the lease command, [_parse_ip]
    raises IndexError exactly when the first token equal to the MAC
    address is the last or the last but one; in particular it raises
    nothing when that first token has two tokens after it, wherever
    else the MAC address occurs. *)
Theorem parse_ip_index_error (env : Env) (s : LibvirtdState)
        (net lines : string) :
  primary_net s = Some net ->
  check_output_out env (trace s)
    ["virsh"; "-c"; "qemu:///system"; "net-dhcp-leases"; "--network"; net]
    = Some lines ->
  (fst (_parse_ip env s) = Raise IndexError <->
   exists mac i,
     primary_mac s = Some mac /\
     nth_error (split lines) i = Some mac /\
     (forall j, j < i -> nth_error (split lines) j <> Some mac) /\
     List.length (split lines) <= i + 2).
Proof.
  intros Hn Hc. rewrite (parse_ip_run env s net lines Hn Hc).
  rewrite parse_leases_index_error. split.
  - intros (i & Hi & Hlen).
    destruct (index_sound _ _ _ Hi) as (mac & Hm & Hnth & Hfirst).
    now exists mac, i.
  - intros (mac & i & Hm & Hnth & Hfirst & Hlen). exists i.
    rewrite Hm. split; [now apply index_first|assumption].
Qed.

(** A lease output that ends with the MAC address and has nothing
    after it: the lookup two places on fails. *)
Lemma parse_ip_index_error_witness :
  fst (_parse_ip
         (Sample.env_with true "2016-01-01 12:00:00 52:54:00:00:00:00")
         Sample.created)
  = Raise IndexError.
Proof.
  apply (parse_ip_index_error
           (Sample.env_with true "2016-01-01 12:00:00 52:54:00:00:00:00")
           Sample.created "default"
           "2016-01-01 12:00:00 52:54:00:00:00:00" eq_refl eq_refl).
  exists Sample.mac0, 2. repeat split.
  - intros j Hj.
    do 2 (destruct j as [|j]; [vm_compute; discriminate|]). lia.
  - vm_compute. lia.
Defined.

(** C10 as stated fails: here the MAC address is the last token of the
    lease output, it also occurs three tokens earlier, and [_parse_ip]
    answers an address instead of raising. *)
Lemma parse_ip_last_token_no_error :
  let lines :=
    "52:54:00:00:00:00 ipv4 192.168.122.10/24 52:54:00:00:00:00" in
  last (split lines) "" = Sample.mac0 /\
  fst (_parse_ip (Sample.env_with true lines) Sample.created)
  = Ok (Some "192.168.122.10").
Proof. vm_compute. split; reflexivity. Qed.

(** ** The primary MAC address *)

Lemma percent_02x_byte (n : Z) :
  (0 <= n < 256)%Z -> percent_02x n = two_digits n.
Proof.
  intros Hn.
  assert (H : forallb (fun k => percent_02x (Z.of_nat k)
                                =? two_digits (Z.of_nat k))
                      (seq 0 256) = true) by (vm_compute; reflexivity).
  rewrite forallb_forall in H.
  specialize (H (Z.to_nat n)).
  rewrite Z2Nat.id in H by lia.
  apply String.eqb_eq, H, in_seq. lia.
Qed.

Lemma randint_between (env : Env) (lo hi : Z) (s : LibvirtdState) :
  (lo <= hi)%Z ->
  exists v, randint env lo hi s = (Ok v, record (ERandInt lo hi) s) /\
            (lo <= v <= hi)%Z.
Proof.
  intros H. unfold randint. eexists. split; [reflexivity|].
  pose proof (Z.mod_pos_bound (random_draw env (trace s)) (hi - lo + 1)).
  lia.
Qed.

Lemma mac_string_octets (o4 o5 o6 : Z) :
  mac_string [0x52; 0x54; 0x00; o4; o5; o6]%Z
  = "52:54:00:" ++ percent_02x o4 ++ ":" ++ percent_02x o5 ++ ":"
    ++ percent_02x o6.
Proof. reflexivity. Qed.

Lemma generate_primary_mac_run (env : Env) (s : LibvirtdState) :
  exists o4 o5 o6,
    _generate_primary_mac env s
    = (Ok tt,
       set_primary_mac
         (Some (mac_string [0x52; 0x54; 0x00; o4; o5; o6]%Z))
         (record (ERandInt 0x00 0xff)
            (record (ERandInt 0x00 0xff)
               (record (ERandInt 0x00 0x7f) s)))) /\
    (0x00 <= o4 <= 0x7f)%Z /\ (0x00 <= o5 <= 0xff)%Z /\
    (0x00 <= o6 <= 0xff)%Z.
Proof.
  unfold _generate_primary_mac, bind.
  destruct (randint_between env 0x00 0x7f s) as (o4 & E4 & H4); [lia|].
  rewrite E4.
  destruct (randint_between env 0x00 0xff (record (ERandInt 0x00 0x7f) s))
    as (o5 & E5 & H5); [lia|].
  rewrite E5.
  destruct (randint_between env 0x00 0xff
              (record (ERandInt 0x00 0xff) (record (ERandInt 0x00 0x7f) s)))
    as (o6 & E6 & H6); [lia|].
  rewrite E6. now exists o4, o5, o6.
Qed.

Lemma generated_mac_form (env : Env) (s : LibvirtdState) :
  exists o4 o5 o6,
    primary_mac (snd (_generate_primary_mac env s))
    = Some ("52:54:00:" ++ two_digits o4 ++ ":" ++ two_digits o5 ++ ":"
            ++ two_digits o6) /\
    (0x00 <= o4 <= 0x7f)%Z /\ (0x00 <= o5 <= 0xff)%Z /\
    (0x00 <= o6 <= 0xff)%Z.
Proof.
  destruct (generate_primary_mac_run env s)
    as (o4 & o5 & o6 & E & H4 & H5 & H6).
  exists o4, o5, o6. rewrite E. simpl. rewrite mac_string_octets.
  rewrite !percent_02x_byte by lia. auto.
Qed.

Lemma two_digits_inj (a b : Z) :
  (0 <= a < 256)%Z -> (0 <= b < 256)%Z ->
  two_digits a = two_digits b -> a = b.
Proof.
  intros Ha Hb E.
  assert (H : forallb (fun i =>
                forallb (fun j =>
                  implb (two_digits (Z.of_nat i) =? two_digits (Z.of_nat j))
                        (i =? j)%nat)
                  (seq 0 256))
                (seq 0 256) = true) by (vm_compute; reflexivity).
  rewrite forallb_forall in H.
  specialize (H (Z.to_nat a)). rewrite forallb_forall in H.
  assert (Ia : In (Z.to_nat a) (seq 0 256)) by (apply in_seq; lia).
  assert (Ib : In (Z.to_nat b) (seq 0 256)) by (apply in_seq; lia).
  specialize (H Ia (Z.to_nat b) Ib).
  rewrite !Z2Nat.id in H by lia. rewrite E, String.eqb_refl in H.
  cbn [implb] in H. apply Nat.eqb_eq in H. lia.
Qed.

Lemma in_randint_answers (lo hi x : Z) :
  In x (randint_answers lo hi) <-> (lo <= x <= hi)%Z.
Proof.
  unfold randint_answers. rewrite in_map_iff. split.
  - intros (k & <- & Hk). apply in_seq in Hk. lia.
  - intros H. exists (Z.to_nat (x - lo)). split; [lia|].
    apply in_seq. lia.
Qed.

Lemma randint_answers_NoDup (lo hi : Z) : NoDup (randint_answers lo hi).
Proof.
  unfold randint_answers.
  apply NoDup_map_NoDup_ForallPairs; [|apply seq_NoDup].
  intros x y _ _ H. lia.
Qed.

Lemma NoDup_list_prod {A B} (l : list A) (l' : list B) :
  NoDup l -> NoDup l' -> NoDup (list_prod l l').
Proof.
  intros Hl Hl'. induction Hl as [|a l Ha Hl IH]; [constructor|].
  cbn [list_prod]. apply NoDup_app.
  - apply NoDup_map_NoDup_ForallPairs; [|exact Hl'].
    now intros x y _ _ [= ->].
  - exact IH.
  - intros [x y] H1 H2. apply in_map_iff in H1.
    destruct H1 as (y' & [= <- <-] & _).
    apply in_prod_iff in H2. now destruct H2.
Qed.

Lemma in_mac_draws (o4 o5 o6 : Z) :
  In (o4, o5, o6) mac_draws <->
  (0x00 <= o4 <= 0x7f)%Z /\ (0x00 <= o5 <= 0xff)%Z /\ (0x00 <= o6 <= 0xff)%Z.
Proof.
  unfold mac_draws. rewrite !in_prod_iff, !in_randint_answers. tauto.
Qed.

Lemma mac_draws_NoDup : NoDup mac_draws.
Proof.
  unfold mac_draws.
  repeat apply NoDup_list_prod; apply randint_answers_NoDup.
Qed.

Lemma mac_draws_length : List.length mac_draws = 128 * 256 * 256.
Proof.
  unfold mac_draws, randint_answers.
  rewrite !length_prod, !length_map, !length_seq. reflexivity.
Qed.

Lemma mac_text_inj (d d' : Z * Z * Z) :
  In d mac_draws -> In d' mac_draws -> mac_text d = mac_text d' -> d = d'.
Proof.
  destruct d as [[a b] c], d' as [[a' b'] c'].
  rewrite !in_mac_draws. intros (Ha & Hb & Hc) (Ha' & Hb' & Hc') E.
  unfold mac_text, two_digits in E. cbn [append] in E.
  injection E as E1 E2 E3 E4 E5 E6.
  assert (a = a').
  { apply two_digits_inj; [lia|lia|]. unfold two_digits. now rewrite E1, E2. }
  assert (b = b').
  { apply two_digits_inj; [lia|lia|]. unfold two_digits. now rewrite E3, E4. }
  assert (c = c').
  { apply two_digits_inj; [lia|lia|]. unfold two_digits. now rewrite E5, E6. }
  congruence.
Qed.

(** Each of the last three octets is what its own call of [randint]
    answered. *)
Lemma generate_primary_mac_answers (env : Env) (s : LibvirtdState) :
  let s1 := record (ERandInt 0x00 0x7f) s in
  let s2 := record (ERandInt 0x00 0xff) s1 in
  let s3 := record (ERandInt 0x00 0xff) s2 in
  exists o4 o5 o6,
    fst (randint env 0x00 0x7f s) = Ok o4 /\
    fst (randint env 0x00 0xff s1) = Ok o5 /\
    fst (randint env 0x00 0xff s2) = Ok o6 /\
    In (o4, o5, o6) mac_draws /\
    _generate_primary_mac env s
    = (Ok tt, set_primary_mac (Some (mac_text (o4, o5, o6))) s3).
Proof.
  intros s1 s2 s3.
  destruct (randint_between env 0x00 0x7f s) as (o4 & E4 & H4); [lia|].
  destruct (randint_between env 0x00 0xff s1) as (o5 & E5 & H5); [lia|].
  destruct (randint_between env 0x00 0xff s2) as (o6 & E6 & H6); [lia|].
  exists o4, o5, o6. rewrite E4, E5, E6.
  repeat (split; [reflexivity|]).
  split; [now apply in_mac_draws|].
  unfold _generate_primary_mac, bind. rewrite E4.
  fold s1. rewrite E5. fold s2. rewrite E6. fold s3.
  unfold modify, mac_text. rewrite mac_string_octets.
  now rewrite !percent_02x_byte by lia.
Qed.

(** The random source that answers the triple [d]. *)
Lemma generate_primary_mac_answering (s : LibvirtdState) (d : Z * Z * Z) :
  In d mac_draws ->
  primary_mac
    (snd (_generate_primary_mac
            (Scenario.answering (List.length (trace s)) d) s))
  = Some (mac_text d).
Proof.
  destruct d as [[o4 o5] o6]. rewrite in_mac_draws. intros (H4 & H5 & H6).
  assert (E0 : List.length (trace s) - List.length (trace s) = 0) by lia.
  assert (E1 : S (List.length (trace s)) - List.length (trace s) = 1)
    by lia.
  assert (E2 : S (S (List.length (trace s))) - List.length (trace s) = 2)
    by lia.
  unfold _generate_primary_mac, bind, randint, modify, Scenario.answering.
  cbn [snd primary_mac set_primary_mac record trace random_draw
       Sample.env_drawing List.length].
  rewrite E0, E1, E2, mac_string_octets.
  rewrite !Z.mod_small by lia. simpl Z.add.
  rewrite !percent_02x_byte by lia. reflexivity.
Qed.

(** C4, as amended. Every generated address is [52:54:00] followed by
    three octets written as two hexadecimal digits each, the fourth
    octet in [0x00..0x7f] and the fifth and sixth in [0x00..0xff], and
    every address of that form is generated by some random source.
    The three octets are drawn independently and uniformly at random
    over these ranges: [_generate_primary_mac] calls [randint] three
    times, with the bounds of the three ranges, and each octet is what
    its own call answered; addresses that differ in the answers
    differ; so the [128 * 256 * 256] equally likely triples of answers
    give as many addresses, no two of them the same. *)
Theorem generated_mac_octets (s : LibvirtdState) :
  (forall env, exists o4 o5 o6,
      primary_mac (snd (_generate_primary_mac env s))
      = Some ("52:54:00:" ++ two_digits o4 ++ ":" ++ two_digits o5 ++ ":"
              ++ two_digits o6) /\
      (0x00 <= o4 <= 0x7f)%Z /\ (0x00 <= o5 <= 0xff)%Z /\
      (0x00 <= o6 <= 0xff)%Z) /\
  (forall o4 o5 o6,
      (0x00 <= o4 <= 0x7f)%Z -> (0x00 <= o5 <= 0xff)%Z ->
      (0x00 <= o6 <= 0xff)%Z ->
      exists env,
        primary_mac (snd (_generate_primary_mac env s))
        = Some ("52:54:00:" ++ two_digits o4 ++ ":" ++ two_digits o5 ++ ":"
                ++ two_digits o6)) /\
  (forall env,
      let s1 := record (ERandInt 0x00 0x7f) s in
      let s2 := record (ERandInt 0x00 0xff) s1 in
      let s3 := record (ERandInt 0x00 0xff) s2 in
      exists o4 o5 o6,
        fst (randint env 0x00 0x7f s) = Ok o4 /\
        fst (randint env 0x00 0xff s1) = Ok o5 /\
        fst (randint env 0x00 0xff s2) = Ok o6 /\
        In (o4, o5, o6) mac_draws /\
        _generate_primary_mac env s
        = (Ok tt, set_primary_mac (Some (mac_text (o4, o5, o6))) s3)) /\
  (forall d d', In d mac_draws -> In d' mac_draws ->
                mac_text d = mac_text d' -> d = d') /\
  (forall o4 o5 o6,
      In (o4, o5, o6) mac_draws <->
      (0x00 <= o4 <= 0x7f)%Z /\ (0x00 <= o5 <= 0xff)%Z /\
      (0x00 <= o6 <= 0xff)%Z) /\
  List.length mac_draws = 128 * 256 * 256 /\
  NoDup mac_draws /\
  (forall d, In d mac_draws ->
     primary_mac
       (snd (_generate_primary_mac
               (Scenario.answering (List.length (trace s)) d) s))
     = Some (mac_text d)) /\
  NoDup (map (fun d =>
                primary_mac
                  (snd (_generate_primary_mac
                          (Scenario.answering (List.length (trace s)) d) s)))
             mac_draws).
Proof.
  split; [intros env; apply generated_mac_form|].
  split.
  { intros o4 o5 o6 H4 H5 H6.
    exists (Scenario.answering (List.length (trace s)) (o4, o5, o6)).
    rewrite generate_primary_mac_answering; [reflexivity|].
    now apply in_mac_draws. }
  split; [intros env; apply generate_primary_mac_answers|].
  split; [exact mac_text_inj|].
  split; [exact in_mac_draws|].
  split; [exact mac_draws_length|].
  split; [exact mac_draws_NoDup|].
  split; [intros d; apply generate_primary_mac_answering|].
  apply NoDup_map_NoDup_ForallPairs; [|exact mac_draws_NoDup].
  intros d d' Hd Hd'.
  rewrite !generate_primary_mac_answering by assumption.
  intros [= E]. now apply mac_text_inj.
Qed.

(** The address [52:54:00:7f:ff:00] is one a random source yields. *)
Lemma generated_mac_octets_witness :
  exists env,
    primary_mac (snd (_generate_primary_mac env Sample.empty))
    = Some "52:54:00:7f:ff:00".
Proof.
  destruct (generated_mac_octets Sample.empty) as (_ & H & _).
  apply (H 0x7f 0xff 0x00)%Z; lia.
Defined.

(** C4 as stated fails on the fourth octet: no random source yields an
    address whose fourth octet is [0x80]. *)
Lemma fourth_octet_never_0x80 :
  ~ exists env,
      primary_mac (snd (_generate_primary_mac env Sample.empty))
      = Some "52:54:00:80:00:00".
Proof.
  intros (env & H).
  destruct (generated_mac_form env Sample.empty)
    as (o4 & o5 & o6 & E & H4 & _).
  rewrite E in H. injection H as H _.
  assert (D : (0 <= o4 / 16 <= 7)%Z).
  { split; [apply Z.div_pos; lia|].
    apply Z.lt_succ_r, Z.div_lt_upper_bound; lia. }
  assert (C : (o4 / 16 = 0 \/ o4 / 16 = 1 \/ o4 / 16 = 2 \/ o4 / 16 = 3 \/
               o4 / 16 = 4 \/ o4 / 16 = 5 \/ o4 / 16 = 6 \/ o4 / 16 = 7)%Z)
    by lia.
  destruct C as [C|[C|[C|[C|[C|[C|[C|C]]]]]]]; rewrite C in H;
    discriminate H.
Qed.

(** ** The definition parser *)

Lemma find_value_outcome (p : list ET.step) (e : ET.Element) :
  (exists v, find_value p e = Ok v) \/ find_value p e = Raise AttributeError.
Proof.
  unfold find_value. destruct (ET.find p e); [left; eauto|now right].
Qed.

(** Whatever else a disk entry holds, a [baseImage] in it makes
    [parse_disk] raise AttributeError: either a required field is
    missing, or line 50 is reached. *)
Lemma parse_disk_baseImage_raises (k b : ET.Element) :
  ET.find [ET.child "attrs"; ET.named "attr" "baseImage";
           ET.child "string"] k = Some b ->
  parse_disk k = Raise AttributeError.
Proof.
  intros Hb. unfold parse_disk.
  destruct (find_value_outcome
              [ET.child "attrs"; ET.named "attr" "device";
               ET.child "string"] k) as [(d & ->)| ->]; [|reflexivity].
  simpl.
  destruct (find_value_outcome
              [ET.child "attrs"; ET.named "attr" "size"; ET.child "int"] k)
    as [(sz & ->)| ->]; [|reflexivity].
  simpl. now rewrite Hb.
Qed.

(** Without [baseImage], a disk entry with a device and a size is
    parsed. *)
Lemma parse_disk_plain (k d sz : ET.Element) :
  ET.find [ET.child "attrs"; ET.named "attr" "device";
           ET.child "string"] k = Some d ->
  ET.find [ET.child "attrs"; ET.named "attr" "size"; ET.child "int"] k
  = Some sz ->
  ET.find [ET.child "attrs"; ET.named "attr" "baseImage";
           ET.child "string"] k = None ->
  parse_disk k = Ok {| device := ET.get d "value";
                       size := ET.get sz "value" |}.
Proof.
  intros Hd Hs Hb. unfold parse_disk, find_value.
  rewrite Hd. simpl. rewrite Hs. simpl. now rewrite Hb.
Qed.

(** C6. The code at the failing input: a configuration whose only disk
    entry holds a device, a size and a [baseImage] is not parsed, the
    initialiser raises AttributeError; the same configuration without
    the [baseImage] is parsed. *)
Theorem definition_with_baseImage_raises :
  LibvirtdDefinition_init
    (Sample.config
       [Sample.disk_entry
          [Sample.attr "baseImage"
             [Sample.value "string" "/nix/store/base"]]])
  = Raise AttributeError
  /\ LibvirtdDefinition_init (Sample.config [Sample.disk_entry []])
     = Ok (Sample.defn ["default"]).
Proof. split; vm_compute; reflexivity. Qed.

(** ** Frames *)

Lemma events_since_app (s s' : LibvirtdState) (evs : list Event) :
  trace s' = (evs ++ trace s)%list -> events_since s s' = evs.
Proof.
  intros E. unfold events_since. rewrite E, length_app.
  replace (List.length evs + List.length (trace s) - List.length (trace s))
    with (List.length evs + 0) by lia.
  now rewrite firstn_app_2, firstn_O, app_nil_r.
Qed.

Lemma count_app (f : Event -> bool) (a b : list Event) :
  count f (a ++ b)%list = count f a + count f b.
Proof. unfold count. now rewrite filter_app, length_app. Qed.

Lemma count_none (f : Event -> bool) (l : list Event) :
  Forall (fun e => f e = false) l -> count f l = 0.
Proof.
  unfold count. induction 1 as [|e l He _ IH]; simpl; [reflexivity|].
  now rewrite He.
Qed.

Lemma filter_none (f : Event -> bool) (l : list Event) :
  Forall (fun e => f e = false) l -> filter f l = [].
Proof.
  induction 1 as [|e l He _ IH]; simpl; [reflexivity|]. now rewrite He.
Qed.

Lemma bind_run {A B} (m : M A) (k : A -> M B) (s : LibvirtdState) :
  bind m k s = match m s with
               | (Ok a, s') => k a s'
               | (Raise e, s') => (Raise e, s')
               | (Timeout, s') => (Timeout, s')
               end.
Proof. reflexivity. Qed.

Lemma bind_ok {A B} (m : M A) (k : A -> M B) (s s' : LibvirtdState)
      (b : B) :
  bind m k s = (Ok b, s') ->
  exists a s1, m s = (Ok a, s1) /\ k a s1 = (Ok b, s').
Proof.
  unfold bind. destruct (m s) as [[a|e|] s1]; try discriminate. eauto.
Qed.

Section Frames.

Context {T : Type} (proj : LibvirtdState -> T) (P : Event -> Prop).
Hypothesis proj_record : forall e s, proj (record e s) = proj s.
Variable env : Env.

Lemma frame_refl (s : LibvirtdState) : Frame proj P s s.
Proof. split; [reflexivity|]. now exists []. Qed.

Lemma frame_trans (s1 s2 s3 : LibvirtdState) :
  Frame proj P s1 s2 -> Frame proj P s2 s3 -> Frame proj P s1 s3.
Proof.
  intros [E1 (l1 & T1 & F1)] [E2 (l2 & T2 & F2)]. split; [congruence|].
  exists (l2 ++ l1)%list. split.
  - now rewrite T2, T1, app_assoc.
  - now apply Forall_app.
Qed.

Lemma frame_record (e : Event) (s : LibvirtdState) :
  P e -> Frame proj P s (record e s).
Proof.
  intros He. split; [apply proj_record|]. exists [e]. split; auto.
Qed.

Lemma keeps_ret {A} (a : A) : Keeps proj P (ret a).
Proof. intros s. apply frame_refl. Qed.

Lemma keeps_raise {A} (e : exn) : Keeps proj P (@raise A e).
Proof. intros s. apply frame_refl. Qed.

Lemma keeps_timeout {A} : Keeps proj P (@timeout A).
Proof. intros s. apply frame_refl. Qed.

Lemma keeps_lift {A} (r : Res A) : Keeps proj P (lift r).
Proof. intros s. apply frame_refl. Qed.

Lemma keeps_gets {A} (f : LibvirtdState -> A) : Keeps proj P (gets f).
Proof. intros s. apply frame_refl. Qed.

Lemma keeps_modify (f : LibvirtdState -> LibvirtdState) :
  (forall s, proj (f s) = proj s) ->
  (forall s, trace (f s) = trace s) ->
  Keeps proj P (modify f).
Proof.
  intros Hp Ht s. split; [apply Hp|]. exists []. split; [apply Ht|auto].
Qed.

Lemma keeps_bind {A B} (m : M A) (k : A -> M B) :
  Keeps proj P m -> (forall a, Keeps proj P (k a)) ->
  Keeps proj P (bind m k).
Proof.
  intros Hm Hk s. rewrite bind_run. specialize (Hm s).
  destruct (m s) as [[a|e|] s1]; simpl in *; auto.
  eapply frame_trans; [exact Hm|apply Hk].
Qed.

Lemma keeps_logged_exec (cmd : list string) :
  P (ELoggedExec cmd) -> Keeps proj P (_logged_exec env cmd).
Proof.
  intros He s. unfold _logged_exec.
  destruct (logged_exec_out env (trace s) cmd); now apply frame_record.
Qed.

Lemma keeps_check_output (cmd : list string) :
  P (ECheckOutput cmd) -> Keeps proj P (check_output env cmd).
Proof.
  intros He s. unfold check_output.
  destruct (check_output_out env (trace s) cmd); now apply frame_record.
Qed.

Lemma keeps_file_op (e : Event) (err : exn) :
  P e -> Keeps proj P (file_op env e err).
Proof.
  intros He s. unfold file_op.
  destruct (file_op_ok env (trace s) e); now apply frame_record.
Qed.

Lemma keeps_os_access_w (path : string) :
  P (EAccessW path) -> Keeps proj P (os_access_w env path).
Proof. intros He s. now apply frame_record. Qed.

Lemma keeps_os_path_exists (path : string) :
  P (EPathExists path) -> Keeps proj P (os_path_exists env path).
Proof. intros He s. now apply frame_record. Qed.

Lemma keeps_find_executable (exe : string) :
  P (EFindExecutable exe) -> Keeps proj P (spawn_find_executable env exe).
Proof. intros He s. now apply frame_record. Qed.

Lemma keeps_randint (lo hi : Z) :
  P (ERandInt lo hi) -> Keeps proj P (randint env lo hi).
Proof. intros He s. now apply frame_record. Qed.

Lemma keeps_create_key_pair :
  P ECreateKeyPair -> Keeps proj P (create_key_pair env).
Proof. intros He s. now apply frame_record. Qed.

Lemma keeps_sleep (secs : Z) :
  P (ESleep secs) -> Keeps proj P (sleep secs).
Proof. intros He s. now apply frame_record. Qed.

End Frames.

Lemma frame_weaken {T U} (proj : LibvirtdState -> T)
      (proj' : LibvirtdState -> U) (P Q : Event -> Prop)
      (s s' : LibvirtdState) :
  (proj s' = proj s -> proj' s' = proj' s) ->
  (forall e, P e -> Q e) ->
  Frame proj P s s' -> Frame proj' Q s s'.
Proof.
  intros Hp Hq [E (evs & Tr & F)]. split; [auto|].
  exists evs. split; [assumption|].
  eapply Forall_impl; [exact Hq|exact F].
Qed.

(** One step of a frame proof: split a sequence, settle a leaf, or
    branch on what the code branches on. *)
Ltac keeps_leaf :=
  first
    [ apply keeps_ret | apply keeps_raise | apply keeps_timeout
    | apply keeps_lift | apply keeps_gets
    | apply keeps_modify; intros; reflexivity
    | apply keeps_logged_exec; [reflexivity|repeat split]
    | apply keeps_check_output; [reflexivity|repeat split]
    | apply keeps_file_op; [reflexivity|repeat split]
    | apply keeps_os_access_w; [reflexivity|repeat split]
    | apply keeps_os_path_exists; [reflexivity|repeat split]
    | apply keeps_find_executable; [reflexivity|repeat split]
    | apply keeps_randint; [reflexivity|repeat split]
    | apply keeps_create_key_pair; [reflexivity|repeat split]
    | apply keeps_sleep; [reflexivity|repeat split] ].

Ltac keeps_step :=
  first
    [ apply keeps_bind; [|intros ?]
    | keeps_leaf
    | match goal with
      | |- Keeps _ _ (match ?x with _ => _ end) => destruct x
      end
    | progress cbv beta zeta ].

Ltac keeps := repeat keeps_step.

(** ** Frames of the methods *)

Lemma keeps_bind_lift {T} (proj : LibvirtdState -> T) (P : Event -> Prop)
      {A B} (r : Res A) (k : A -> M B) :
  (forall a, r = Ok a -> Keeps proj P (k a)) ->
  Keeps proj P (bind (lift r) k).
Proof.
  intros H s. unfold bind, lift.
  destruct r as [a|e|]; simpl.
  - now apply H.
  - split; [reflexivity|]. now exists [].
  - split; [reflexivity|]. now exists [].
Qed.

Lemma argv_head (a : string) (l : list (option string)) (cmd : list string) :
  argv (Some a :: l) = Ok cmd -> arg cmd 0 = a.
Proof.
  simpl. destruct (argv l); simpl; try discriminate. now intros [= <-].
Qed.

Lemma parse_ip_keeps (env : Env) : Keeps but_address quiet (_parse_ip env).
Proof. unfold _parse_ip. keeps. Qed.

Lemma wait_for_ip_keeps (env : Env) (fuel : nat) :
  Keeps but_address quiet (_wait_for_ip env fuel).
Proof.
  induction fuel as [|k IH]; simpl; [apply keeps_timeout|].
  apply keeps_bind; [apply parse_ip_keeps|intros ip].
  destruct (truthy ip); keeps. exact IH.
Qed.

Lemma is_running_keeps (env : Env) :
  Keeps but_address quiet (_is_running env).
Proof. unfold _is_running. keeps. Qed.

Lemma assert_truthy_keeps {T} (proj : LibvirtdState -> T)
      (P : Event -> Prop) (o : option string) :
  Keeps proj P (assert_truthy o).
Proof.
  unfold assert_truthy. destruct o as [x|]; [destruct (truthy _)|];
    intros st; split; try reflexivity; now exists [].
Qed.

Lemma start_keeps (env : Env) (fuel : nat) :
  Keeps but_address quiet (start env fuel).
Proof.
  unfold start.
  repeat first
    [ apply assert_truthy_keeps | apply is_running_keeps
    | apply parse_ip_keeps | apply wait_for_ip_keeps | keeps_step ].
Qed.

Lemma extra_disk_base_image_path_keeps (env : Env)
      (defn : LibvirtdDefinition) (n : option string) (d : DiskDefn) :
  Keeps identity_part auxiliary (_extra_disk_base_image_path env defn n d).
Proof.
  unfold _extra_disk_base_image_path.
  apply keeps_bind; [apply keeps_lift|intros out].
  apply keeps_bind_lift. intros cmd Hc. apply argv_head in Hc.
  apply keeps_bind; [|intros ?; apply keeps_ret].
  apply keeps_logged_exec; [reflexivity|].
  unfold auxiliary, is_define, is_virsh. rewrite Hc. repeat split.
Qed.

Lemma copy_extra_disks_loop_keeps (env : Env) (defn : LibvirtdDefinition)
      (items : list (option string * DiskDefn))
      (out : list (option string * DiskState)) :
  Keeps identity_part auxiliary (_copy_extra_disks_loop env defn items out).
Proof.
  revert out. induction items as [|[n d] rest IH]; intros out; simpl.
  - apply keeps_ret.
  - apply keeps_bind; [apply extra_disk_base_image_path_keeps|intros b].
    keeps. apply IH.
Qed.

Lemma make_domain_xml_keeps (env : Env) (defn : LibvirtdDefinition) :
  Keeps attributes auxiliary (_make_domain_xml env defn).
Proof. unfold _make_domain_xml. keeps. Qed.

Lemma auxiliary_not_generation (e : Event) : auxiliary e -> not_generation e.
Proof. now intros [H _]. Qed.

Lemma keeps_weaken {T} (proj : LibvirtdState -> T) (P Q : Event -> Prop)
      {A} (m : M A) :
  (forall e, P e -> Q e) -> Keeps proj P m -> Keeps proj Q m.
Proof.
  intros H K s. eapply frame_weaken; [| exact H | apply K]. auto.
Qed.

Lemma create_provision_keeps (env : Env) (defn : LibvirtdDefinition) :
  Keeps identity_part not_generation (create_provision env defn).
Proof.
  unfold create_provision, _copy_extra_disks.
  repeat first
    [ apply (keeps_weaken _ _ _ _ auxiliary_not_generation
               (copy_extra_disks_loop_keeps env defn _ _))
    | apply (keeps_change attributes identity_part auxiliary
               not_generation (_make_domain_xml env defn));
      [ unfold attributes, but_address, identity_part; intros; congruence
      | exact auxiliary_not_generation
      | apply make_domain_xml_keeps ]
    | keeps_step ].
Qed.

Lemma generate_primary_mac_keeps (env : Env) :
  Keeps provisioned_part not_provisioning (_generate_primary_mac env).
Proof. unfold _generate_primary_mac. keeps. Qed.

Lemma create_identity_keeps (env : Env) (defn : LibvirtdDefinition) :
  Keeps provisioned_part not_provisioning (create_identity env defn).
Proof.
  unfold create_identity, set_common_state.
  repeat first [ apply generate_primary_mac_keeps | keeps_step ].
Qed.

Lemma keeps_change {T U} (proj : LibvirtdState -> T)
      (proj' : LibvirtdState -> U) (P Q : Event -> Prop) {A} (m : M A) :
  (forall s s', proj s' = proj s -> proj' s' = proj' s) ->
  (forall e, P e -> Q e) ->
  Keeps proj P m -> Keeps proj' Q m.
Proof.
  intros Hp Hq K s. eapply frame_weaken; [apply Hp|exact Hq|apply K].
Qed.

(** What follows the identity block in [create]: provisioning when
    there is no [vm_id], then [start]. *)
Lemma create_tail_keeps (env : Env) (fuel : nat) (defn : LibvirtdDefinition) :
  Keeps net_and_mac not_generation
    (v <- gets vm_id ;;
     (match v with
      | None => create_provision env defn
      | Some _ => ret tt
      end) ;;
     start env fuel ;;
     ret true).
Proof.
  apply keeps_bind; [apply keeps_gets|intros v].
  apply keeps_bind.
  - destruct v; [apply keeps_ret|].
    eapply keeps_change; [| |apply create_provision_keeps]; [|auto].
    unfold identity_part, net_and_mac. intros s s' H. congruence.
  - intros _. apply keeps_bind; [|intros ?; apply keeps_ret].
    eapply keeps_change; [| |apply start_keeps].
    + unfold but_address, net_and_mac. intros s s' H. congruence.
    + now intros e [_ H].
Qed.

(** ** The MAC address is generated once *)

Lemma mac_string_truthy (o4 o5 o6 : Z) :
  truthy (Some (mac_string [0x52; 0x54; 0x00; o4; o5; o6]%Z)) = true.
Proof. now rewrite mac_string_octets. Qed.

Lemma create_identity_mac_once (env : Env) (defn : LibvirtdDefinition)
      (s : LibvirtdState) :
  MacOnce s (snd (create_identity env defn s)).
Proof.
  unfold MacOnce, create_identity, set_common_state, create_key_pair.
  unfold bind, ret, lift, gets, modify. cbv beta iota.
  destruct (getitem (networks defn) 0) as [n0| |];
    try solve [exists []; repeat split; auto].
  cbn [primary_mac set_primary_net].
  destruct (truthy (primary_mac s)) eqn:Hm; cbn [negb].
  - cbn [client_public_key set_primary_net].
    destruct (truthy (client_public_key s)); cbn [negb snd].
    + exists []. repeat split; auto.
    + exists [ECreateKeyPair]. repeat split; auto.
  - destruct (generate_primary_mac_run env (set_primary_net n0 s))
      as (o4 & o5 & o6 & E & _).
    rewrite E.
    cbn [client_public_key set_primary_net set_primary_mac record].
    destruct (truthy (client_public_key s)); cbn [negb snd].
    + exists [ERandInt 0x00 0xff; ERandInt 0x00 0xff; ERandInt 0x00 0x7f].
      split; [reflexivity|]. split; [discriminate|]. right.
      split; [reflexivity|apply mac_string_truthy].
    + exists [ECreateKeyPair; ERandInt 0x00 0xff; ERandInt 0x00 0xff;
              ERandInt 0x00 0x7f].
      split; [reflexivity|]. split; [discriminate|]. right.
      split; [reflexivity|apply mac_string_truthy].
Qed.

Lemma frame_mac_once (s s' : LibvirtdState) :
  Frame net_and_mac not_generation s s' -> MacOnce s s'.
Proof.
  intros [E (evs & Tr & F)]. exists evs.
  assert (C : count is_mac_generation evs = 0) by now apply count_none.
  unfold net_and_mac in E. injection E as _ E.
  repeat split; auto.
Qed.

Lemma mac_once_trans (s1 s2 s3 : LibvirtdState) :
  MacOnce s1 s2 -> MacOnce s2 s3 -> MacOnce s1 s3.
Proof.
  intros (l1 & T1 & A1 & B1) (l2 & T2 & A2 & B2).
  exists (l2 ++ l1)%list. rewrite count_app. split; [|split].
  - now rewrite T2, T1, app_assoc.
  - intros H. destruct (A1 H) as [E1 C1].
    destruct A2 as [E2 C2]; [now rewrite E1|].
    split; [congruence|lia].
  - destruct B1 as [C1|[C1 H1]].
    + destruct B2 as [C2|[C2 H2]]; [left; lia|right; split; [lia|auto]].
    + destruct (A2 H1) as [E2 C2]. right. split; [lia|].
      now rewrite E2.
Qed.

Lemma create_mac_once (env : Env) (fuel : nat) (defn : LibvirtdDefinition)
      (c a r : bool) (s : LibvirtdState) :
  MacOnce s (snd (create env fuel defn c a r s)).
Proof.
  unfold create. rewrite bind_run.
  pose proof (create_identity_mac_once env defn s) as H.
  destruct (create_identity env defn s) as [[[]|e|] s1]; simpl in *; auto.
  eapply mac_once_trans; [exact H|].
  apply frame_mac_once, create_tail_keeps.
Qed.

Lemma create_seq_mac_once (env : Env)
      (calls : list (nat * LibvirtdDefinition)) (s : LibvirtdState) :
  MacOnce s (create_seq env calls s).
Proof.
  revert s. induction calls as [|[fuel defn] rest IH]; intros s; simpl.
  - exists []. repeat split; auto.
  - eapply mac_once_trans; [apply create_mac_once|apply IH].
Qed.

(** C8. When the machine has a MAC address, [create] leaves it as it is
    and draws none; and over any sequence of [create] calls, from any
    machine, an address is drawn at most once. *)
Theorem create_generates_mac_once (env : Env) :
  (forall fuel defn c a r s m,
      primary_mac s = Some m -> m <> "" ->
      let s' := snd (create env fuel defn c a r s) in
      primary_mac s' = Some m /\
      count is_mac_generation (events_since s s') = 0) /\
  (forall calls s,
      count is_mac_generation (events_since s (create_seq env calls s)) <= 1).
Proof.
  split.
  - intros fuel defn c a r s m Hm Hne s'.
    destruct (create_mac_once env fuel defn c a r s)
      as (evs & Tr & A & _).
    fold s' in Tr, A. rewrite (events_since_app s s' evs Tr).
    destruct A as [E C]; [|split; [congruence|assumption]].
    rewrite Hm. simpl. now destruct (String.eqb_spec m "").
  - intros calls s.
    destruct (create_seq_mac_once env calls s) as (evs & Tr & _ & B).
    rewrite (events_since_app _ _ evs Tr). lia.
Qed.

(** The machine of the sample keeps its address through a second
    [create]. *)
Lemma create_generates_mac_once_witness :
  let s' := snd (create (Sample.env true) 3 (Sample.defn ["isolated"])
                   false false false Sample.created) in
  primary_mac s' = Some Sample.mac0 /\
  count is_mac_generation (events_since Sample.created s') = 0.
Proof.
  destruct (create_generates_mac_once (Sample.env true)) as [H _].
  apply (H 3 (Sample.defn ["isolated"]) false false false Sample.created
           Sample.mac0); [reflexivity|discriminate].
Defined.

(** ** The primary network *)

Lemma create_identity_ok (env : Env) (defn : LibvirtdDefinition)
      (s : LibvirtdState) :
  networks defn <> [] -> fst (create_identity env defn s) = Ok tt.
Proof.
  intros Hn.
  unfold create_identity, set_common_state, create_key_pair.
  unfold bind, ret, lift, gets, modify, getitem. cbv beta iota.
  destruct (networks defn) as [|n0 rest]; [contradiction|].
  cbn [nth_error primary_mac set_primary_net].
  destruct (truthy (primary_mac s)); cbn [negb].
  - cbn [client_public_key set_primary_net].
    now destruct (truthy (client_public_key s)).
  - destruct (generate_primary_mac_run env (set_primary_net n0 s))
      as (o4 & o5 & o6 & E & _).
    rewrite E.
    cbn [client_public_key set_primary_net set_primary_mac record].
    now destruct (truthy (client_public_key s)).
Qed.

Lemma create_identity_primary_net (env : Env) (defn : LibvirtdDefinition)
      (s : LibvirtdState) (n0 : option string) :
  nth_error (networks defn) 0 = Some n0 ->
  primary_net (snd (create_identity env defn s)) = n0.
Proof.
  intros Hn.
  unfold create_identity, set_common_state, create_key_pair.
  unfold bind, ret, lift, gets, modify, getitem. cbv beta iota.
  rewrite Hn.
  cbn [primary_mac set_primary_net].
  destruct (truthy (primary_mac s)); cbn [negb].
  - cbn [client_public_key set_primary_net].
    now destruct (truthy (client_public_key s)).
  - destruct (generate_primary_mac_run env (set_primary_net n0 s))
      as (o4 & o5 & o6 & E & _).
    rewrite E.
    cbn [client_public_key set_primary_net set_primary_mac record].
    now destruct (truthy (client_public_key s)).
Qed.

(** C5, as amended. Every [create] stores the first network of the
    definition it is given as the primary network, whatever was stored
    before: a call with the same first network leaves it as it was and
    a call with another first network replaces it. *)
Theorem create_sets_primary_net (env : Env) (fuel : nat)
        (defn : LibvirtdDefinition) (c a r : bool) (s : LibvirtdState)
        (n0 : option string) :
  nth_error (networks defn) 0 = Some n0 ->
  primary_net (snd (create env fuel defn c a r s)) = n0.
Proof.
  intros Hn.
  assert (F : Frame net_and_mac not_generation
                (snd (create_identity env defn s))
                (snd (create env fuel defn c a r s))).
  { unfold create. rewrite bind_run.
    destruct (create_identity env defn s) as [[[]|e|] s1]; simpl;
      try apply frame_refl.
    apply create_tail_keeps. }
  destruct F as [E _]. unfold net_and_mac in E. injection E as E _.
  rewrite E. now apply create_identity_primary_net.
Qed.

Lemma create_sets_primary_net_witness :
  primary_net
    (snd (create (Sample.env true) 3 (Sample.defn ["isolated"; "default"])
            false false false Sample.created))
  = Some "isolated".
Proof.
  apply (create_sets_primary_net (Sample.env true) 3
           (Sample.defn ["isolated"; "default"]) false false false
           Sample.created (Some "isolated")).
  reflexivity.
Defined.

(** C5 as stated fails: the machine created on network [default] has
    its primary network replaced by a second [create] whose definition
    lists [isolated] first. *)
Lemma second_create_replaces_primary_net :
  primary_net Sample.created = Some "default" /\
  vm_id Sample.created = Some Sample.vm0 /\
  primary_net
    (snd (create (Sample.env true) 3 (Sample.defn ["isolated"; "default"])
            false false false Sample.created))
  = Some "isolated".
Proof. vm_compute. repeat split. Qed.

(** ** The writability check *)

Lemma append_empty_r (s : string) : s ++ "" = s.
Proof. induction s as [|c s IH]; simpl; [reflexivity|now rewrite IH]. Qed.

Lemma create_identity_frame (env : Env) (defn : LibvirtdDefinition)
      (s : LibvirtdState) :
  Frame provisioned_part not_provisioning s (snd (create_identity env defn s)).
Proof. apply create_identity_keeps. Qed.

(** C3, as amended. On a first [create] (no [vm_id]) whose image build
    succeeds and whose image directory is then found not writable,
    [create] raises the exception that says so; by then the image build
    has run, the check is the last thing done, and nothing is
    provisioned: no [vm_id], and the disk attributes and the descriptor
    are as before. *)
Theorem create_fails_after_image_build (env : Env) (fuel : nat)
        (defn : LibvirtdDefinition) (c a r : bool) (s : LibvirtdState)
        (out : string) :
  vm_id s = None ->
  networks defn <> [] ->
  let s1 := snd (create_identity env defn s) in
  logged_exec_out env (trace s1) (base_image_cmd env) = Some out ->
  access_w env (ELoggedExec (base_image_cmd env) :: trace s1)
    (image_dir defn) = false ->
  let s' := snd (create env fuel defn c a r s) in
  fst (create env fuel defn c a r s)
  = Raise (Exception_ (image_dir defn ++
             " is not writable by this user or it does not exist")) /\
  trace s' = EAccessW (image_dir defn)
             :: ELoggedExec (base_image_cmd env) :: trace s1 /\
  vm_id s' = None /\ disk_path s' = disk_path s /\
  extra_disks s' = extra_disks s /\ domain_xml s' = domain_xml s.
Proof.
  intros Hv Hn s1 Hb Hw s'.
  pose proof (create_identity_ok env defn s Hn) as Hok.
  destruct (create_identity_frame env defn s) as [Hp _].
  fold s1 in Hp. unfold provisioned_part in Hp.
  injection Hp as _ Hx Hd He Hv1 _.
  assert (E : create env fuel defn c a r s
              = (Raise (Exception_ (image_dir defn ++
                   " is not writable by this user or it does not exist")),
                 record (EAccessW (image_dir defn))
                   (record (ELoggedExec (base_image_cmd env)) s1))).
  { unfold create. rewrite bind_run.
    subst s1. destruct (create_identity env defn s) as [[[]|e|] s1];
      simpl in Hok; try discriminate. simpl in *.
    unfold bind at 1. unfold gets. rewrite Hv1, Hv.
    unfold bind at 1. unfold create_provision, bind, lift. simpl.
    rewrite !append_empty_r.
    unfold base_image_cmd in Hb, Hw. simpl in Hb, Hw.
    unfold _logged_exec. rewrite Hb. unfold os_access_w. simpl.
    rewrite Hw. reflexivity. }
  subst s'. rewrite E. simpl. repeat split; congruence.
Qed.

Lemma create_fails_after_image_build_witness :
  fst (create (Sample.env false) 3 (Sample.defn ["default"])
         false false false Sample.empty)
  = Raise (Exception_
      "/var/lib/libvirt/images is not writable by this user or it does not exist").
Proof.
  apply (create_fails_after_image_build (Sample.env false) 3
           (Sample.defn ["default"]) false false false Sample.empty
           ("/nix/store/img" ++ nl)).
  - reflexivity.
  - discriminate.
  - reflexivity.
  - reflexivity.
Defined.

(** C3 as stated fails: with an image directory that is not writable,
    the first [create] fails only after the image build has been run,
    the build being the event before the check. *)
Lemma image_build_precedes_writability_check :
  let run := create (Sample.env false) 3 (Sample.defn ["default"])
               false false false Sample.empty in
  vm_id Sample.empty = None /\
  fst run = Raise (Exception_
      "/var/lib/libvirt/images is not writable by this user or it does not exist") /\
  firstn 2 (trace (snd run))
  = [EAccessW "/var/lib/libvirt/images";
     ELoggedExec (base_image_cmd (Sample.env false))] /\
  count is_image_build (trace (snd run)) = 1.
Proof. vm_compute. repeat split. Qed.

(** ** Templates *)

Lemma res_map_map {A B C} (f : A -> B) (g : B -> C) (r : Res A) :
  res_map g (res_map f r) = res_map (fun x => g (f x)) r.
Proof. now destruct r. Qed.

(** Text without braces goes through [format] as it is. *)
Lemma format_plain (args : list string) (num : numbering) (s t : string) :
  brace_free s = true ->
  format_go args num InText (s ++ t)
  = res_map (append s) (format_go args num InText t).
Proof.
  induction s as [|c s IH]; intros H.
  - simpl. now destruct (format_go args num InText t).
  - simpl in H. apply andb_true_iff in H. destruct H as [H Hs].
    apply andb_true_iff in H. destruct H as [H1 H2].
    apply negb_true_iff in H1, H2.
    cbn [append format_go]. rewrite H1, H2, (IH Hs), res_map_map.
    reflexivity.
Qed.

Lemma brace_free_app (a b : string) :
  brace_free (a ++ b) = brace_free a && brace_free b.
Proof.
  induction a as [|c a IH]; simpl; [reflexivity|].
  now rewrite IH, andb_assoc.
Qed.

Lemma mac_element_brace_free (m : string) :
  brace_free m = true -> brace_free (mac_element m) = true.
Proof.
  intros H. unfold mac_element. rewrite !brace_free_app, H. reflexivity.
Qed.

Lemma format_field_0 (args : list string) (num : numbering) (t : string) :
  num <> NumAuto 0 -> (forall n, num <> NumAuto (S n)) ->
  format_go args num InText ("{0}" ++ t)
  = res_bind (arg_at args 0) (fun a =>
    res_map (append a) (format_go args NumManual InText t)).
Proof.
  intros H0 HS. cbn [append format_go Ascii.eqb Bool.eqb digit_val].
  destruct num as [| |[|k]]; try reflexivity.
  - now destruct H0.
  - now destruct (HS k).
Qed.

Lemma format_end (args : list string) (num : numbering) :
  format_go args num InText "" = Ok "".
Proof. reflexivity. Qed.

Lemma iface_format (mm n : string) :
  brace_free mm = true ->
  format (join nl [
      lit "    <interface type='network'>";
      mm;
      lit "      <source network='{0}'/>";
      lit "      <model type='virtio'/>";
      lit "    </interface>"
    ]) [n]
  = Ok (iface_text mm n).
Proof.
  intros H. unfold format.
  change (join nl _)
    with ((lit "    <interface type='network'>" ++ nl) ++
          mm ++
          (nl ++ lit "      <source network='") ++
          "{0}" ++
          (lit "'/>" ++ nl ++ lit "      <model type='virtio'/>" ++ nl ++
           lit "    </interface>") ++ "").
  rewrite format_plain by reflexivity.
  rewrite (format_plain _ _ mm) by exact H.
  rewrite format_plain by reflexivity.
  rewrite format_field_0 by discriminate.
  rewrite format_plain by reflexivity.
  rewrite format_end. reflexivity.
Qed.

Lemma format_field_digit (args : list string) (num : numbering)
      (c : ascii) (d : nat) (t : string) :
  digit_val c = Some d ->
  (forall n, num <> NumAuto n) ->
  format_go args num InText (String "{" (String c (String "}" "")) ++ t)
  = res_bind (arg_at args d) (fun a =>
    res_map (append a) (format_go args NumManual InText t)).
Proof.
  intros Hd Hn. cbn [append format_go].
  replace (Ascii.eqb "{" "{") with true by reflexivity.
  assert (H1 : Ascii.eqb c "{" = false).
  { destruct (Ascii.eqb_spec c "{"%char) as [E|]; [|reflexivity].
    subst c. vm_compute in Hd. discriminate Hd. }
  assert (H2 : Ascii.eqb c "}" = false).
  { destruct (Ascii.eqb_spec c "}"%char) as [E|]; [|reflexivity].
    subst c. vm_compute in Hd. discriminate Hd. }
  rewrite H1, H2, Hd.
  replace (Ascii.eqb "}" "}") with true by reflexivity.
  replace (10 * 0 + d) with d by lia.
  destruct num as [| |k]; try reflexivity. now destruct (Hn k).
Qed.

Lemma vm_id_run (env : Env) : _vm_id env = Ok (domain_name env).
Proof.
  unfold _vm_id, format, domain_name.
  change "nixops-{0}-{1}" with ("nixops-" ++ "{0}" ++ "-" ++ "{1}" ++ "").
  rewrite format_plain by reflexivity.
  rewrite (format_field_digit _ _ "0" 0) by (reflexivity || discriminate).
  cbn [arg_at getitem nth_error res_bind].
  rewrite format_plain by reflexivity.
  rewrite (format_field_digit _ _ "1" 1) by (reflexivity || discriminate).
  cbn [arg_at getitem nth_error res_bind].
  rewrite format_end. cbn [res_map]. now rewrite append_empty_r.
Qed.

Lemma disk_path_run (env : Env) (defn : LibvirtdDefinition) :
  _disk_path env defn = Ok (primary_disk_file env defn).
Proof.
  unfold _disk_path, primary_disk_file. rewrite vm_id_run.
  cbn [res_bind]. unfold format.
  change "{0}/{1}.img" with ("{0}" ++ "/" ++ "{1}" ++ ".img" ++ "").
  rewrite (format_field_digit _ _ "0" 0) by (reflexivity || discriminate).
  cbn [arg_at getitem nth_error res_bind].
  rewrite format_plain by reflexivity.
  rewrite (format_field_digit _ _ "1" 1) by (reflexivity || discriminate).
  cbn [arg_at getitem nth_error res_bind].
  rewrite format_plain by reflexivity.
  rewrite format_end. reflexivity.
Qed.

Lemma extra_disk_path_run (env : Env) (defn : LibvirtdDefinition)
      (n : option string) :
  format "{0}/{1}-{2}.img" [image_dir defn; domain_name env; str n]
  = Ok (extra_disk_file env defn n).
Proof.
  unfold format, extra_disk_file.
  change "{0}/{1}-{2}.img"
    with ("{0}" ++ "/" ++ "{1}" ++ "-" ++ "{2}" ++ ".img" ++ "").
  rewrite (format_field_digit _ _ "0" 0) by (reflexivity || discriminate).
  cbn [arg_at getitem nth_error res_bind].
  rewrite format_plain by reflexivity.
  rewrite (format_field_digit _ _ "1" 1) by (reflexivity || discriminate).
  cbn [arg_at getitem nth_error res_bind].
  rewrite format_plain by reflexivity.
  rewrite (format_field_digit _ _ "2" 2) by (reflexivity || discriminate).
  cbn [arg_at getitem nth_error res_bind].
  rewrite format_plain by reflexivity.
  rewrite format_end. reflexivity.
Qed.

Lemma domain_format_run (dl il : list string) (h : bool)
      (ed xd v mem qemu dp vc : string) :
  brace_free (join nl dl) = true ->
  brace_free (join nl il) = true ->
  brace_free ed = true ->
  format (domain_fmt dl il h ed xd) [v; mem; qemu; dp; vc]
  = res_map (domain_head v mem qemu dp vc dl il h ed)
      (format_go [v; mem; qemu; dp; vc] NumManual InText
         (xd ++ nl ++ lit "</domain>")).
Proof.
  intros Hd Hi He. unfold format, domain_fmt.
  change (join nl (_ :: _))
    with ((lit "<domain type='kvm'>" ++ nl ++ lit "  <name>") ++
          "{0}" ++
          (lit "</name>" ++ nl ++ lit "  <memory unit='MiB'>") ++
          "{1}" ++
          (lit "</memory>" ++ nl ++ lit "  <vcpu>") ++
          "{4}" ++
          (lit "</vcpu>" ++ nl ++ lit "  <cpu>" ++ nl ++
           lit "    <topology sockets='1' cores='") ++
          "{4}" ++
          (lit "' threads='1'/>" ++ nl ++ lit "  </cpu>" ++ nl ++
           lit "  <os>" ++ nl ++
           lit "    <type arch='x86_64'>hvm</type>" ++ nl ++
           lit "  </os>" ++ nl ++ lit "  <devices>" ++ nl ++
           lit "    <emulator>") ++
          "{2}" ++
          (lit "</emulator>" ++ nl ++
           lit "    <disk type='file' device='disk'>" ++ nl ++
           lit "      <driver name='qemu' type='qcow2'/>" ++ nl ++
           lit "      <source file='") ++
          "{3}" ++
          (lit "'/>" ++ nl ++ lit "      <target dev='hda'/>" ++ nl ++
           lit "    </disk>" ++ nl) ++
          join nl dl ++
          nl ++
          join nl il ++
          nl ++
          (if negb h then lit "    <graphics type='sdl' display=':0.0'/>"
           else "") ++
          (nl ++
           lit "    <input type='keyboard' bus='usb'/>" ++ nl ++
           lit "    <input type='mouse' bus='usb'/>" ++ nl) ++
          ed ++
          (nl ++ lit "  </devices>" ++ nl) ++
          (xd ++ nl ++ lit "</domain>")).
  rewrite format_plain by reflexivity.
  rewrite (format_field_digit _ _ "0" 0) by (reflexivity || discriminate).
  cbn [arg_at getitem nth_error res_bind].
  rewrite format_plain by reflexivity.
  rewrite (format_field_digit _ _ "1" 1) by (reflexivity || discriminate).
  cbn [arg_at getitem nth_error res_bind].
  rewrite format_plain by reflexivity.
  rewrite (format_field_digit _ _ "4" 4) by (reflexivity || discriminate).
  cbn [arg_at getitem nth_error res_bind].
  rewrite format_plain by reflexivity.
  rewrite (format_field_digit _ _ "4" 4) by (reflexivity || discriminate).
  cbn [arg_at getitem nth_error res_bind].
  rewrite format_plain by reflexivity.
  rewrite (format_field_digit _ _ "2" 2) by (reflexivity || discriminate).
  cbn [arg_at getitem nth_error res_bind].
  rewrite format_plain by reflexivity.
  rewrite (format_field_digit _ _ "3" 3) by (reflexivity || discriminate).
  cbn [arg_at getitem nth_error res_bind].
  rewrite format_plain by reflexivity.
  rewrite (format_plain _ _ (join nl dl)) by exact Hd.
  rewrite (format_plain _ _ nl) by reflexivity.
  rewrite (format_plain _ _ (join nl il)) by exact Hi.
  rewrite (format_plain _ _ nl) by reflexivity.
  rewrite (format_plain _ _ (if negb h then _ else _))
    by (now destruct h).
  rewrite format_plain by reflexivity.
  rewrite (format_plain _ _ ed) by exact He.
  rewrite format_plain by reflexivity.
  rewrite !res_map_map.
  destruct h; reflexivity.
Qed.

Lemma argv_ok (l : list (option string)) (cmd : list string) :
  argv l = Ok cmd -> cmd = map str l.
Proof.
  revert cmd. induction l as [|[a|] l IH]; intros cmd H.
  - now injection H as <-.
  - cbn [argv] in H. destruct (argv l) as [c| |]; try discriminate H.
    injection H as <-. cbn [map str]. now rewrite (IH c eq_refl).
  - discriminate H.
Qed.

Lemma map_str_some (l : list string) : map str (map Some l) = l.
Proof. induction l as [|a l IH]; [reflexivity|]. cbn. now rewrite IH. Qed.

Lemma extra_image_link_run (env : Env) (n : option string) :
  format "{0}/libvirtd-image-{1}-{2}"
    [depl_tempdir env; self_name env; str n]
  = Ok (depl_tempdir env ++ "/libvirtd-image-" ++ self_name env ++ "-"
        ++ str n).
Proof.
  unfold format.
  change "{0}/libvirtd-image-{1}-{2}"
    with ("{0}" ++ "/libvirtd-image-" ++ "{1}" ++ "-" ++ "{2}" ++ "").
  rewrite (format_field_digit _ _ "0" 0) by (reflexivity || discriminate).
  cbn [arg_at getitem nth_error res_bind].
  rewrite format_plain by reflexivity.
  rewrite (format_field_digit _ _ "1" 1) by (reflexivity || discriminate).
  cbn [arg_at getitem nth_error res_bind].
  rewrite format_plain by reflexivity.
  rewrite (format_field_digit _ _ "2" 2) by (reflexivity || discriminate).
  cbn [arg_at getitem nth_error res_bind].
  rewrite format_end. cbn [res_map]. now rewrite append_empty_r.
Qed.

(** ** Provisioning happens once *)

Lemma logged_exec_snd (env : Env) (cmd : list string) (s : LibvirtdState) :
  snd (_logged_exec env cmd s) = record (ELoggedExec cmd) s.
Proof.
  unfold _logged_exec. now destruct (logged_exec_out env (trace s) cmd).
Qed.

Lemma file_op_snd (env : Env) (e : Event) (err : exn) (s : LibvirtdState) :
  snd (file_op env e err s) = record e s.
Proof. unfold file_op. now destruct (file_op_ok env (trace s) e). Qed.

Lemma run_snd {A} (m : M A) (s s' : LibvirtdState) (r : Res A) :
  m s = (r, s') -> s' = snd (m s).
Proof. now intros ->. Qed.

Lemma adds_refl (f : Event -> bool) (s : LibvirtdState) : Adds f 0 s s.
Proof. now exists []. Qed.

Lemma adds_trans (f : Event -> bool) (n k : nat) (s1 s2 s3 : LibvirtdState) :
  Adds f n s1 s2 -> Adds f k s2 s3 -> Adds f (n + k) s1 s3.
Proof.
  intros (l1 & T1 & C1) (l2 & T2 & C2). exists (l2 ++ l1)%list. split.
  - now rewrite T2, T1, app_assoc.
  - rewrite count_app. lia.
Qed.

Lemma adds_frame {T} (proj : LibvirtdState -> T) (P : Event -> Prop)
      (f : Event -> bool) (s s' : LibvirtdState) :
  (forall e, P e -> f e = false) -> Frame proj P s s' -> Adds f 0 s s'.
Proof.
  intros H [_ (evs & Tr & F)]. exists evs. split; [assumption|].
  apply count_none. eapply Forall_impl; [exact H|exact F].
Qed.

Lemma adds_record (f : Event -> bool) (e : Event) (s : LibvirtdState) :
  Adds f (if f e then 1 else 0) s (record e s).
Proof.
  exists [e]. split; [reflexivity|]. unfold count. simpl.
  now destruct (f e).
Qed.

Section Counting.

Variable f : Event -> bool.
Variable env : Env.

Lemma okadds_bind {A B} (n k t : nat) (m : M A) (c : A -> M B) :
  OkAdds f n m -> (forall a, OkAdds f k (c a)) -> n + k = t ->
  OkAdds f t (bind m c).
Proof.
  intros Hm Hc <- s b s' H.
  apply bind_ok in H. destruct H as (a & s1 & E1 & E2).
  eapply adds_trans; [eapply Hm, E1|eapply Hc, E2].
Qed.

Lemma okadds_ret {A} (a : A) : OkAdds f 0 (ret a).
Proof. intros s b s' [= _ <-]. apply adds_refl. Qed.

Lemma okadds_lift {A} (r : Res A) : OkAdds f 0 (lift r).
Proof. intros s b s' [= _ <-]. apply adds_refl. Qed.

Lemma okadds_gets {A} (g : LibvirtdState -> A) : OkAdds f 0 (gets g).
Proof. intros s b s' [= _ <-]. apply adds_refl. Qed.

Lemma okadds_modify (g : LibvirtdState -> LibvirtdState) :
  (forall s, trace (g s) = trace s) -> OkAdds f 0 (modify g).
Proof.
  intros Hg s b s' [= _ <-]. exists []. now rewrite Hg.
Qed.

Lemma okadds_raise {A} (n : nat) (e : exn) : OkAdds f n (@raise A e).
Proof. intros s b s' H. discriminate H. Qed.

Lemma okadds_keeps {T A} (proj : LibvirtdState -> T) (P : Event -> Prop)
      (m : M A) :
  (forall e, P e -> f e = false) -> Keeps proj P m -> OkAdds f 0 m.
Proof.
  intros H K s a s' E. eapply adds_frame; [exact H|].
  rewrite (run_snd m s s' _ E). apply K.
Qed.

Lemma okadds_logged_exec (n : nat) (cmd : list string) :
  (if f (ELoggedExec cmd) then 1 else 0) = n ->
  OkAdds f n (_logged_exec env cmd).
Proof.
  intros <- s a s' E. apply run_snd in E. rewrite logged_exec_snd in E.
  subst s'. apply adds_record.
Qed.

Lemma okadds_file_op (n : nat) (e : Event) (err : exn) :
  (if f e then 1 else 0) = n -> OkAdds f n (file_op env e err).
Proof.
  intros <- s a s' E. apply run_snd in E. rewrite file_op_snd in E.
  subst s'. apply adds_record.
Qed.

Lemma okadds_os_access_w (n : nat) (path : string) :
  (if f (EAccessW path) then 1 else 0) = n ->
  OkAdds f n (os_access_w env path).
Proof. intros <- s a s' [= _ <-]. apply adds_record. Qed.

End Counting.

Lemma auxiliary_not_define (e : Event) : auxiliary e -> is_define e = false.
Proof. now intros (_ & H & _). Qed.

Lemma auxiliary_not_copyfile (e : Event) :
  auxiliary e -> is_copyfile e = false.
Proof. now intros (_ & _ & H). Qed.

Ltac okadds_leaf :=
  first
    [ apply okadds_ret | apply okadds_lift | apply okadds_gets
    | apply okadds_modify; intros; reflexivity
    | apply okadds_raise
    | eapply okadds_logged_exec; simpl; reflexivity
    | eapply okadds_file_op; simpl; reflexivity
    | eapply okadds_os_access_w; simpl; reflexivity ].

Ltac okadds_with known :=
  repeat first
    [ known
    | eapply okadds_bind; [ | intros ? | ]
    | okadds_leaf
    | match goal with
      | |- OkAdds _ _ (if ?b then _ else _) => destruct b
      | |- _ + _ = _ => reflexivity
      end ].

(** A run of the provisioning block that returns has registered the
    domain once and copied the primary disk once. *)
Lemma create_provision_registers_once (env : Env)
      (defn : LibvirtdDefinition) :
  OkAdds is_define 1 (create_provision env defn).
Proof.
  unfold create_provision, copyfile, chmod, write_file, _copy_extra_disks.
  okadds_with ltac:(
    first
      [ apply (okadds_keeps _ _ _ _ auxiliary_not_define
                 (copy_extra_disks_loop_keeps env defn _ _))
      | apply (okadds_keeps _ _ _ _ auxiliary_not_define
                 (make_domain_xml_keeps env defn)) ]).
Qed.

Lemma create_provision_copies_once (env : Env)
      (defn : LibvirtdDefinition) :
  OkAdds is_copyfile 1 (create_provision env defn).
Proof.
  unfold create_provision, copyfile, chmod, write_file, _copy_extra_disks.
  okadds_with ltac:(
    first
      [ apply (okadds_keeps _ _ _ _ auxiliary_not_copyfile
                 (copy_extra_disks_loop_keeps env defn _ _))
      | apply (okadds_keeps _ _ _ _ auxiliary_not_copyfile
                 (make_domain_xml_keeps env defn)) ]).
Qed.

Lemma not_provisioning_not_define (e : Event) :
  not_provisioning e -> is_define e = false.
Proof.
  unfold not_provisioning. destruct e; simpl; try reflexivity.
  intros H. apply orb_false_iff in H. tauto.
Qed.

Lemma not_provisioning_not_copyfile (e : Event) :
  not_provisioning e -> is_copyfile e = false.
Proof. unfold not_provisioning. destruct e; simpl; auto. Qed.

Lemma quiet_not_provisioning (e : Event) : quiet e -> not_provisioning e.
Proof. now intros [H _]. Qed.

Lemma start_ok_vm_id (env : Env) (fuel : nat) (s s' : LibvirtdState)
      (u : unit) :
  start env fuel s = (Ok u, s') -> truthy (vm_id s) = true.
Proof.
  intros H. unfold start in H.
  apply bind_ok in H. destruct H as (v & s1 & E & _).
  unfold bind, gets, assert_truthy in E.
  destruct (vm_id s) as [x|]; [|discriminate E].
  destruct (truthy (Some x)); [reflexivity|discriminate E].
Qed.

(** With a [vm_id], [create] is its identity block followed by
    [start]; it writes none of the provisioned attributes and does
    nothing that belongs to provisioning. *)
Lemma create_again (env : Env) (fuel : nat) (defn : LibvirtdDefinition)
      (c a r : bool) (s : LibvirtdState) :
  vm_id s <> None ->
  create env fuel defn c a r s
  = (create_identity env defn ;; start env fuel ;; ret true) s /\
  Frame provisioned_attrs not_provisioning s
    (snd (create env fuel defn c a r s)).
Proof.
  intros Hv.
  assert (E : create env fuel defn c a r s
              = (create_identity env defn ;; start env fuel ;; ret true) s).
  { unfold create. rewrite !bind_run.
    destruct (create_identity_frame env defn s) as [Hp _].
    destruct (create_identity env defn s) as [[[]|e|] s1]; try reflexivity.
    simpl in Hp. unfold provisioned_part in Hp. injection Hp as _ _ _ _ Hp _.
    unfold bind at 1. unfold gets.
    destruct (vm_id s1); [reflexivity|congruence]. }
  split; [exact E|]. rewrite E.
  apply keeps_bind.
  - eapply keeps_change; [| |apply create_identity_keeps]; [|auto].
    unfold provisioned_part, provisioned_attrs. intros x y H. congruence.
  - intros _. apply keeps_bind; [|intros ?; apply keeps_ret].
    eapply keeps_change; [| |apply start_keeps].
    + unfold but_address, provisioned_attrs. intros x y H. congruence.
    + exact quiet_not_provisioning.
Qed.

(** A first [create] that returns. *)
Lemma create_first (env : Env) (fuel : nat) (defn : LibvirtdDefinition)
      (c a r : bool) (s s' : LibvirtdState) (f : Event -> bool) :
  (forall e, not_provisioning e -> f e = false) ->
  OkAdds f 1 (create_provision env defn) ->
  vm_id s = None ->
  create env fuel defn c a r s = (Ok true, s') ->
  Adds f 1 s s' /\ truthy (vm_id s') = true.
Proof.
  intros Hf Hprov Hv H. unfold create in H.
  apply bind_ok in H. destruct H as ([] & sa & Ea & H).
  apply bind_ok in H. destruct H as (v & sa' & Eg & H).
  injection Eg as <- <-.
  pose proof (create_identity_frame env defn s) as Fa.
  rewrite Ea in Fa. simpl in Fa.
  assert (Hva : vm_id sa = None).
  { destruct Fa as [Hp _]. unfold provisioned_part in Hp.
    injection Hp as _ _ _ _ Hp _. congruence. }
  rewrite Hva in H.
  apply bind_ok in H. destruct H as ([] & sb & Eb & H).
  apply bind_ok in H. destruct H as ([] & sc & Ec & H).
  injection H as <-.
  pose proof (start_keeps env fuel sb) as Fc. rewrite Ec in Fc. simpl in Fc.
  split.
  - change 1 with (0 + 1 + 0).
    eapply adds_trans; [eapply adds_trans|].
    + eapply adds_frame; [exact Hf|exact Fa].
    + eapply Hprov, Eb.
    + eapply adds_frame; [|exact Fc].
      intros e He. now apply Hf, quiet_not_provisioning.
  - destruct Fc as [Hp _]. unfold but_address in Hp.
    injection Hp as _ _ _ _ _ _ _ Hp _. rewrite Hp.
    eapply start_ok_vm_id, Ec.
Qed.

Lemma truthy_some (x : string) : x <> "" -> truthy (Some x) = true.
Proof. intros H. simpl. now destruct (String.eqb_spec x ""). Qed.

Lemma filter_all (f : Event -> bool) (l : list Event) :
  Forall (fun e => f e = true) l -> filter f l = l.
Proof.
  induction 1 as [|e l He _ IH]; simpl; [reflexivity|]. now rewrite He, IH.
Qed.

Lemma lift_ok {A} (r : Res A) (a : A) (s s' : LibvirtdState) :
  lift r s = (Ok a, s') -> r = Ok a /\ s' = s.
Proof. unfold lift. now intros [= -> ->]. Qed.

(** The build of the image of one extra disk: one command, and the
    path that is returned is in what the command printed. *)
Lemma extra_disk_base_image_path_run (env : Env) (defn : LibvirtdDefinition)
      (n : option string) (d : DiskDefn) (s s' : LibvirtdState)
      (base : string) :
  _extra_disk_base_image_path env defn n d s = (Ok base, s') ->
  exists built,
    base = rstrip built ++ "/disk.qcow2" /\
    s' = record (ELoggedExec (extra_image_cmd env (n, d))) s.
Proof.
  intros H. unfold _extra_disk_base_image_path in H.
  rewrite extra_image_link_run in H.
  unfold bind at 1 in H. unfold lift at 1 in H.
  apply bind_ok in H. destruct H as (cmd & s1 & E1 & H).
  apply lift_ok in E1. destruct E1 as [E1 ->]. apply argv_ok in E1.
  rewrite map_app, map_str_some in E1. cbn [map str] in E1.
  apply bind_ok in H. destruct H as (built & s1 & E2 & H).
  pose proof (run_snd _ _ _ _ E2) as E3. rewrite logged_exec_snd in E3.
  injection H as <- <-. exists built. split; [reflexivity|].
  rewrite E3, E1. reflexivity.
Qed.

Lemma extra_disks_events_cons (env : Env) (defn : LibvirtdDefinition)
      (item : option string * DiskDefn)
      (items : list (option string * DiskDefn))
      (built : string) (builts : list string) :
  extra_disks_events env defn (item :: items) (built :: builts)
  = (extra_disks_events env defn items builts
     ++ extra_disk_events env defn (item, built))%list.
Proof.
  unfold extra_disks_events. cbn [combine rev].
  rewrite flat_map_app. cbn [flat_map]. now rewrite app_nil_r.
Qed.

(** A run of the loop of [_copy_extra_disks] that returns: what it
    returns, and what it did, disk by disk. *)
Lemma copy_extra_disks_loop_trace (env : Env) (defn : LibvirtdDefinition)
      (items : list (option string * DiskDefn))
      (out out' : list (option string * DiskState))
      (s s' : LibvirtdState) :
  _copy_extra_disks_loop env defn items out s = (Ok out', s') ->
  out' = recorded_disks env defn items out /\
  attributes s' = attributes s /\
  exists builts,
    List.length builts = List.length items /\
    trace s' = (extra_disks_events env defn items builts ++ trace s)%list.
Proof.
  revert out s. induction items as [|[n d] rest IH]; intros out s H.
  - injection H as <- <-. repeat split. now exists [].
  - cbn [_copy_extra_disks_loop] in H.
    apply bind_ok in H. destruct H as (base & s1 & E1 & H).
    apply extra_disk_base_image_path_run in E1.
    destruct E1 as (built & -> & ->).
    rewrite vm_id_run in H. unfold bind at 1 in H. unfold lift at 1 in H.
    rewrite extra_disk_path_run in H.
    unfold bind at 1 in H. unfold lift at 1 in H.
    apply bind_ok in H. destruct H as (o & s2 & E2 & H).
    apply run_snd in E2. rewrite logged_exec_snd in E2. subst s2.
    apply IH in H. destruct H as (-> & A & builts & L & Tr).
    split; [reflexivity|]. split; [rewrite A; reflexivity|].
    exists (built :: builts). split; [cbn; now rewrite L|].
    rewrite Tr, extra_disks_events_cons, <- app_assoc. reflexivity.
Qed.

Lemma make_domain_xml_snd (env : Env) (defn : LibvirtdDefinition)
      (s : LibvirtdState) :
  snd (_make_domain_xml env defn s)
  = record (EFindExecutable "qemu-system-x86_64") s.
Proof.
  unfold _make_domain_xml, bind, spawn_find_executable, gets, lift, raise.
  destruct (find_executable env (trace s) "qemu-system-x86_64");
    [|reflexivity].
  repeat match goal with
         | |- snd (match ?r with _ => _ end) = _ => destruct r
         end; reflexivity.
Qed.

(** A run of the provisioning block that returns: the attributes it
    leaves, and everything it did. *)
Lemma create_provision_trace (env : Env) (defn : LibvirtdDefinition)
      (s s' : LibvirtdState) (u : unit) :
  create_provision env defn s = (Ok u, s') ->
  exists base_built builts x,
    logged_exec_out env (trace s) (base_image_cmd env) = Some base_built /\
    List.length builts = List.length (disks defn) /\
    trace s'
    = (provisioning_events env defn base_built builts x ++ trace s)%list /\
    provisioned_attrs s'
    = (Some x, Some (primary_disk_file env defn),
       recorded_disks env defn (disks defn) [], Some (domain_name env)) /\
    identity_part s' = identity_part s.
Proof.
  intros H. unfold create_provision in H.
  apply bind_ok in H. destruct H as (a & s1 & E & H). injection E as Ea <-.
  apply bind_ok in H. destruct H as (o & s1 & E & H). injection E as Eo <-.
  rewrite append_empty_r in Eo.
  apply bind_ok in H. destruct H as (out & s1 & E1 & H).
  assert (Eout : logged_exec_out env (trace s) (base_image_cmd env)
                 = Some out).
  { rewrite <- Ea, <- Eo in E1.
    change (_logged_exec env (base_image_cmd env) s = (Ok out, s1)) in E1.
    unfold _logged_exec in E1.
    destruct (logged_exec_out env (trace s) (base_image_cmd env));
      [now injection E1 as -> _|discriminate E1]. }
  apply run_snd in E1. rewrite logged_exec_snd in E1.
  apply bind_ok in H. destruct H as (w & s2 & E2 & H).
  injection E2 as _ E2.
  apply bind_ok in H. destruct H as ([] & s3 & E3 & H).
  assert (E3' : s3 = s2).
  { destruct w; cbn [negb] in E3.
    - now injection E3.
    - apply bind_ok in E3. destruct E3 as (msg & s0 & _ & E3).
      discriminate E3. }
  clear E3. subst s3.
  rewrite disk_path_run in H.
  apply bind_ok in H. destruct H as (dp & s4 & E & H). injection E as <- <-.
  apply bind_ok in H. destruct H as ([] & s4 & E & H). injection E as <-.
  apply bind_ok in H. destruct H as ([] & s5 & E5 & H).
  apply run_snd in E5. unfold copyfile in E5. rewrite file_op_snd in E5.
  apply bind_ok in H. destruct H as (o6 & s6 & E6 & H).
  apply run_snd in E6. rewrite logged_exec_snd in E6.
  apply bind_ok in H. destruct H as ([] & s7 & E7 & H).
  apply run_snd in E7. unfold chmod in E7. rewrite file_op_snd in E7.
  apply bind_ok in H. destruct H as (ed & s8 & E8 & H).
  unfold _copy_extra_disks in E8. apply copy_extra_disks_loop_trace in E8.
  destruct E8 as (Eed & A8 & builts & L8 & T8).
  apply bind_ok in H. destruct H as ([] & s9 & E & H). injection E as <-.
  rewrite vm_id_run in H.
  apply bind_ok in H. destruct H as (v & s10 & E & H). injection E as <- <-.
  apply bind_ok in H. destruct H as ([] & s10 & E & H). injection E as <-.
  apply bind_ok in H. destruct H as (d & s11 & E & H).
  injection E as Ed <-.
  assert (Hd : depl_tempdir env ++ d = domain_file env).
  { rewrite <- Ed. reflexivity. }
  rewrite Hd in H. clear Ed Hd d.
  apply bind_ok in H. destruct H as (x & s11 & E11 & H).
  apply run_snd in E11. rewrite make_domain_xml_snd in E11.
  apply bind_ok in H. destruct H as ([] & s12 & E & H). injection E as <-.
  apply bind_ok in H. destruct H as ([] & s13 & E13 & H).
  apply run_snd in E13. unfold write_file in E13. rewrite file_op_snd in E13.
  apply bind_ok in H. destruct H as (o14 & s14 & E14 & H).
  apply run_snd in E14. rewrite logged_exec_snd in E14.
  injection H as _ <-.
  unfold attributes, but_address in A8.
  injection A8 as A8a A8b A8c A8d A8e A8f A8g _ _ A8h.
  exists out, builts, x. split; [exact Eout|]. split; [exact L8|].
  rewrite E14, E13, E11. unfold provisioned_attrs, identity_part.
  cbn [trace record set_domain_xml set_vm_id set_extra_disks
       domain_xml disk_path extra_disks
       vm_id private_ipv4 client_public_key client_private_key primary_net
       primary_mac state].
  rewrite T8, A8a, A8b, A8c, A8d, A8e, A8g, A8h, E7, E6, E5.
  cbn [trace record set_disk_path disk_path private_ipv4 client_public_key
       client_private_key primary_net primary_mac state].
  rewrite <- E2, E1, <- Ea, <- Eo, Eed.
  cbn [trace record private_ipv4 client_public_key client_private_key
       primary_net primary_mac state].
  split; [|split; reflexivity].
  unfold provisioning_events. cbn [app]. rewrite <- !app_assoc. reflexivity.
Qed.

Lemma extra_disks_events_provisioning (env : Env) (defn : LibvirtdDefinition)
      (items : list (option string * DiskDefn)) (builts : list string) :
  Forall (fun e => is_provisioning e = true)
         (extra_disks_events env defn items builts).
Proof.
  unfold extra_disks_events. apply Forall_flat_map, Forall_forall.
  intros [item built] _. repeat constructor.
Qed.

Lemma provisioning_events_provisioning (env : Env)
      (defn : LibvirtdDefinition) (base_built : string)
      (builts : list string) (x : string) :
  filter is_provisioning (provisioning_events env defn base_built builts x)
  = provisioning_events env defn base_built builts x.
Proof.
  apply filter_all. unfold provisioning_events.
  apply Forall_app. split; [repeat constructor|].
  apply Forall_app. split; [|repeat constructor].
  apply extra_disks_events_provisioning.
Qed.

(** A first [create] that returns: between the events of the identity
    block and those of [start], none of which belongs to provisioning,
    it did what the provisioning block does, once. *)
Lemma create_first_trace (env : Env) (fuel : nat) (defn : LibvirtdDefinition)
      (c a r : bool) (s s' : LibvirtdState) :
  vm_id s = None ->
  create env fuel defn c a r s = (Ok true, s') ->
  exists base_built builts x,
    logged_exec_out env (trace (snd (create_identity env defn s)))
      (base_image_cmd env) = Some base_built /\
    List.length builts = List.length (disks defn) /\
    provisioned_attrs s'
    = (Some x, Some (primary_disk_file env defn),
       recorded_disks env defn (disks defn) [], Some (domain_name env)) /\
    filter is_provisioning (events_since s s')
    = provisioning_events env defn base_built builts x.
Proof.
  intros Hv H. unfold create in H.
  apply bind_ok in H. destruct H as ([] & sa & Ea & H).
  apply bind_ok in H. destruct H as (v & sa' & Eg & H).
  injection Eg as <- <-.
  pose proof (create_identity_frame env defn s) as Fa.
  rewrite Ea in Fa. cbn [snd] in Fa.
  destruct Fa as [Pa (evsa & Ta & Fa)].
  assert (Hva : vm_id sa = None).
  { unfold provisioned_part in Pa. injection Pa as _ _ _ _ Pa _. congruence. }
  rewrite Hva in H.
  apply bind_ok in H. destruct H as ([] & sb & Eb & H).
  apply bind_ok in H. destruct H as ([] & sc & Ec & H).
  injection H as <-.
  pose proof (start_keeps env fuel sb) as Fc. rewrite Ec in Fc.
  cbn [snd] in Fc. destruct Fc as [Pc (evsc & Tc & Fc)].
  apply create_provision_trace in Eb.
  destruct Eb as (base_built & builts & x & Bb & L & Tb & Ab & _).
  exists base_built, builts, x.
  split; [rewrite Ea; exact Bb|]. split; [exact L|]. split.
  - rewrite <- Ab. unfold but_address in Pc. unfold provisioned_attrs.
    injection Pc as _ _ _ _ P1 P2 P3 P4 _. congruence.
  - rewrite (events_since_app s sc
               (evsc ++ provisioning_events env defn base_built builts x
                ++ evsa)).
    + rewrite !filter_app, provisioning_events_provisioning.
      rewrite (filter_none _ evsa) by exact Fa.
      rewrite (filter_none _ evsc).
      * now rewrite app_nil_r.
      * eapply Forall_impl; [|exact Fc]. apply quiet_not_provisioning.
    + rewrite Tc, Tb, Ta, <- !app_assoc. reflexivity.
Qed.

(** C1. After a first [create] that returned, the machine has a
    [vm_id]; a second [create], whatever its definition, is the
    identity block followed by [start]: it does nothing that belongs to
    provisioning and leaves the descriptor, the disk attributes and the
    [vm_id] as they are. Over both calls everything that belongs to
    provisioning is done once, in the order of the source: the build of
    the base image, the writability check, the copy of the primary
    disk, its rebase and its chmod, then for each disk entry of the
    first definition the build of its image and the creation of its
    disk, then the emulator lookup, the writing of the descriptor and
    the registration of the domain; the primary disk is copied from
    what the build of the base image printed, and the attributes are
    the ones these steps wrote. *)
Theorem create_twice_provisions_once (env : Env) (fuel1 fuel2 : nat)
        (defn defn' : LibvirtdDefinition) (c a r c' a' r' : bool)
        (s0 s1 : LibvirtdState) :
  vm_id s0 = None ->
  create env fuel1 defn c a r s0 = (Ok true, s1) ->
  let s2 := snd (create env fuel2 defn' c' a' r' s1) in
  vm_id s1 <> None /\
  create env fuel2 defn' c' a' r' s1
  = (create_identity env defn' ;; start env fuel2 ;; ret true) s1 /\
  filter is_provisioning (events_since s1 s2) = [] /\
  provisioned_attrs s2 = provisioned_attrs s1 /\
  count is_define (events_since s0 s2) = 1 /\
  count is_copyfile (events_since s0 s2) = 1 /\
  exists base_built builts x,
    logged_exec_out env (trace (snd (create_identity env defn s0)))
      (base_image_cmd env) = Some base_built /\
    List.length builts = List.length (disks defn) /\
    provisioned_attrs s2
    = (Some x, Some (primary_disk_file env defn),
       recorded_disks env defn (disks defn) [], Some (domain_name env)) /\
    filter is_provisioning (events_since s0 s2)
    = provisioning_events env defn base_built builts x.
Proof.
  intros Hv H s2.
  destruct (create_first env fuel1 defn c a r s0 s1 is_define
              not_provisioning_not_define
              (create_provision_registers_once env defn) Hv H)
    as [D1 Hv1].
  destruct (create_first env fuel1 defn c a r s0 s1 is_copyfile
              not_provisioning_not_copyfile
              (create_provision_copies_once env defn) Hv H)
    as [C1 _].
  assert (Hne : vm_id s1 <> None).
  { intros E. rewrite E in Hv1. discriminate Hv1. }
  destruct (create_again env fuel2 defn' c' a' r' s1 Hne) as [E F].
  fold s2 in F.
  split; [exact Hne|]. split; [exact E|].
  split; [|split; [apply F|]].
  - destruct F as [_ (evs & Tr & Fa)].
    rewrite (events_since_app s1 s2 evs Tr). now apply filter_none.
  - assert (D2 : Adds is_define 0 s1 s2)
      by (eapply adds_frame; [exact not_provisioning_not_define|exact F]).
    assert (C2 : Adds is_copyfile 0 s1 s2)
      by (eapply adds_frame; [exact not_provisioning_not_copyfile|exact F]).
    destruct (adds_trans _ _ _ _ _ _ D1 D2) as (l1 & T1 & N1).
    destruct (adds_trans _ _ _ _ _ _ C1 C2) as (l2 & T2 & N2).
    rewrite (events_since_app s0 s2 l1 T1) at 1.
    rewrite (events_since_app s0 s2 l2 T2) at 1.
    split; [assumption|]. split; [assumption|].
    destruct (create_first_trace env fuel1 defn c a r s0 s1 Hv H)
      as (base_built & builts & x & Bb & L & A1 & P1).
    exists base_built, builts, x. split; [exact Bb|]. split; [exact L|].
    destruct F as [PF (evs & Tr & Fa)].
    split; [now rewrite PF|].
    destruct C1 as (l3 & T3 & _).
    rewrite (events_since_app s0 s1 l3 T3) in P1.
    rewrite (events_since_app s0 s2 (evs ++ l3)).
    + rewrite filter_app, (filter_none _ evs) by exact Fa. exact P1.
    + rewrite Tr, T3, app_assoc. reflexivity.
Qed.

(** The sample: the first [create] returns the machine [Sample.created],
    and a second one follows. Over both, ten things belong to
    provisioning: five for the primary disk, two for the disk [data],
    three for the descriptor. *)
Lemma create_twice_provisions_once_witness :
  let s2 := snd (create (Sample.env true) 3 (Sample.defn ["default"])
                   false false false Sample.created) in
  filter is_provisioning (events_since Sample.created s2) = [] /\
  count is_define (events_since Sample.empty s2) = 1 /\
  count is_copyfile (events_since Sample.empty s2) = 1 /\
  exists x,
    domain_xml s2 = Some x /\
    filter is_provisioning (events_since Sample.empty s2)
    = provisioning_events (Sample.env true) (Sample.defn ["default"])
        ("/nix/store/img" ++ nl) ["/nix/store/img" ++ nl] x.
Proof.
  destruct (create_twice_provisions_once (Sample.env true) 3 3
              (Sample.defn ["default"]) (Sample.defn ["default"])
              false false false false false false
              Sample.empty Sample.created eq_refl)
    as (_ & _ & H1 & _ & H2 & H3 & _).
  - vm_compute. reflexivity.
  - repeat (split; [assumption|]).
    eexists. split; vm_compute; reflexivity.
Defined.

(** ** [destroy] *)

Lemma frame_events {T} (proj : LibvirtdState -> T) (P : Event -> Prop)
      (s s' : LibvirtdState) :
  Frame proj P s s' ->
  proj s' = proj s /\
  trace s' = (events_since s s' ++ trace s)%list /\
  Forall P (events_since s s').
Proof.
  intros [E (evs & Tr & F)]. rewrite (events_since_app s s' evs Tr). auto.
Qed.

Lemma adds_events (f : Event -> bool) (n : nat) (s s' : LibvirtdState) :
  Adds f n s s' -> count f (events_since s s') = n.
Proof. intros (evs & Tr & C). now rewrite (events_since_app s s' evs Tr). Qed.

Lemma stop_frame (env : Env) (s : LibvirtdState) (v : string) :
  vm_id s = Some v ->
  Frame but_state (stop_event v) s (snd (stop env s)).
Proof.
  intros Hv. unfold stop, _is_running.
  unfold bind, gets, assert_truthy, ret, raise, modify, check_output,
    _logged_exec.
  rewrite Hv. cbv beta iota.
  destruct (truthy (Some v)); [|apply frame_refl].
  destruct (check_output_out env (trace s) list_cmd) as [ls|] eqn:El;
    unfold list_cmd in El; rewrite El; cbn [vm_id record].
  - rewrite Hv.
    destruct (contains ls v).
    + destruct (logged_exec_out env _ _); (split; [reflexivity|]);
        exists [ELoggedExec (force_stop_cmd v); ECheckOutput list_cmd];
        (split; [reflexivity|]);
        repeat (apply Forall_cons || apply Forall_nil);
        unfold stop_event; auto.
    + split; [reflexivity|]. exists [ECheckOutput list_cmd].
      split; [reflexivity|].
      repeat (apply Forall_cons || apply Forall_nil);
        unfold stop_event; auto.
  - split; [reflexivity|]. exists [ECheckOutput list_cmd].
    split; [reflexivity|].
    repeat (apply Forall_cons || apply Forall_nil);
      unfold stop_event; auto.
Qed.

Lemma stop_ok (env : Env) (s s' : LibvirtdState) (v : string) (u : unit) :
  vm_id s = Some v ->
  stop env s = (Ok u, s') ->
  state s' = STOPPED /\
  forall ls, check_output_out env (trace s) list_cmd = Some ls ->
             contains ls v = true ->
             In (ELoggedExec (force_stop_cmd v)) (events_since s s').
Proof.
  intros Hv. unfold stop, _is_running.
  unfold bind, gets, assert_truthy, ret, raise, modify, check_output,
    _logged_exec.
  rewrite Hv. cbv beta iota.
  destruct (truthy (Some v)); [|discriminate].
  destruct (check_output_out env (trace s) list_cmd) as [ls|] eqn:El;
    unfold list_cmd in El; rewrite El; cbn [vm_id record]; [|discriminate].
  rewrite Hv.
  destruct (contains ls v) eqn:Ec.
  - destruct (logged_exec_out env _ _); [|discriminate].
    intros [= _ <-]. split; [reflexivity|]. intros ls' _ _.
    rewrite (events_since_app s _
               [ELoggedExec (force_stop_cmd v); ECheckOutput list_cmd]);
      [now left|reflexivity].
  - intros [= _ <-]. split; [reflexivity|].
    intros ls' [= <-] H. congruence.
Qed.

Lemma unlink_if_exists_keeps (env : Env) (paths : list string)
      (o : option string) :
  (truthy o = true -> In (str o) paths) ->
  Keeps attributes (file_event paths) (unlink_if_exists env o).
Proof.
  intros Hin. unfold unlink_if_exists, unlink.
  destruct o as [p|]; [|apply keeps_ret].
  destruct (truthy (Some p)); [|apply keeps_ret].
  specialize (Hin eq_refl). simpl in Hin.
  apply keeps_bind.
  - apply keeps_os_path_exists; [reflexivity|]. exists p. auto.
  - intros [|]; [|apply keeps_ret].
    apply keeps_file_op; [reflexivity|]. exists p. auto.
Qed.

Lemma unlink_if_exists_count (env : Env) (p : string) (o : option string) :
  (forall tr, path_exists env tr p = true) ->
  OkAdds (is_unlink p) (if truthy o && (str o =? p) then 1 else 0)
    (unlink_if_exists env o).
Proof.
  intros Hp. unfold unlink_if_exists, unlink.
  destruct o as [q|]; [|apply okadds_ret].
  destruct (truthy (Some q)); [|apply okadds_ret].
  simpl. intros s a s'. unfold bind, os_path_exists, file_op, ret.
  destruct (String.eqb_spec q p) as [->|Hne].
  - rewrite Hp. destruct (file_op_ok env _ _); [|discriminate].
    intros [= _ <-]. exists [EUnlink p; EPathExists p].
    split; [reflexivity|]. unfold count. simpl. now rewrite String.eqb_refl.
  - destruct (path_exists env (trace s) q).
    + destruct (file_op_ok env _ _); [|discriminate].
      intros [= _ <-]. exists [EUnlink q; EPathExists q].
      split; [reflexivity|]. unfold count. simpl.
      now destruct (String.eqb_spec q p).
    + intros [= _ <-]. now exists [EPathExists q].
Qed.

Lemma destroy_extra_disks_keeps (env : Env) (paths : list string)
      (items : list (option string * DiskState)) :
  (forall kv, In kv items -> truthy (imagePath (snd kv)) = true ->
              In (str (imagePath (snd kv))) paths) ->
  Keeps attributes (file_event paths) (destroy_extra_disks env items).
Proof.
  induction items as [|[n d] rest IH]; intros Hin; simpl.
  - apply keeps_ret.
  - apply keeps_bind.
    + apply unlink_if_exists_keeps. apply (Hin (n, d)). now left.
    + intros _. apply IH. intros kv Hkv. apply Hin. now right.
Qed.

Lemma occurrences_app (p : string) (a b : list string) :
  occurrences p (a ++ b) = occurrences p a + occurrences p b.
Proof. unfold occurrences. now rewrite filter_app, length_app. Qed.

Lemma occurrences_one (p : string) (o : option string) :
  occurrences p (if truthy o then [str o] else [])
  = if truthy o && (str o =? p) then 1 else 0.
Proof.
  unfold occurrences. destruct (truthy o); simpl; [|reflexivity].
  now destruct (str o =? p).
Qed.

Lemma destroy_extra_disks_count (env : Env) (p : string)
      (items : list (option string * DiskState)) :
  (forall tr, path_exists env tr p = true) ->
  OkAdds (is_unlink p)
    (occurrences p (files_of (map (fun kv => imagePath (snd kv)) items)))
    (destroy_extra_disks env items).
Proof.
  intros Hp. induction items as [|[n d] rest IH]; simpl.
  - apply okadds_ret.
  - eapply okadds_bind.
    + apply unlink_if_exists_count, Hp.
    + intros _. exact IH.
    + unfold files_of. simpl. fold (files_of (map (fun kv => imagePath (snd kv)) rest)).
      now rewrite occurrences_app, occurrences_one.
Qed.

Lemma in_files_of (o : option string) (l : list (option string)) :
  In o l -> truthy o = true -> In (str o) (files_of l).
Proof.
  intros Hin Ht. unfold files_of. apply in_flat_map. exists o.
  rewrite Ht. split; [assumption|now left].
Qed.

Lemma stop_keeps_vm_id (env : Env) :
  Keeps vm_id (fun _ => True) (stop env).
Proof.
  unfold stop, _is_running.
  repeat first [ apply assert_truthy_keeps | keeps_step ].
Qed.

Lemma unlink_if_exists_keeps_vm_id (env : Env) (o : option string) :
  Keeps vm_id (fun _ => True) (unlink_if_exists env o).
Proof.
  eapply keeps_change;
    [| |apply (unlink_if_exists_keeps env [str o] o); now left]; [|auto].
  unfold attributes, but_address. intros s s' H. congruence.
Qed.

Lemma destroy_extra_disks_keeps_vm_id (env : Env)
      (items : list (option string * DiskState)) :
  Keeps vm_id (fun _ => True) (destroy_extra_disks env items).
Proof.
  induction items as [|[n d] rest IH]; simpl; [apply keeps_ret|].
  apply keeps_bind; [apply unlink_if_exists_keeps_vm_id|intros _; exact IH].
Qed.

Lemma destroy_keeps_vm_id (env : Env) (wipe : bool) :
  Keeps vm_id (fun _ => True) (destroy env wipe).
Proof.
  unfold destroy.
  repeat first
    [ apply stop_keeps_vm_id | apply unlink_if_exists_keeps_vm_id
    | apply destroy_extra_disks_keeps_vm_id | keeps_step ].
Qed.

Lemma delete_present_app (env : Env) (a b : list string) (tr : list Event) :
  delete_present env (a ++ b) tr
  = delete_present env b (delete_present env a tr).
Proof.
  revert tr. induction a as [|p a IH]; intros tr; [reflexivity|].
  cbn [app delete_present]. apply IH.
Qed.

(** A run of [unlink_if_exists] that returns has looked for the file,
    when there is one, and unlinked it exactly when the look found
    it. *)
Lemma unlink_if_exists_trace (env : Env) (o : option string)
      (s s' : LibvirtdState) (u : unit) :
  unlink_if_exists env o s = (Ok u, s') ->
  trace s' = delete_present env (files_of [o]) (trace s).
Proof.
  unfold unlink_if_exists, files_of. cbn [flat_map].
  destruct o as [p|]; [|now intros [= _ <-]].
  destruct (truthy (Some p)); [|now intros [= _ <-]].
  cbn [str app delete_present].
  unfold bind, os_path_exists, unlink, file_op, ret. cbn [trace record].
  destruct (path_exists env (trace s) p).
  - destruct (file_op_ok env _ _); [|discriminate].
    now intros [= _ <-].
  - now intros [= _ <-].
Qed.

Lemma destroy_extra_disks_trace (env : Env)
      (items : list (option string * DiskState))
      (s s' : LibvirtdState) (u : unit) :
  destroy_extra_disks env items s = (Ok u, s') ->
  trace s'
  = delete_present env
      (files_of (map (fun kv => imagePath (snd kv)) items)) (trace s).
Proof.
  revert s. induction items as [|[n d] rest IH]; intros s H.
  - now injection H as _ <-.
  - cbn [destroy_extra_disks] in H.
    apply bind_ok in H. destruct H as ([] & s1 & E1 & H).
    apply unlink_if_exists_trace in E1. apply IH in H.
    cbn [map snd]. unfold files_of in *. cbn [flat_map].
    rewrite delete_present_app.
    cbn [flat_map] in E1. rewrite app_nil_r in E1.
    now rewrite <- E1.
Qed.




(** ** The interfaces of the descriptor *)

Lemma iface_text_brace_free (mm n : string) :
  brace_free mm = true -> brace_free n = true ->
  brace_free (iface_text mm n) = true.
Proof.
  intros Hm Hn. unfold iface_text.
  rewrite !brace_free_app, Hm, Hn. reflexivity.
Qed.

Lemma disk_text_brace_free (p d : string) :
  brace_free p = true -> brace_free d = true ->
  brace_free (disk_text p d) = true.
Proof.
  intros Hp Hd. unfold disk_text.
  rewrite !brace_free_app, Hp, Hd. reflexivity.
Qed.

Lemma join_brace_free (l : list string) :
  Forall (fun x => brace_free x = true) l -> brace_free (join nl l) = true.
Proof.
  induction 1 as [|x l Hx Hl IH]; [reflexivity|].
  destruct l as [|y l]; [exact Hx|].
  change (join nl (x :: y :: l)) with (x ++ nl ++ join nl (y :: l)).
  now rewrite !brace_free_app, Hx, IH.
Qed.

Lemma disk_xml_run (k : option string) (d : DiskState) :
  disk_xml (k, d)
  = Ok (disk_text (str (imagePath d)) (str (disk_device d))).
Proof.
  unfold disk_xml, format.
  change (join nl _)
    with ((lit "    <disk type='file' device='disk'>" ++ nl ++
           lit "      <driver name='qemu' type='qcow2'/>" ++ nl ++
           lit "      <source file='") ++
          "{0}" ++
          (lit "'/>" ++ nl ++ lit "      <target dev='") ++
          "{1}" ++
          (lit "'/>" ++ nl ++ lit "    </disk>") ++ "").
  rewrite format_plain by reflexivity.
  rewrite (format_field_digit _ _ "0" 0) by (reflexivity || discriminate).
  cbn [arg_at getitem nth_error res_bind].
  rewrite format_plain by reflexivity.
  rewrite (format_field_digit _ _ "1" 1) by (reflexivity || discriminate).
  cbn [arg_at getitem nth_error res_bind].
  rewrite format_plain by reflexivity.
  rewrite format_end. reflexivity.
Qed.

Lemma disks_xml_run (l : list (option string * DiskState)) :
  res_mapM disk_xml l
  = Ok (map (fun kv => disk_text (str (imagePath (snd kv)))
                                 (str (disk_device (snd kv)))) l).
Proof.
  induction l as [|[k d] l IH]; [reflexivity|].
  cbn [res_mapM map snd]. rewrite disk_xml_run, IH. reflexivity.
Qed.

Lemma iface_run (s : LibvirtdState) (m n : string) :
  primary_mac s = Some m -> brace_free m = true ->
  iface s (Some n)
  = Ok (iface_text
          (if opt_eqb (Some n) (primary_net s) then mac_element m else "")
          n).
Proof.
  intros Hm Hb. unfold iface, maybe_mac. rewrite Hm.
  destruct (opt_eqb (Some n) (primary_net s)); cbn [res_bind str].
  - apply iface_format. now apply mac_element_brace_free.
  - now apply iface_format.
Qed.

Lemma ifaces_run (s : LibvirtdState) (m : string) (names : list string) :
  primary_mac s = Some m -> brace_free m = true ->
  res_mapM (iface s) (map Some names)
  = Ok (iface_texts (primary_net s) m names).
Proof.
  intros Hm Hb. unfold iface_texts.
  induction names as [|n names IH]; [reflexivity|].
  cbn [res_mapM map]. rewrite (iface_run s m n Hm Hb), IH. reflexivity.
Qed.

Lemma occurrences_split (p : string) (l : list string) :
  occurrences p l = 1 ->
  exists before after,
    l = (before ++ p :: after)%list /\
    occurrences p before = 0 /\ occurrences p after = 0.
Proof.
  unfold occurrences. induction l as [|x l IH]; simpl; [discriminate|].
  destruct (String.eqb_spec x p) as [->|Hne]; simpl.
  - intros [= H]. now exists [], l.
  - intros H. destruct (IH H) as (b & a & -> & Hb & Ha).
    exists (x :: b), a. simpl.
    destruct (String.eqb_spec x p); [contradiction|]. auto.
Qed.

Lemma iface_texts_others (p m : string) (l : list string) :
  occurrences p l = 0 ->
  iface_texts (Some p) m l = map (iface_text "") l.
Proof.
  unfold occurrences, iface_texts.
  induction l as [|x l IH]; intros H; [reflexivity|].
  cbn [filter] in H. cbn [map].
  change (opt_eqb (Some x) (Some p)) with (x =? p).
  destruct (x =? p); [discriminate H|].
  f_equal. apply IH, H.
Qed.

Lemma iface_texts_app (pn : option string) (m : string)
      (a b : list string) :
  iface_texts pn m (a ++ b)
  = (iface_texts pn m a ++ iface_texts pn m b)%list.
Proof. unfold iface_texts. apply map_app. Qed.

Lemma disk_texts_brace_free (l : list (option string * DiskState)) :
  Forall (fun kv => brace_free (str (imagePath (snd kv))) = true /\
                    brace_free (str (disk_device (snd kv))) = true) l ->
  brace_free (join nl (disk_texts l)) = true.
Proof.
  intros H. apply join_brace_free. unfold disk_texts. apply Forall_map.
  eapply Forall_impl; [|exact H].
  intros kv [H1 H2]. now apply disk_text_brace_free.
Qed.

Lemma iface_texts_brace_free (pn : option string) (m : string)
      (names : list string) :
  brace_free m = true ->
  Forall (fun n => brace_free n = true) names ->
  brace_free (join nl (iface_texts pn m names)) = true.
Proof.
  intros Hb H. apply join_brace_free. unfold iface_texts. apply Forall_map.
  eapply Forall_impl; [|exact H].
  intros n Hn. apply iface_text_brace_free; [|exact Hn].
  destruct (opt_eqb (Some n) pn);
    [now apply mac_element_brace_free|reflexivity].
Qed.




(** A brace in a network name is read by [format]: a network named
    [{1}] is rendered with the memory size in place of its name. *)
Lemma brace_in_network_name_is_a_field :
  exists xml,
    fst (_make_domain_xml (Sample.env true) (Sample.defn ["{1}"])
           Sample.created) = Ok xml /\
    count_sub xml (lit "<source network='1024'/>") = 1 /\
    count_sub xml "{1}" = 0.
Proof.
  eexists. split; [vm_compute; reflexivity|].
  vm_compute. split; reflexivity.
Qed.

(** * Further properties *)

(** ** Substrings *)

Lemma prefix_of_spec (p s : string) :
  prefix_of p s = true <-> exists post, s = p ++ post.
Proof.
  revert s. induction p as [|a p IH]; intros s; simpl.
  - split; [intros _; now exists s|reflexivity].
  - destruct s as [|b s].
    + split; [discriminate|]. intros (post & H). discriminate H.
    + rewrite andb_true_iff, IH. split.
      * intros [Hab (post & ->)]. apply Ascii.eqb_eq in Hab. subst b.
        now exists post.
      * intros (post & [= -> ->]). split; [apply Ascii.eqb_refl|].
        now exists post.
Qed.

Lemma contains_spec (s sub : string) :
  contains s sub = true <-> exists pre post, s = pre ++ sub ++ post.
Proof.
  induction s as [|c r IH].
  - cbn [contains]. rewrite orb_false_r, prefix_of_spec. split.
    + intros (post & H). now exists "", post.
    + intros (pre & post & H). destruct pre; [|discriminate H].
      now exists post.
  - cbn [contains]. rewrite orb_true_iff, prefix_of_spec, IH. split.
    + intros [(post & H)|(pre & post & ->)].
      * now exists "", post.
      * now exists (String c pre), post.
    + intros (pre & post & H). destruct pre as [|c' pre].
      * left. now exists post.
      * right. injection H as -> ->. now exists pre, post.
Qed.

(** ** Running state *)

(** X1. [_is_running] answers [True] exactly when the listing of the
    hypervisor holds the [vm_id] somewhere, be it inside the name of
    another domain. *)
Theorem is_running_by_substring (env : Env) (s : LibvirtdState)
        (v ls : string) :
  vm_id s = Some v ->
  check_output_out env (trace s) list_cmd = Some ls ->
  (fst (_is_running env s) = Ok true <->
   exists pre post, ls = pre ++ v ++ post) /\
  (fst (_is_running env s) = Ok false <->
   ~ exists pre post, ls = pre ++ v ++ post).
Proof.
  intros Hv Hl. unfold _is_running, bind, check_output, gets.
  unfold list_cmd in Hl. rewrite Hl. cbn [vm_id record]. rewrite Hv.
  cbn [ret fst]. rewrite <- contains_spec.
  destruct (contains ls v); split; split; try congruence; try tauto.
Qed.

(** The domain of machine [m10] makes machine [m1] count as running. *)
Lemma is_running_by_substring_witness :
  fst (_is_running Scenario.env_other_domain Sample.created) = Ok true.
Proof.
  destruct (is_running_by_substring Scenario.env_other_domain
              Sample.created Sample.vm0
              (" 7     nixops-d1-m10                  running" ++ nl)
              eq_refl eq_refl) as [[_ H] _].
  apply H. exists " 7     ", ("0                  running" ++ nl).
  reflexivity.
Defined.

(** ** Methods that need an identity *)

Lemma start_asserts (env : Env) (fuel : nat) (s : LibvirtdState) :
  truthy (vm_id s) && truthy (domain_xml s) && truthy (primary_net s)
  = false ->
  start env fuel s = (Raise AssertionError, s).
Proof.
  unfold start, bind, gets, assert_truthy.
  destruct (vm_id s) as [v|]; [|reflexivity].
  destruct (truthy (Some v)); [|reflexivity]. cbn [andb ret].
  destruct (domain_xml s) as [x|]; [|reflexivity].
  destruct (truthy (Some x)); [|reflexivity]. cbn [andb ret].
  destruct (primary_net s) as [n|]; [|reflexivity].
  destruct (truthy (Some n)); [discriminate|reflexivity].
Qed.

(** X2. Without a [vm_id], a descriptor and a primary network, [start]
    raises AssertionError and asks nothing of the hypervisor; so does
    [stop] without a [vm_id], and [get_ssh_name] without an address.
    The machine is left as it was. *)
Theorem methods_assert_identity (env : Env) (fuel : nat)
        (s : LibvirtdState) :
  (truthy (vm_id s) && truthy (domain_xml s) && truthy (primary_net s)
   = false ->
   start env fuel s = (Raise AssertionError, s)) /\
  (truthy (vm_id s) = false -> stop env s = (Raise AssertionError, s)) /\
  (truthy (private_ipv4 s) = false ->
   get_ssh_name s = (Raise AssertionError, s)).
Proof.
  split; [apply start_asserts|].
  unfold stop, get_ssh_name, bind, gets, assert_truthy. split.
  - destruct (vm_id s) as [v|]; [|reflexivity].
    now destruct (truthy (Some v)).
  - destruct (private_ipv4 s) as [v|]; [|reflexivity].
    now destruct (truthy (Some v)).
Qed.

(** The empty machine: nothing can be started, stopped or reached. *)
Lemma methods_assert_identity_witness :
  start (Sample.env true) 3 Sample.empty
  = (Raise AssertionError, Sample.empty) /\
  stop (Sample.env true) Sample.empty = (Raise AssertionError, Sample.empty) /\
  get_ssh_name Sample.empty = (Raise AssertionError, Sample.empty).
Proof.
  destruct (methods_assert_identity (Sample.env true) 3 Sample.empty)
    as (H1 & H2 & H3).
  split; [apply H1; reflexivity|].
  split; [apply H2; reflexivity|apply H3; reflexivity].
Defined.

(** ** [start] *)


Lemma truthy_inv (o : option string) :
  truthy o = true -> exists x, o = Some x /\ x <> "".
Proof.
  destruct o as [x|]; [|discriminate]. simpl. intros H. exists x.
  split; [reflexivity|]. intros ->. discriminate H.
Qed.

(** X3. On a domain the hypervisor lists, [start] is a reconnection: it
    lists the domains, reads the leases of the primary network, gives no
    command, and stores what the lease lookup answers as the address,
    [None] included; no other attribute changes. *)
Theorem start_reconnects (env : Env) (fuel : nat) (s : LibvirtdState)
        (v net ls lines : string) :
  vm_id s = Some v -> v <> "" ->
  truthy (domain_xml s) = true ->
  primary_net s = Some net -> net <> "" ->
  check_output_out env (trace s) list_cmd = Some ls ->
  contains ls v = true ->
  check_output_out env (ECheckOutput list_cmd :: trace s) (lease_cmd net)
  = Some lines ->
  let s' := snd (start env fuel s) in
  events_since s s' = [ECheckOutput (lease_cmd net); ECheckOutput list_cmd] /\
  fst (start env fuel s)
  = res_map (fun _ => tt) (parse_leases (primary_mac s) lines) /\
  (forall ip, parse_leases (primary_mac s) lines = Ok ip ->
              private_ipv4 s' = ip) /\
  but_address s' = but_address s.
Proof.
  intros Hv Hne Hx Hn Hnn Hl Hc Hlease s'.
  assert (E : start env fuel s
              = match parse_leases (primary_mac s) lines with
                | Ok ip =>
                    (Ok tt,
                     set_private_ipv4 ip
                       (record (ECheckOutput (lease_cmd net))
                          (record (ECheckOutput list_cmd) s)))
                | Raise e =>
                    (Raise e,
                     record (ECheckOutput (lease_cmd net))
                       (record (ECheckOutput list_cmd) s))
                | Timeout =>
                    (Timeout,
                     record (ECheckOutput (lease_cmd net))
                       (record (ECheckOutput list_cmd) s))
                end).
  { unfold start, _is_running, _parse_ip.
    unfold bind, gets, assert_truthy, check_output, ret, lift, modify.
    rewrite Hv, (truthy_some v Hne).
    destruct (truthy_inv _ Hx) as (x & Ex & Hxn).
    rewrite Ex, (truthy_some x Hxn), Hn, (truthy_some net Hnn).
    unfold list_cmd in Hl, Hlease. rewrite Hl.
    cbn [vm_id record]. rewrite Hv, Hc.
    cbn [primary_net record argv res_map].
    rewrite Hn. cbn [argv res_map trace record].
    unfold lease_cmd in Hlease. rewrite Hlease.
    cbn [primary_mac record].
    now destruct (parse_leases (primary_mac s) lines). }
  subst s'. rewrite E.
  destruct (parse_leases (primary_mac s) lines) as [ip|e|]; cbn [fst snd];
    (split; [apply events_since_app; reflexivity|]);
    (split; [reflexivity|]); (split; [|reflexivity]);
    intros ip' H; first [discriminate H|injection H as <-; reflexivity].
Qed.

(** A reconnection with an empty lease table erases the address the
    machine had. *)
Lemma start_reconnects_witness :
  private_ipv4 Sample.created = Some "192.168.122.10" /\
  private_ipv4
    (snd (start (Sample.env_with true "no leases") 3 Sample.created))
  = None.
Proof.
  split; [reflexivity|].
  destruct (start_reconnects (Sample.env_with true "no leases") 3
              Sample.created Sample.vm0 "default"
              (Sample.domains true) "no leases"
              eq_refl ltac:(discriminate) eq_refl eq_refl
              ltac:(discriminate) eq_refl eq_refl eq_refl)
    as (_ & _ & H & _).
  exact (H None eq_refl).
Defined.

(** ** Waiting for an address *)

Lemma wait_for_ip_address (env : Env) (fuel : nat) (s s' : LibvirtdState)
      (u : unit) :
  _wait_for_ip env fuel s = (Ok u, s') ->
  exists ip, ip <> "" /\ private_ipv4 s' = Some ip.
Proof.
  revert s. induction fuel as [|k IH]; intros s H; [discriminate H|].
  cbn [_wait_for_ip] in H.
  apply bind_ok in H. destruct H as (ip & s1 & _ & H).
  destruct (truthy ip) eqn:Ht.
  - injection H as _ <-. destruct (truthy_inv _ Ht) as (x & -> & Hx).
    now exists x.
  - apply bind_ok in H. destruct H as ([] & s2 & _ & H). now apply (IH s2).
Qed.

Lemma start_ok_started (env : Env) (fuel : nat) (s s' : LibvirtdState)
      (v ls : string) (u : unit) :
  vm_id s = Some v ->
  check_output_out env (trace s) list_cmd = Some ls ->
  contains ls v = false ->
  start env fuel s = (Ok u, s') ->
  _wait_for_ip env fuel
    (record (ELoggedExec (start_cmd v)) (record (ECheckOutput list_cmd) s))
  = (Ok tt, s').
Proof.
  intros Hv Hl Hc H. unfold start in H.
  apply bind_ok in H. destruct H as (v' & s1 & E1 & H).
  unfold bind, gets, assert_truthy in E1. rewrite Hv in E1.
  destruct (truthy (Some v)); [|discriminate E1]. injection E1 as <- <-.
  apply bind_ok in H. destruct H as (x & s1 & E1 & H).
  unfold bind, gets, assert_truthy in E1.
  destruct (domain_xml s) as [dx|]; [|discriminate E1].
  destruct (truthy (Some dx)); [|discriminate E1]. injection E1 as _ <-.
  apply bind_ok in H. destruct H as (n & s1 & E1 & H).
  unfold bind, gets, assert_truthy in E1.
  destruct (primary_net s) as [pn|]; [|discriminate E1].
  destruct (truthy (Some pn)); [|discriminate E1]. injection E1 as _ <-.
  apply bind_ok in H. destruct H as (b & s1 & E1 & H).
  unfold _is_running, bind, check_output, gets, ret in E1.
  unfold list_cmd in Hl. rewrite Hl in E1. cbn [vm_id record] in E1.
  rewrite Hv, Hc in E1. injection E1 as <- <-.
  apply bind_ok in H. destruct H as (o & s2 & E2 & H).
  apply run_snd in E2. rewrite logged_exec_snd in E2. subst s2.
  destruct u. exact H.
Qed.

(** X4. When [start] returns on a domain the hypervisor does not list, it
    has given the start command and the machine has an address that is
    not empty, which [get_ssh_name] then returns. *)
Theorem start_returns_with_address (env : Env) (fuel : nat)
        (s s' : LibvirtdState) (v ls : string) (u : unit) :
  vm_id s = Some v ->
  check_output_out env (trace s) list_cmd = Some ls ->
  contains ls v = false ->
  start env fuel s = (Ok u, s') ->
  In (ELoggedExec (start_cmd v)) (events_since s s') /\
  exists ip, ip <> "" /\ private_ipv4 s' = Some ip /\
             get_ssh_name s' = (Ok ip, s').
Proof.
  intros Hv Hl Hc H.
  pose proof (start_ok_started env fuel s s' v ls u Hv Hl Hc H) as W.
  split.
  - destruct (wait_for_ip_keeps env fuel
                (record (ELoggedExec (start_cmd v))
                   (record (ECheckOutput list_cmd) s)))
      as [_ (evs & Tr & _)].
    rewrite W in Tr. cbn [snd trace record] in Tr.
    rewrite (events_since_app s s'
               (evs ++ [ELoggedExec (start_cmd v); ECheckOutput list_cmd])).
    + apply in_or_app. right. now left.
    + rewrite Tr, <- app_assoc. reflexivity.
  - destruct (wait_for_ip_address env fuel _ s' tt W) as (ip & Hip & E).
    exists ip. repeat split; try assumption.
    unfold get_ssh_name, bind, gets, assert_truthy.
    rewrite E, (truthy_some ip Hip). reflexivity.
Qed.

(** The stopped machine of the sample is started and gets the address
    of its lease. *)
Lemma start_returns_with_address_witness :
  let s' := snd (start (Sample.env true) 3 Scenario.stopped) in
  In (ELoggedExec (start_cmd Sample.vm0)) (events_since Scenario.stopped s') /\
  exists ip, ip <> "" /\ private_ipv4 s' = Some ip /\
             get_ssh_name s' = (Ok ip, s').
Proof.
  apply (start_returns_with_address (Sample.env true) 3 Scenario.stopped
           (snd (start (Sample.env true) 3 Scenario.stopped))
           Sample.vm0 (Sample.domains false) tt);
    vm_compute; reflexivity.
Defined.

Lemma parse_ip_constant (env : Env) (s : LibvirtdState) (net lines : string) :
  primary_net s = Some net ->
  (forall tr, check_output_out env tr (lease_cmd net) = Some lines) ->
  _parse_ip env s
  = (parse_leases (primary_mac s) lines,
     record (ECheckOutput (lease_cmd net)) s).
Proof.
  intros Hn Hc. unfold _parse_ip, bind, gets, lift, check_output.
  rewrite Hn. cbn [argv res_map]. unfold lease_cmd in Hc. rewrite Hc.
  cbn [primary_mac record]. reflexivity.
Qed.

(** X5. While the lease table never shows an address for the machine,
    [_wait_for_ip] neither returns nor raises: whatever the number of
    rounds it is given, it is still waiting when they are used up,
    having slept once a round, given no command and changed no
    attribute. *)
Theorem wait_for_ip_never_gives_up (env : Env) (s : LibvirtdState)
        (net lines : string) (o : option string) :
  primary_net s = Some net ->
  (forall tr, check_output_out env tr (lease_cmd net) = Some lines) ->
  parse_leases (primary_mac s) lines = Ok o ->
  truthy o = false ->
  forall fuel,
    let s' := snd (_wait_for_ip env fuel s) in
    fst (_wait_for_ip env fuel s) = Timeout /\
    count is_sleep (events_since s s') = fuel /\
    count is_command (events_since s s') = 0 /\
    attributes s' = attributes s.
Proof.
  intros Hn Hc Hp Ht fuel.
  assert (G : exists evs,
             trace (snd (_wait_for_ip env fuel s)) = (evs ++ trace s)%list /\
             count is_sleep evs = fuel /\ count is_command evs = 0 /\
             fst (_wait_for_ip env fuel s) = Timeout /\
             attributes (snd (_wait_for_ip env fuel s)) = attributes s).
  { revert s Hn Hp. induction fuel as [|k IH]; intros s Hn Hp.
    - exists []. repeat split.
    - set (s2 := record (ESleep 1) (record (ECheckOutput (lease_cmd net)) s)).
      assert (E : _wait_for_ip env (S k) s = _wait_for_ip env k s2).
      { cbn [_wait_for_ip]. unfold bind.
        rewrite (parse_ip_constant env s net lines Hn Hc), Hp, Ht.
        unfold sleep. fold s2. now destruct (_wait_for_ip env k s2) as [[]]. }
      rewrite E.
      destruct (IH s2 Hn Hp) as (evs & Tr & C1 & C2 & R & A).
      exists (evs ++ [ESleep 1; ECheckOutput (lease_cmd net)])%list.
      split; [rewrite Tr, <- app_assoc; reflexivity|].
      rewrite !count_app, C1, C2. repeat split; try (cbn; lia).
      + exact R.
      + exact A. }
  destruct G as (evs & Tr & C1 & C2 & R & A).
  cbv zeta. rewrite (events_since_app _ _ evs Tr). auto.
Qed.

(** The machine of the sample on a host whose lease table stays empty:
    five rounds, five sleeps, and still waiting. *)
Lemma wait_for_ip_never_gives_up_witness :
  fst (_wait_for_ip (Sample.env_with true "no leases") 5 Sample.created)
  = Timeout.
Proof.
  apply (wait_for_ip_never_gives_up (Sample.env_with true "no leases")
           Sample.created "default" "no leases" None);
    reflexivity.
Defined.

(** ** [stop] *)

(** X6. [stop] lists the domains first. When the domain is not listed it
    gives no command and marks the machine stopped. When it is listed
    it gives one [destroy] command, and marks the machine stopped only
    if that command succeeds: after a failed command the run state is
    as it was. *)
Theorem stop_behaviour (env : Env) (s : LibvirtdState) (v ls : string) :
  vm_id s = Some v -> v <> "" ->
  check_output_out env (trace s) list_cmd = Some ls ->
  let s' := snd (stop env s) in
  (contains ls v = false ->
   stop env s = (Ok tt, set_state STOPPED (record (ECheckOutput list_cmd) s)))
  /\
  (contains ls v = true ->
   events_since s s'
   = [ELoggedExec (force_stop_cmd v); ECheckOutput list_cmd] /\
   (fst (stop env s) = Ok tt -> state s' = STOPPED) /\
   (fst (stop env s) <> Ok tt ->
    fst (stop env s) = Raise CommandFailed /\ state s' = state s)).
Proof.
  intros Hv Hne Hl s'. subst s'.
  unfold stop, _is_running.
  unfold bind, gets, assert_truthy, ret, raise, modify, check_output,
    _logged_exec.
  rewrite Hv, (truthy_some v Hne). unfold list_cmd in Hl. rewrite Hl.
  cbn [vm_id record]. rewrite Hv.
  split; intros Hc; rewrite Hc; [reflexivity|].
  cbn [trace record].
  destruct (logged_exec_out env _ _); cbn [fst snd].
  - split; [apply events_since_app; reflexivity|].
    split; [reflexivity|]. intros H. now destruct H.
  - split; [apply events_since_app; reflexivity|].
    split; [discriminate|]. intros _. split; reflexivity.
Qed.

(** The machine of the sample runs and is stopped by a command; once
    stopped, a second [stop] only lists the domains. *)
Lemma stop_behaviour_witness :
  events_since Sample.created (snd (stop (Sample.env true) Sample.created))
  = [ELoggedExec (force_stop_cmd Sample.vm0); ECheckOutput list_cmd] /\
  stop (Sample.env true) Scenario.stopped
  = (Ok tt,
     set_state STOPPED (record (ECheckOutput list_cmd) Scenario.stopped)).
Proof.
  split.
  - destruct (stop_behaviour (Sample.env true) Sample.created Sample.vm0
                (Sample.domains true) eq_refl ltac:(discriminate) eq_refl)
      as [_ H].
    destruct (H eq_refl) as [E _]. exact E.
  - destruct (stop_behaviour (Sample.env true) Scenario.stopped Sample.vm0
                (Sample.domains false) eq_refl ltac:(discriminate) eq_refl)
      as [H _].
    exact (H eq_refl).
Defined.

(** ** [destroy] and [create] around a [vm_id] *)

Lemma stop_lists (env : Env) (s : LibvirtdState) (v : string) :
  vm_id s = Some v -> v <> "" ->
  In (ECheckOutput list_cmd) (events_since s (snd (stop env s))).
Proof.
  intros Hv Hne. unfold stop, _is_running.
  unfold bind, gets, assert_truthy, ret, raise, modify, check_output,
    _logged_exec.
  rewrite Hv, (truthy_some v Hne).
  destruct (check_output_out env (trace s) _) as [ls|]; cbn [vm_id record].
  - rewrite Hv. destruct (contains ls v).
    + destruct (logged_exec_out env _ _); cbn [snd];
        rewrite (events_since_app s _
                   [ELoggedExec (force_stop_cmd v); ECheckOutput list_cmd]);
        try reflexivity; now right; left.
    + cbn [snd].
      rewrite (events_since_app s _ [ECheckOutput list_cmd]);
        [now left|reflexivity].
  - cbn [snd].
    rewrite (events_since_app s _ [ECheckOutput list_cmd]);
      [now left|reflexivity].
Qed.

Lemma in_events_later {T} (proj : LibvirtdState -> T) (P Q : Event -> Prop)
      (e : Event) (s s1 s2 : LibvirtdState) :
  Frame proj P s s1 -> Frame proj Q s1 s2 ->
  In e (events_since s s1) -> In e (events_since s s2).
Proof.
  intros [_ (l1 & T1 & _)] [_ (l2 & T2 & _)].
  rewrite (events_since_app s s1 l1 T1).
  rewrite (events_since_app s s2 (l2 ++ l1)).
  - intros H. apply in_or_app. now right.
  - now rewrite T2, T1, app_assoc.
Qed.

(** What [destroy] does after [stop]. *)
Lemma destroy_tail_keeps_vm_id (env : Env) (v : option string) :
  Keeps vm_id (fun _ => True)
    (_logged_exec env ["virsh"; "-c"; "qemu:///system"; "undefine"; str v] ;;
     dp <- gets disk_path ;;
     unlink_if_exists env dp ;;
     ed <- gets extra_disks ;;
     destroy_extra_disks env ed ;;
     ret true).
Proof.
  apply keeps_bind; [apply keeps_logged_exec; [reflexivity|exact I]|].
  intros _. apply keeps_bind; [apply keeps_gets|intros dp].
  apply keeps_bind; [apply unlink_if_exists_keeps_vm_id|intros _].
  apply keeps_bind; [apply keeps_gets|intros ed].
  apply keeps_bind; [apply destroy_extra_disks_keeps_vm_id|].
  intros _. apply keeps_ret.
Qed.

(** X7. [destroy] asks nothing of the world exactly when there is no
    [vm_id] (none, or an empty one); it then returns [True] and leaves
    the machine as it is. *)
Theorem destroy_without_vm_id (env : Env) (wipe : bool) (s : LibvirtdState) :
  (truthy (vm_id s) = false -> destroy env wipe s = (Ok true, s)) /\
  (events_since s (snd (destroy env wipe s)) = [] <->
   truthy (vm_id s) = false).
Proof.
  assert (A : truthy (vm_id s) = false -> destroy env wipe s = (Ok true, s)).
  { intros H. unfold destroy, bind, gets. now rewrite H. }
  split; [exact A|]. split.
  - destruct (truthy (vm_id s)) eqn:H; [|reflexivity]. intros E. exfalso.
    destruct (truthy_inv _ H) as (v & Hv & Hne).
    assert (L : In (ECheckOutput list_cmd)
                  (events_since s (snd (destroy env wipe s)))).
    { unfold destroy. unfold bind at 1. unfold gets at 1. rewrite H.
      cbn [negb]. rewrite bind_run.
      pose proof (stop_lists env s v Hv Hne) as L.
      pose proof (stop_keeps_vm_id env s) as F1.
      destruct (stop env s) as [[[]|e|] s1]; cbn [snd] in *; try exact L.
      eapply in_events_later; [exact F1| |exact L].
      apply destroy_tail_keeps_vm_id. }
    rewrite E in L. destruct L.
  - intros H. rewrite (A H). apply events_since_app. reflexivity.
Qed.

(** The empty machine is destroyed without a call. *)
Lemma destroy_without_vm_id_witness :
  destroy (Sample.env true) false Sample.empty = (Ok true, Sample.empty).
Proof.
  destruct (destroy_without_vm_id (Sample.env true) false Sample.empty)
    as [H _].
  apply H. reflexivity.
Defined.

(** X8. After [destroy], which leaves the [vm_id], a [create] provisions
    nothing: it builds and copies no image, renders and registers no
    descriptor, and leaves the disk attributes, the descriptor and the
    [vm_id] as [destroy] left them. *)
Theorem create_after_destroy (env : Env) (wipe : bool) (fuel : nat)
        (defn : LibvirtdDefinition) (c a r : bool) (s : LibvirtdState) :
  truthy (vm_id s) = true ->
  let s1 := snd (destroy env wipe s) in
  let s2 := snd (create env fuel defn c a r s1) in
  vm_id s2 = vm_id s /\
  filter is_provisioning (events_since s1 s2) = [] /\
  provisioned_attrs s2 = provisioned_attrs s1.
Proof.
  intros H s1 s2.
  destruct (destroy_keeps_vm_id env wipe s) as [E1 _]. fold s1 in E1.
  assert (Hne : vm_id s1 <> None).
  { rewrite E1. intros E. rewrite E in H. discriminate H. }
  destruct (create_again env fuel defn c a r s1 Hne) as [_ F].
  fold s2 in F. destruct (frame_events _ _ _ _ F) as (P & _ & A).
  split; [|split; [now apply filter_none|exact P]].
  unfold provisioned_attrs in P. injection P as _ _ _ P. congruence.
Qed.

(** The machine of the sample, destroyed and created again. *)
Lemma create_after_destroy_witness :
  let s1 := snd (destroy (Sample.env true) false Sample.created) in
  let s2 := snd (create (Sample.env true) 3 (Sample.defn ["default"])
                   false false false s1) in
  vm_id s2 = Some Sample.vm0 /\
  filter is_provisioning (events_since s1 s2) = [] /\
  provisioned_attrs s2 = provisioned_attrs s1.
Proof.
  apply (create_after_destroy (Sample.env true) false 3
           (Sample.defn ["default"]) false false false Sample.created).
  reflexivity.
Defined.



(** ** Extra disks *)



(** ** What provisioning leaves *)

Lemma recorded_disks_paths (env : Env) (defn : LibvirtdDefinition)
      (items : list (option string * DiskDefn))
      (out : list (option string * DiskState)) :
  Forall (fun kv => imagePath (snd kv)
                    = Some (extra_disk_file env defn (fst kv))) out ->
  Forall (fun kv => imagePath (snd kv)
                    = Some (extra_disk_file env defn (fst kv)))
         (recorded_disks env defn items out).
Proof.
  revert out. unfold recorded_disks.
  induction items as [|item rest IH]; intros out H; [exact H|].
  cbn [fold_left]. apply IH. clear IH.
  induction out as [|[k v] out IHo]; cbn [dict_set].
  - repeat constructor.
  - inversion H as [|x l Hx Hl]; subst.
    destruct (opt_eqb (fst item) k); constructor; auto.
Qed.

Lemma path_not_empty (a b : string) : a ++ "/" ++ b <> "".
Proof. destruct a; discriminate. Qed.

Lemma files_of_paths (f : option string -> string)
      (l : list (option string * DiskState)) :
  (forall k, f k <> "") ->
  Forall (fun kv => imagePath (snd kv) = Some (f (fst kv))) l ->
  files_of (map (fun kv => imagePath (snd kv)) l)
  = map (fun kv => f (fst kv)) l.
Proof.
  intros Hf. induction 1 as [|[k v] l Hx Hl IH]; [reflexivity|].
  cbn [map fst snd] in *. unfold files_of in *. cbn [flat_map].
  rewrite IH, Hx, (truthy_some _ (Hf k)). reflexivity.
Qed.

(** X11. When the provisioning block of [create] returns, the files
    [destroy] will look at are the primary disk and one file for each
    extra disk that is recorded, each named after the image directory,
    the domain and the disk; none of the attributes of the identity
    block has changed. *)
Theorem provision_results (env : Env) (defn : LibvirtdDefinition)
        (s s' : LibvirtdState) (u : unit) :
  create_provision env defn s = (Ok u, s') ->
  disk_files s'
  = primary_disk_file env defn
    :: map (fun kv => extra_disk_file env defn (fst kv)) (extra_disks s') /\
  List.length (extra_disks s') <= List.length (disks defn) /\
  identity_part s' = identity_part s.
Proof.
  intros H. apply create_provision_trace in H.
  destruct H as (base_built & builts & x & _ & _ & _ & A & I).
  unfold provisioned_attrs in A. injection A as _ Hp He _.
  split; [|split; [|exact I]].
  - unfold disk_files. unfold files_of at 1. cbn [flat_map].
    fold (files_of (map (fun kv => imagePath (snd kv)) (extra_disks s'))).
    rewrite Hp. unfold primary_disk_file at 1.
    rewrite (truthy_some _ (path_not_empty _ _)). cbn [str app].
    f_equal. apply files_of_paths.
    + intros k. apply path_not_empty.
    + rewrite He. apply recorded_disks_paths. constructor.
  - rewrite He. unfold recorded_disks.
    assert (G : forall items out,
               List.length
                 (fold_left
                    (fun acc item =>
                       dict_set (fst item) (extra_disk_state env defn item)
                         acc) items out)
               <= List.length out + List.length items).
    { clear. induction items as [|item rest IH]; intros out;
        cbn [fold_left List.length]; [lia|].
      specialize (IH (dict_set (fst item)
                        (extra_disk_state env defn item) out)).
      assert (D : List.length
                    (dict_set (fst item) (extra_disk_state env defn item) out)
                  <= S (List.length out)).
      { clear. induction out as [|[k v] out IHo]; cbn [dict_set List.length];
          [lia|].
        destruct (opt_eqb (fst item) k); cbn [List.length]; lia. }
      lia. }
    exact (G (disks defn) []).
Qed.

(** The sample: after provisioning, [destroy] will look at the primary
    disk and at the image of the disk [data]. *)
Lemma provision_results_witness :
  disk_files
    (snd (create_provision (Sample.env true) (Sample.defn ["default"])
            Scenario.identified))
  = ["/var/lib/libvirt/images/nixops-d1-m1.img";
     "/var/lib/libvirt/images/nixops-d1-m1-data.img"].
Proof.
  remember (create_provision (Sample.env true) (Sample.defn ["default"])
              Scenario.identified) as run eqn:R.
  assert (Ex : map fst (extra_disks (snd run)) = [Some "data"])
    by (rewrite R; vm_compute; reflexivity).
  assert (Er : exists u, fst run = Ok u)
    by (rewrite R; vm_compute; eauto).
  destruct run as [r s']. cbn [fst snd] in *. destruct Er as (u & ->).
  symmetry in R.
  destruct (provision_results _ _ _ _ _ R) as (Hf & _ & _).
  rewrite Hf, <- map_map, Ex. reflexivity.
Defined.

(** ** The key pair *)

Section KeyFrames.

Variable env : Env.

Lemma parse_ip_keeps_keys :
  Keeps client_keys no_key_generation (_parse_ip env).
Proof. unfold _parse_ip. keeps. Qed.

Lemma wait_for_ip_keeps_keys (fuel : nat) :
  Keeps client_keys no_key_generation (_wait_for_ip env fuel).
Proof.
  induction fuel as [|k IH]; simpl; [apply keeps_timeout|].
  apply keeps_bind; [apply parse_ip_keeps_keys|intros ip].
  destruct (truthy ip); keeps. exact IH.
Qed.

Lemma start_keeps_keys (fuel : nat) :
  Keeps client_keys no_key_generation (start env fuel).
Proof.
  unfold start, _is_running.
  repeat first
    [ apply assert_truthy_keeps
    | apply parse_ip_keeps_keys | apply wait_for_ip_keeps_keys
    | keeps_step ].
Qed.

Lemma copy_extra_disks_loop_keeps_keys (defn : LibvirtdDefinition)
      (items : list (option string * DiskDefn))
      (out : list (option string * DiskState)) :
  Keeps client_keys no_key_generation
    (_copy_extra_disks_loop env defn items out).
Proof.
  revert out. induction items as [|[n d] rest IH]; intros out; simpl.
  - apply keeps_ret.
  - unfold _extra_disk_base_image_path. keeps. apply IH.
Qed.

Lemma create_provision_keeps_keys (defn : LibvirtdDefinition) :
  Keeps client_keys no_key_generation (create_provision env defn).
Proof.
  unfold create_provision, _copy_extra_disks, _make_domain_xml,
    copyfile, chmod, write_file.
  repeat first [ apply copy_extra_disks_loop_keeps_keys | keeps_step ].
Qed.

Lemma create_tail_keeps_keys (fuel : nat) (defn : LibvirtdDefinition) :
  Keeps client_keys no_key_generation
    (v <- gets vm_id ;;
     (match v with
      | None => create_provision env defn
      | Some _ => ret tt
      end) ;;
     start env fuel ;;
     ret true).
Proof.
  apply keeps_bind; [apply keeps_gets|intros v].
  apply keeps_bind.
  - destruct v; [apply keeps_ret|apply create_provision_keeps_keys].
  - intros _. apply keeps_bind; [|intros ?; apply keeps_ret].
    apply start_keeps_keys.
Qed.

End KeyFrames.

Lemma frame_key_once (s s' : LibvirtdState) :
  Frame client_keys no_key_generation s s' -> KeyOnce s s'.
Proof.
  intros [E (evs & Tr & F)]. exists evs.
  assert (C : count is_key_generation evs = 0) by now apply count_none.
  repeat split; auto.
Qed.

Lemma key_once_refl (s : LibvirtdState) : KeyOnce s s.
Proof. exists []. repeat split; auto. Qed.

Lemma key_once_trans (s1 s2 s3 : LibvirtdState) :
  KeyOnce s1 s2 -> KeyOnce s2 s3 -> KeyOnce s1 s3.
Proof.
  intros (l1 & T1 & A1 & B1) (l2 & T2 & A2 & B2).
  exists (l2 ++ l1)%list. rewrite count_app. split; [|split].
  - now rewrite T2, T1, app_assoc.
  - intros H. destruct (A1 H) as [E1 C1].
    assert (H2 : truthy (client_public_key s2) = true).
    { unfold client_keys in E1. injection E1 as E1 _. now rewrite E1. }
    destruct (A2 H2) as [E2 C2].
    split; [congruence|lia].
  - destruct B1 as [C1|[C1 H1]].
    + destruct B2 as [C2|[C2 H2]]; [left; lia|right; split; [lia|auto]].
    + destruct (A2 H1) as [E2 C2]. right. split; [lia|].
      unfold client_keys in E2. injection E2 as E2 _. now rewrite E2.
Qed.

Section KeySource.

Variable env : Env.
Hypothesis public_key_not_empty : forall tr, snd (key_pair env tr) <> "".

Lemma create_identity_key_once (defn : LibvirtdDefinition)
      (s : LibvirtdState) :
  KeyOnce s (snd (create_identity env defn s)).
Proof.
  unfold create_identity, set_common_state.
  unfold bind at 1. unfold ret at 1.
  unfold bind at 1. unfold lift at 1.
  destruct (getitem (networks defn) 0) as [n0| |];
    try apply key_once_refl.
  unfold bind at 1. unfold modify at 1.
  unfold bind at 1. unfold gets at 1.
  cbn [primary_mac set_primary_net].
  assert (G : KeyOnce s
                (snd ((if negb (truthy (primary_mac s))
                       then _generate_primary_mac env else ret tt)
                        (set_primary_net n0 s)))).
  { destruct (truthy (primary_mac s)); cbn [negb].
    - exists []. repeat split; auto.
    - destruct (generate_primary_mac_run env (set_primary_net n0 s))
        as (o4 & o5 & o6 & E & _).
      rewrite E. cbn [snd].
      exists [ERandInt 0x00 0xff; ERandInt 0x00 0xff; ERandInt 0x00 0x7f].
      repeat split; auto. }
  rewrite bind_run.
  destruct ((if negb (truthy (primary_mac s))
             then _generate_primary_mac env else ret tt)
              (set_primary_net n0 s)) as [[[]|e|] s1]; cbn [snd] in *;
    try exact G.
  eapply key_once_trans; [exact G|]. clear G.
  unfold bind, gets, create_key_pair, modify, ret.
  destruct (truthy (client_public_key s1)) eqn:Hk; cbn [negb snd].
  - apply key_once_refl.
  - exists [ECreateKeyPair]. split; [reflexivity|].
    split; [intros H; rewrite H in Hk; discriminate Hk|].
    right. split; [reflexivity|].
    cbn [client_public_key set_client_keys record trace].
    apply truthy_some, public_key_not_empty.
Qed.

Lemma create_key_once (fuel : nat) (defn : LibvirtdDefinition)
      (c a r : bool) (s : LibvirtdState) :
  KeyOnce s (snd (create env fuel defn c a r s)).
Proof.
  unfold create. rewrite bind_run.
  pose proof (create_identity_key_once defn s) as H.
  destruct (create_identity env defn s) as [[[]|e|] s1]; simpl in *; auto.
  eapply key_once_trans; [exact H|].
  apply frame_key_once, create_tail_keeps_keys.
Qed.

(** [get_physical_spec] always answers, with the public key the
    machine then has as the only authorized key. *)
Lemma get_physical_spec_run (s : LibvirtdState) :
  let s' := snd (get_physical_spec env s) in
  get_physical_spec env s
  = (Ok [(authorized_keys_option, [client_public_key s'])], s') /\
  truthy (client_public_key s') = true /\
  KeyOnce s s'.
Proof.
  unfold get_physical_spec, bind, gets, create_key_pair, modify, ret.
  destruct (truthy (client_public_key s)) eqn:Hk; cbn [negb snd].
  - split; [reflexivity|]. split; [exact Hk|apply key_once_refl].
  - cbn [client_public_key set_client_keys record].
    split; [reflexivity|].
    assert (T : truthy (Some (snd (key_pair env (trace s)))) = true)
      by apply truthy_some, public_key_not_empty.
    split; [exact T|].
    exists [ECreateKeyPair]. split; [reflexivity|].
    split; [intros H; rewrite H in Hk; discriminate Hk|].
    right. split; [reflexivity|exact T].
Qed.

Lemma run_calls_key_once (calls : list Call) (s : LibvirtdState) :
  KeyOnce s (run_calls env calls s).
Proof.
  revert s. unfold run_calls.
  induction calls as [|c rest IH]; intros s; cbn [fold_left].
  - apply key_once_refl.
  - eapply key_once_trans; [|apply IH].
    destruct c as [fuel defn|]; cbn [run_call].
    + apply create_key_once.
    + apply get_physical_spec_run.
Qed.

End KeySource.

(** X12. With a key source whose public keys are not empty, [create] and
    [get_physical_spec] share one key pair: over any sequence of calls
    of the two, from any machine, a key pair is generated at most
    once, and not at all when the machine has a public key, which then
    stays, with its private key; and [get_physical_spec] always
    answers, with the public key of the machine as the only authorized
    key of root. *)
Theorem key_pair_generated_once (env : Env) :
  (forall tr, snd (key_pair env tr) <> "") ->
  (forall s,
     let s' := snd (get_physical_spec env s) in
     get_physical_spec env s
     = (Ok [(authorized_keys_option, [client_public_key s'])], s') /\
     truthy (client_public_key s') = true) /\
  (forall calls s,
     count is_key_generation (events_since s (run_calls env calls s)) <= 1) /\
  (forall calls s pub,
     client_public_key s = Some pub -> pub <> "" ->
     let s' := run_calls env calls s in
     client_public_key s' = Some pub /\
     client_private_key s' = client_private_key s /\
     count is_key_generation (events_since s s') = 0).
Proof.
  intros Hk. split; [|split].
  - intros s. destruct (get_physical_spec_run env Hk s) as (H1 & H2 & _).
    split; assumption.
  - intros calls s.
    destruct (run_calls_key_once env Hk calls s) as (evs & Tr & _ & B).
    rewrite (events_since_app _ _ evs Tr). lia.
  - intros calls s pub Hp Hne s'.
    destruct (run_calls_key_once env Hk calls s) as (evs & Tr & A & _).
    fold s' in Tr, A. rewrite (events_since_app s s' evs Tr).
    destruct A as [E C].
    { rewrite Hp. now apply truthy_some. }
    unfold client_keys in E. injection E as E1 E2.
    repeat split; congruence.
Qed.

(** The empty machine of the sample: asked for its physical
    specification, created, and asked again, it generates one key pair,
    at the first call, and answers the same key twice. *)
Lemma key_pair_generated_once_witness :
  let calls := [CallPhysicalSpec;
                CallCreate 3 (Sample.defn ["default"]);
                CallPhysicalSpec] in
  let s' := run_calls (Sample.env true) calls Sample.empty in
  count is_key_generation (events_since Sample.empty s') <= 1 /\
  fst (get_physical_spec (Sample.env true) Sample.empty)
  = Ok [(authorized_keys_option, [Some "PUBLIC"])] /\
  fst (get_physical_spec (Sample.env true) s')
  = Ok [(authorized_keys_option, [Some "PUBLIC"])].
Proof.
  destruct (key_pair_generated_once (Sample.env true)) as (H1 & H2 & _).
  - discriminate.
  - split; [apply H2|]. split.
    + destruct (H1 Sample.empty) as [E _]. rewrite E. reflexivity.
    + vm_compute. reflexivity.
Defined.

(** ** Braces in the extra text of a definition *)

Lemma append_assoc (a b c : string) : (a ++ b) ++ c = a ++ b ++ c.
Proof.
  induction a as [|x a IH]; [reflexivity|]. cbn [append]. now rewrite IH.
Qed.

Lemma format_lone_brace (args : list string) (num : numbering)
      (post tail : string) :
  prefix_of "}" post = false ->
  format_go args num InText (("}" ++ post) ++ nl ++ tail) = Raise ValueError.
Proof.
  intros H. destruct post as [|c post]; [reflexivity|].
  cbn [prefix_of] in H. rewrite andb_true_r in H.
  cbn [append format_go].
  replace (Ascii.eqb "}" "{") with false by reflexivity.
  replace (Ascii.eqb "}" "}") with true by reflexivity.
  rewrite Ascii.eqb_sym, H. reflexivity.
Qed.

(** X13. The extra text of the domain is part of the template that is
    formatted: when it holds a closing brace that stands alone, after
    text without braces, rendering raises ValueError, whatever else
    the definition says. *)
Theorem descriptor_rejects_lone_brace (env : Env)
        (defn : LibvirtdDefinition) (s : LibvirtdState)
        (m qemu ed pre post : string) (names : list string) :
  networks defn = map Some names ->
  primary_mac s = Some m ->
  brace_free m = true ->
  Forall (fun n => brace_free n = true) names ->
  Forall (fun kv => brace_free (str (imagePath (snd kv))) = true /\
                    brace_free (str (disk_device (snd kv))) = true)
         (extra_disks s) ->
  find_executable env (trace s) "qemu-system-x86_64" = Some qemu ->
  extra_devices defn = Some ed -> brace_free ed = true ->
  extra_domain defn = Some (pre ++ "}" ++ post) ->
  brace_free pre = true -> prefix_of "}" post = false ->
  _make_domain_xml env defn s
  = (Raise ValueError, record (EFindExecutable "qemu-system-x86_64") s).
Proof.
  intros Hn Hm Hb Hnames Hdisks Hq Hed Bed Hxd Bpre Hpost.
  assert (Hi : res_mapM (iface s) (networks defn)
               = Ok (iface_texts (primary_net s) m names)).
  { rewrite Hn. now apply ifaces_run. }
  unfold _make_domain_xml, bind, spawn_find_executable.
  rewrite Hq. unfold gets, lift. cbn [extra_disks record].
  change (iface (record (EFindExecutable "qemu-system-x86_64") s))
    with (iface s).
  rewrite disks_xml_run, Hi, Hed, Hxd. cbn [join_item].
  rewrite vm_id_run, disk_path_run.
  fold (disk_texts (extra_disks s)).
  rewrite domain_format_run;
    [|now apply disk_texts_brace_free
     |now apply iface_texts_brace_free|exact Bed].
  replace ((pre ++ "}" ++ post) ++ nl ++ lit "</domain>")
    with (pre ++ ("}" ++ post) ++ nl ++ lit "</domain>").
  - rewrite (format_plain _ _ pre) by exact Bpre.
    rewrite format_lone_brace by exact Hpost. reflexivity.
  - symmetry. apply append_assoc.
Qed.

(** A definition of the sample whose extra text of the domain ends
    with a closing brace. *)
Lemma descriptor_rejects_lone_brace_witness :
  let defn :=
    {| vcpu := Some "2"; memory_size := Some "1024";
       extra_devices := Some ""; extra_domain := Some "<!-- } -->";
       headless := true; image_dir := "/var/lib/libvirt/images";
       networks := [Some "default"]; disks := [] |} in
  fst (_make_domain_xml (Sample.env true) defn Sample.created)
  = Raise ValueError.
Proof.
  intros defn.
  rewrite (descriptor_rejects_lone_brace (Sample.env true) defn
             Sample.created Sample.mac0 "/usr/bin/qemu-system-x86_64" ""
             "<!-- " " -->" ["default"]);
    try reflexivity; repeat constructor.
Defined.

(** ** Definitions that are parsed *)

Lemma dict_set_keys {V} (k : option string) (v : V)
      (d : list (option string * V)) (k' : option string) :
  In k' (map fst (dict_set k v d)) <-> k' = k \/ In k' (map fst d).
Proof.
  induction d as [|[k0 v0] d IH]; cbn [dict_set map fst In].
  - intuition congruence.
  - destruct (opt_eqb k k0) eqn:E; cbn [map fst In].
    + apply opt_eqb_spec in E. subst k0. intuition congruence.
    + rewrite IH. intuition congruence.
Qed.

Lemma dict_set_NoDup {V} (k : option string) (v : V)
      (d : list (option string * V)) :
  NoDup (map fst d) -> NoDup (map fst (dict_set k v d)).
Proof.
  induction d as [|[k0 v0] d IH]; cbn [dict_set map fst]; intros H.
  - repeat constructor. intros [].
  - inversion H as [|x l Hx Hl]; subst.
    destruct (opt_eqb k k0) eqn:E; cbn [map fst].
    + apply opt_eqb_spec in E. subst k0. now constructor.
    + constructor; [|now apply IH].
      rewrite dict_set_keys. intros [->|Hin]; [|contradiction].
      assert (T : opt_eqb k k = true) by now apply opt_eqb_spec.
      congruence.
Qed.

Lemma parse_disks_NoDup (ks : list ET.Element)
      (acc out : list (option string * DiskDefn)) :
  NoDup (map fst acc) ->
  parse_disks ks acc = Ok out ->
  NoDup (map fst out) /\
  forall k, In k (map fst out) <->
            In k (map fst acc) \/ In k (map (fun e => ET.get e "name") ks).
Proof.
  revert acc. induction ks as [|e ks IH]; intros acc Hacc H.
  - injection H as <-. split; [exact Hacc|]. cbn. intuition.
  - cbn [parse_disks] in H.
    destruct (parse_disk e) as [d| |]; try discriminate H.
    cbn [res_bind] in H.
    apply IH in H; [|now apply dict_set_NoDup].
    destruct H as [N K]. split; [exact N|].
    intros k. rewrite K, dict_set_keys. cbn [map In].
    split; intros H; intuition congruence.
Qed.

(** X14. A definition that [LibvirtdDefinition.__init__] accepts has a
    first network, so that [create] never fails at [defn.networks[0]]:
    its identity block returns and leaves that network as the primary
    one. Its disks have one entry for each name that occurs among the
    disk elements of the configuration, each name once. *)
Theorem definition_invariants (xml : ET.Element)
        (defn : LibvirtdDefinition) :
  LibvirtdDefinition_init xml = Ok defn ->
  (exists n rest, networks defn = n :: rest /\
     forall env s,
       fst (create_identity env defn s) = Ok tt /\
       primary_net (snd (create_identity env defn s)) = n) /\
  NoDup (map fst (disks defn)) /\
  (forall x,
     ET.find [ET.child "attrs"; ET.named "attr" "libvirtd";
              ET.child "attrs"] xml = Some x ->
     forall k,
       In k (map fst (disks defn)) <->
       In k (map (fun e => ET.get e "name")
               (ET.findall [ET.named "attr" "disks";
                            ET.child "attrs"; ET.child "attr"] x))).
Proof.
  intros H. unfold LibvirtdDefinition_init in H.
  destruct (ET.find _ xml) as [x|]; [|discriminate H].
  repeat match type of H with
         | res_bind ?r _ = _ =>
             destruct r as [?| |]; try discriminate H; cbn [res_bind] in H
         end.
  match type of H with
  | match ?o with _ => _ end = _ => destruct o as [dir|]; [|discriminate H]
  end.
  unfold assert in H.
  match type of H with
  | res_bind (if ?b then _ else _) _ = _ =>
      destruct b eqn:Hlen; [|discriminate H]
  end.
  cbn [res_bind] in H.
  match type of H with
  | res_bind ?r _ = _ =>
      destruct r as [ds| |] eqn:Hd; try discriminate H; cbn [res_bind] in H
  end.
  injection H as <-. cbn [networks disks].
  apply parse_disks_NoDup in Hd; [|constructor]. destruct Hd as [N K].
  split; [|split].
  - apply Nat.ltb_lt in Hlen.
    destruct (map _ (ET.findall _ x)) as [|n rest] eqn:En;
      [cbn in Hlen; lia|].
    exists n, rest. split; [reflexivity|]. intros env s.
    split.
    + apply create_identity_ok. cbn [networks]. discriminate.
    + apply create_identity_primary_net. reflexivity.
  - exact N.
  - intros x' [= <-] k. rewrite K. cbn [map In]. intuition.
Qed.

(** The configuration of the sample, with its one disk. *)
Lemma definition_invariants_witness :
  exists defn,
    LibvirtdDefinition_init (Sample.config [Sample.disk_entry []]) = Ok defn /\
    networks defn = [Some "default"] /\
    NoDup (map fst (disks defn)).
Proof.
  destruct (LibvirtdDefinition_init (Sample.config [Sample.disk_entry []]))
    as [defn| |] eqn:E; try (vm_compute in E; discriminate E).
  exists defn. split; [reflexivity|].
  destruct (definition_invariants _ _ E) as (_ & N & _).
  split; [|exact N].
  vm_compute in E. injection E as <-. reflexivity.
Defined.
